(** * Benchmark aggregator: a shallow embedding of [dev_run/analyze.py] and
      [dev_run/analyze_ext.py]

    The development follows the two scripts function by function.

    - [Py] holds the Python values the scripts manipulate (decoded JSON
      documents, exceptions, the string methods that are called).
    - [Np] holds [numpy.percentile] on a list of float samples.
    - [Pandas] holds the few data-frame operations that are used: float
      cells with NaN and infinities, NaN-skipping sums and means, group-by,
      stable multi-key sorting.
    - [Analyze] and [AnalyzeExt] hold the functions of the two scripts.
    - [Spec] holds the vocabulary in which the properties are stated and
      [Ex] the concrete files and tables of the examples.

    Modelling conventions.  A Python float ([Py.float]) is NaN, a signed
    infinity or a finite number, held as the rational it denotes.  A JSON
    document can hold the three kinds, since [json.loads] reads [NaN],
    [Infinity] and the numbers beyond the float range.  [float] of an
    integer rounds to the nearest float of 53 bits and raises when the
    integer is too large.  The result of an arithmetic operation on finite
    floats is the exact one, not rounded to 53 bits; when it leaves the
    float range it is an infinity.  The sign of a zero is not kept.  A
    pandas float cell is a rational, NaN or a signed infinity.  Text is
    a [string] whose characters are the code points below 256.  The library
    functions whose code is not part of the repository (the JSON decoder,
    [float]/[int] of a [str], [dateutil.parser.parse], [os.path.relpath],
    the file system, [glob], number formatting) are fields of the records
    [Py.Lib], [Py.FS] and [Py.Dir] and every definition is parametric in
    them. *)

From Stdlib Require Import String Ascii List ZArith QArith Qround Lia Bool.
From Stdlib Require Import Permutation DecimalString DecimalNat.
From Stdlib Require Import Lqa Sorted.
Import ListNotations.

Set Implicit Arguments.
Set Warnings "-register-all".
Local Open Scope nat_scope.
Local Open Scope list_scope.

(* ------------------------------------------------------------------ *)
(** * Python values and primitives *)

Module Py.

(** A decoded JSON document, as [json.loads] returns it.  [JNull] is
    Python's [None]; an object lists its members in file order, each key
    once (a [dict] has one value per key).  [JNum q] is a finite number: an
    [int] when [q] is an integer, a [float] otherwise (a float whose value
    is an integer behaves as that integer wherever the scripts use it).
    [JInf] is what [Infinity], [-Infinity] and a number beyond the float
    range decode to, [JNaN] what [NaN] decodes to. *)
Inductive json : Type :=
| JNull
| JBool (b : bool)
| JNum (q : Q)
| JStr (s : string)
| JArr (items : list json)
| JObj (members : list (string * json))
| JInf (positive : bool)
| JNaN.

Inductive exn : Type :=
| JSONDecodeError
| ValueError
| TypeError
| AttributeError
| OSError
| OverflowError.

(** The outcome of a Python expression: a value, or a raised exception. *)
Inductive result (A : Type) : Type :=
| Ok (a : A)
| Raise (e : exn).

Arguments Ok {A} a.
Arguments Raise {A} e.

Definition bind {A B : Type} (c : result A) (k : A -> result B) : result B :=
  match c with
  | Ok a => k a
  | Raise e => Raise e
  end.

Notation "x <- c ;; k" := (bind c (fun x => k))
  (at level 61, c at next level, right associativity).

(** [[f(x) for x in xs]]: the first exception aborts the comprehension. *)
Fixpoint mapM {A B : Type} (f : A -> result B) (xs : list A) : result (list B) :=
  match xs with
  | [] => Ok []
  | x :: xs' =>
      y <- f x ;;
      ys <- mapM f xs' ;;
      Ok (y :: ys)
  end.

(** ** Floats *)

Inductive float : Type :=
| Fin (q : Q)
| FInf (positive : bool)
| FNaN.

(** An exact result of this magnitude or more is beyond the largest float
    and rounds to an infinity. *)
Definition HUGE : Z := (2 ^ 1024 - 2 ^ 970)%Z.

(** The float of the exact result [q] of an operation. *)
Definition fin (q : Q) : float :=
  if Qle_bool (inject_Z HUGE) q then FInf true
  else if Qle_bool q (inject_Z (- HUGE)) then FInf false
  else Fin q.

Definition is_negative (q : Q) : bool := (Qnum q <? 0)%Z.

Definition fneg (a : float) : float :=
  match a with
  | Fin q => Fin (- q)
  | FInf s => FInf (negb s)
  | FNaN => FNaN
  end.

(** [a + b] *)
Definition fadd (a b : float) : float :=
  match a, b with
  | FNaN, _ => FNaN
  | _, FNaN => FNaN
  | Fin x, Fin y => fin (x + y)
  | Fin _, FInf s => FInf s
  | FInf s, Fin _ => FInf s
  | FInf s, FInf t => if Bool.eqb s t then FInf s else FNaN
  end.

(** [a - b] *)
Definition fsub (a b : float) : float := fadd a (fneg b).

(** An infinity times the finite [x]. *)
Definition inf_times (s : bool) (x : Q) : float :=
  if Qeq_bool x 0 then FNaN
  else FInf (if is_negative x then negb s else s).

(** [a * b] *)
Definition fmul (a b : float) : float :=
  match a, b with
  | FNaN, _ => FNaN
  | _, FNaN => FNaN
  | Fin x, Fin y => fin (x * y)
  | Fin x, FInf s => inf_times s x
  | FInf s, Fin x => inf_times s x
  | FInf s, FInf t => FInf (Bool.eqb s t)
  end.

(** [a >= 0] *)
Definition ge0 (a : float) : bool :=
  match a with
  | Fin q => Qle_bool 0 q
  | FInf s => s
  | FNaN => false
  end.

(** [a == 0.0] *)
Definition is_zero (a : float) : bool :=
  match a with
  | Fin q => Qeq_bool q 0
  | _ => false
  end.

(** [a <= b] *)
Definition fle (a b : float) : bool :=
  match a, b with
  | FNaN, _ => false
  | _, FNaN => false
  | Fin x, Fin y => Qle_bool x y
  | Fin _, FInf s => s
  | FInf s, Fin _ => negb s
  | FInf s, FInf t => negb s || t
  end.

Definition is_nan (a : float) : bool :=
  match a with FNaN => true | _ => false end.


(** The quotient of [a] by [d] rounded to the nearest integer, to the even
    one of the two when [a] is half-way. *)
Definition round_half_even (a d : Z) : Z :=
  let q := (a / d)%Z in
  let r := (a mod d)%Z in
  match (2 * r ?= d)%Z with
  | Lt => q
  | Gt => (q + 1)%Z
  | Eq => if Z.even q then q else (q + 1)%Z
  end.

(** [float(n)] for an [int]: the nearest number with 53 significant bits;
    [OverflowError] when that is beyond the largest float. *)
Definition float_of_int (n : Z) : option float :=
  let a := Z.abs n in
  let e := (Z.log2 a - 52)%Z in
  if (e <=? 0)%Z then Some (Fin (inject_Z n))
  else
    let r := (round_half_even a (2 ^ e) * 2 ^ e)%Z in
    if (2 ^ 1024 <=? r)%Z then None
    else Some (Fin (inject_Z (Z.sgn n * r))).

(** The library functions the scripts call and whose code lives outside the
    repository. *)
Record Lib : Type := {
  json_loads : string -> option json;      (* None: JSONDecodeError *)
  str_to_float : string -> option float;   (* float(s) for a str s *)
  str_to_int : string -> option Z;         (* int(s) for a str s *)
  relpath : string -> string -> string;    (* os.path.relpath *)
}.

(** The part of the file system that is read. *)
Record FS : Type := {
  path_exists : string -> bool;            (* os.path.exists *)
  read_text : string -> option string;     (* open(p).read(); None: it raises *)
  read_error : string -> exn;              (* what it raises then *)
}.

(** ** Truth value, [or], equality *)

Definition truthy (v : json) : bool :=
  match v with
  | JNull => false
  | JBool b => b
  | JNum q => negb (Qeq_bool q 0)
  | JStr s => negb (String.eqb s "")
  | JArr items => match items with [] => false | _ => true end
  | JObj members => match members with [] => false | _ => true end
  | JInf _ => true
  | JNaN => true
  end.

(** [v or d] *)
Definition py_or (v d : json) : json := if truthy v then v else d.

Definition is_none (v : json) : bool :=
  match v with JNull => true | _ => false end.

Definition is_dict (v : json) : bool :=
  match v with JObj _ => true | _ => false end.

Definition is_list (v : json) : bool :=
  match v with JArr _ => true | _ => false end.

Fixpoint assoc {A : Type} (k : string) (members : list (string * A)) : option A :=
  match members with
  | [] => None
  | (k', v) :: rest => if String.eqb k k' then Some v else assoc k rest
  end.

Definition bool_num (b : bool) : Q := if b then 1%Q else 0%Q.

(** [a is b] for two decoded values, where it matters: the decoder hands
    out one and the same object for every [NaN] it reads. *)
Definition same_nan (a b : json) : bool :=
  match a, b with
  | JNaN, JNaN => true
  | _, _ => false
  end.

(** [a == b] on decoded JSON: numbers compare by value, [True == 1], NaN
    equals nothing, lists element-wise, dicts member-wise whatever the
    order.  Inside a list or a dict two items are equal when they are the
    same object or compare equal. *)
Fixpoint py_eq (a b : json) {struct a} : bool :=
  match a, b with
  | JNull, JNull => true
  | JBool x, JBool y => Bool.eqb x y
  | JBool x, JNum q => Qeq_bool (bool_num x) q
  | JNum q, JBool y => Qeq_bool q (bool_num y)
  | JNum p, JNum q => Qeq_bool p q
  | JInf s, JInf t => Bool.eqb s t
  | JStr s, JStr t => String.eqb s t
  | JArr l, JArr m =>
      (fix items_eq (l m : list json) {struct l} : bool :=
         match l, m with
         | [], [] => true
         | x :: l', y :: m' => (same_nan x y || py_eq x y) && items_eq l' m'
         | _, _ => false
         end) l m
  | JObj f, JObj g =>
      Nat.eqb (List.length f) (List.length g) &&
      (fix members_eq (f : list (string * json)) {struct f} : bool :=
         match f with
         | [] => true
         | (k, v) :: f' =>
             match assoc k g with
             | Some w => same_nan v w || py_eq v w
             | None => false
             end && members_eq f'
         end) f
  | _, _ => false
  end.

(** ** [dict.get] *)

(** [d.get(k, dflt)]; an object that is not a dict has no [get]. *)
Definition dict_get (d : json) (k : string) (dflt : json) : result json :=
  match d with
  | JObj members =>
      Ok (match assoc k members with Some v => v | None => dflt end)
  | _ => Raise AttributeError
  end.

(** [d.get(k, {}) or {}] *)
Definition get_dict (d : json) (k : string) : result json :=
  v <- dict_get d k (JObj []) ;;
  Ok (py_or v (JObj [])).

(** ** [float(v)] and [int(v)] *)

Section Conversions.
Variable lib : Lib.

(** [int] of a float truncates towards zero. *)
Definition trunc (q : Q) : Z := Z.quot (Qnum q) (Zpos (Qden q)).

Definition is_integer (q : Q) : bool :=
  (Z.rem (Qnum q) (Zpos (Qden q)) =? 0)%Z.

(** [float(v)]: a float is returned as it is, an [int] is rounded. *)
Definition py_float (v : json) : result float :=
  match v with
  | JNum q =>
      if is_integer q then
        match float_of_int (trunc q) with
        | Some f => Ok f
        | None => Raise OverflowError
        end
      else Ok (Fin q)
  | JInf s => Ok (FInf s)
  | JNaN => Ok FNaN
  | JBool b => Ok (Fin (bool_num b))
  | JStr s =>
      match str_to_float lib s with
      | Some f => Ok f
      | None => Raise ValueError
      end
  | JNull | JArr _ | JObj _ => Raise TypeError
  end.

Definition py_int (v : json) : result Z :=
  match v with
  | JNum q => Ok (trunc q)
  | JInf _ => Raise OverflowError
  | JNaN => Raise ValueError
  | JBool b => Ok (if b then 1%Z else 0%Z)
  | JStr s =>
      match str_to_int lib s with
      | Some z => Ok z
      | None => Raise ValueError
      end
  | JNull | JArr _ | JObj _ => Raise TypeError
  end.

(** A float as a value of a record or of a document. *)
Definition json_of_float (f : float) : json :=
  match f with
  | Fin q => JNum q
  | FInf s => JInf s
  | FNaN => JNaN
  end.

End Conversions.

(** ** [str] methods *)

Definition code (c : ascii) : nat := nat_of_ascii c.

(** [c.isspace()] for a code point below 256. *)
Definition is_space (c : ascii) : bool :=
  let n := code c in
  ((9 <=? n) && (n <=? 13)) || ((28 <=? n) && (n <=? 32))
  || (n =? 133) || (n =? 160).

Definition is_digit (c : ascii) : bool :=
  let n := code c in (48 <=? n) && (n <=? 57).

Definition is_empty (s : string) : bool :=
  match s with EmptyString => true | _ => false end.

Fixpoint lstrip_by (p : ascii -> bool) (s : string) : string :=
  match s with
  | EmptyString => EmptyString
  | String c s' => if p c then lstrip_by p s' else s
  end.

Fixpoint rstrip_by (p : ascii -> bool) (s : string) : string :=
  match s with
  | EmptyString => EmptyString
  | String c s' =>
      let r := rstrip_by p s' in
      if is_empty r && p c then EmptyString else String c r
  end.

Definition lstrip (s : string) : string := lstrip_by is_space s.
Definition rstrip (s : string) : string := rstrip_by is_space s.
Definition strip (s : string) : string := rstrip (lstrip s).

(** [s.rstrip(",")] *)
Definition rstrip_comma (s : string) : string :=
  rstrip_by (fun c => Ascii.eqb c ","%char) s.

(** [s.startswith(p)] *)
Definition startswith (p s : string) : bool := String.prefix p s.

Definition snoc (s : string) (c : ascii) : string :=
  String.append s (String c EmptyString).

(** The characters at which [str.splitlines] breaks a line, a carriage
    return apart. *)
Definition is_line_end (c : ascii) : bool :=
  let n := code c in
  (n =? 10) || (n =? 11) || (n =? 12) || (n =? 28) || (n =? 29) || (n =? 30)
  || (n =? 133).

(** [cur] is the line being read. *)
Fixpoint splitlines_from (cur : string) (s : string) : list string :=
  match s with
  | EmptyString => if is_empty cur then [] else [cur]
  | String c s' =>
      if code c =? 13 then
        match s' with
        | String c' s'' =>
            if code c' =? 10 then cur :: splitlines_from EmptyString s''
            else cur :: splitlines_from EmptyString s'
        | EmptyString => [cur]
        end
      else if is_line_end c then cur :: splitlines_from EmptyString s'
      else splitlines_from (snoc cur c) s'
  end.

(** [s.splitlines()] *)
Definition splitlines (s : string) : list string :=
  splitlines_from EmptyString s.

(** [s.split("/")] *)
Fixpoint split_slash_from (cur : string) (s : string) : list string :=
  match s with
  | EmptyString => [cur]
  | String c s' =>
      if Ascii.eqb c "/"%char then cur :: split_slash_from EmptyString s'
      else split_slash_from (snoc cur c) s'
  end.

Definition split_slash (s : string) : list string :=
  split_slash_from EmptyString s.

(** ** [os.path] on POSIX *)

(** The index just after the last ["/"], that is [p.rfind("/") + 1]. *)
Fixpoint after_last_slash (s : string) : nat :=
  match s with
  | EmptyString => 0
  | String c s' =>
      let r := after_last_slash s' in
      if 0 <? r then S r
      else if Ascii.eqb c "/"%char then 1 else 0
  end.

Definition all_slashes (s : string) : bool :=
  is_empty (lstrip_by (fun c => Ascii.eqb c "/"%char) s).

Definition dirname (p : string) : string :=
  let head := String.substring 0 (after_last_slash p) p in
  if negb (is_empty head) && negb (all_slashes head)
  then rstrip_by (fun c => Ascii.eqb c "/"%char) head
  else head.

Definition basename (p : string) : string :=
  let i := after_last_slash p in
  String.substring i (String.length p - i) p.

Fixpoint last_char (s : string) : option ascii :=
  match s with
  | EmptyString => None
  | String c EmptyString => Some c
  | String _ s' => last_char s'
  end.

(** [os.path.join(a, b)] *)
Definition path_join (a b : string) : string :=
  if startswith "/" b then b
  else if is_empty a then b
  else match last_char a with
       | Some "/"%char => String.append a b
       | _ => String.append a (String "/"%char b)
       end.

(** [os.path.join(a, *rest)] *)
Definition path_join_all (a : string) (rest : list string) : string :=
  fold_left path_join rest a.

(** [os.path.relpath(path, start)] with its one check on the arguments: an
    empty [path] raises ValueError ("no path specified"). *)
Definition relpath_of (lib : Lib) (path start : string) : result string :=
  if is_empty path then Raise ValueError else Ok (relpath lib path start).

(** ** [glob] and [os.path.isdir] *)

(** What the directory tree answers to the scripts. *)
Record Dir : Type := {
  glob : string -> list string;            (* glob.glob(pattern) *)
  rglob : string -> list string;           (* glob.glob(pattern, recursive=True) *)
  isdir : string -> bool;                  (* os.path.isdir *)
}.

(** ** [f.readlines()] *)

(** The lines of a text, each with the newline that ends it.  The text is
    what [f.read()] returns in text mode, where every line end has become a
    newline; [cur] is the line being read. *)
Fixpoint readlines_from (cur : string) (s : string) : list string :=
  match s with
  | EmptyString => if is_empty cur then [] else [cur]
  | String c s' =>
      if code c =? 10 then snoc cur c :: readlines_from EmptyString s'
      else readlines_from (snoc cur c) s'
  end.

Definition readlines (s : string) : list string :=
  readlines_from EmptyString s.

End Py.

(* ------------------------------------------------------------------ *)
(** * [numpy.percentile] *)

Module Np.
Import Py.

Fixpoint insert (x : float) (l : list float) : list float :=
  match l with
  | [] => [x]
  | y :: l' => if fle x y then x :: l else y :: insert x l'
  end.

Fixpoint sort (l : list float) : list float :=
  match l with
  | [] => []
  | x :: l' => insert x (sort l')
  end.

(** The interpolation between the neighbours [a] and [b] at the fraction
    [t]: [a + (b - a) * t], and [b - (b - a) * (1 - t)] where [t >= 0.5]. *)
Definition lerp (a b : float) (t : Q) : float :=
  let diff_b_a := fsub b a in
  if Qle_bool (1 # 2) t then fsub b (fmul diff_b_a (Fin (1 - t)))
  else fadd a (fmul diff_b_a (Fin t)).

(** [np.percentile(xs, p)] with the default linear interpolation: the
    virtual index [(n - 1) * p / 100] falls between two neighbours of the
    sorted samples.  A NaN among the samples makes the result NaN. *)
Definition percentile (xs : list float) (p : Q) : float :=
  if existsb is_nan xs then FNaN
  else
    let s := sort xs in
    let n := Z.of_nat (List.length s) in
    let h := (inject_Z (n - 1) * p / 100)%Q in
    let lo := Qfloor h in
    let hi := Z.min (lo + 1) (n - 1) in
    let gamma := (h - inject_Z lo)%Q in
    let a := nth (Z.to_nat lo) s (Fin 0) in
    let b := nth (Z.to_nat hi) s (Fin 0) in
    lerp a b gamma.

End Np.

(* ------------------------------------------------------------------ *)
(** * The pandas operations the scripts use *)

Module Pandas.

(** A float64 cell.  [NaN] also stands for a missing value ([None],
    [pd.NA]). *)
Inductive cell : Type :=
| Num (q : Q)
| NaN
| Inf (positive : bool).

Definition of_Z (z : Z) : cell := Num (inject_Z z).

Definition isna (c : cell) : bool :=
  match c with NaN => true | _ => false end.

Definition notna (c : cell) : bool := negb (isna c).

Definition isinf (c : cell) : bool :=
  match c with Inf _ => true | _ => false end.

(** IEEE 754 arithmetic on the special values, exact on the finite ones. *)
Definition add (a b : cell) : cell :=
  match a, b with
  | NaN, _ | _, NaN => NaN
  | Inf s, Inf t => if Bool.eqb s t then Inf s else NaN
  | Inf s, Num _ | Num _, Inf s => Inf s
  | Num p, Num q => Num (p + q)
  end.

Definition neg (a : cell) : cell :=
  match a with
  | Num p => Num (- p)
  | NaN => NaN
  | Inf s => Inf (negb s)
  end.

Definition sub (a b : cell) : cell := add a (neg b).

Definition scaled_inf (s : bool) (q : Q) : cell :=
  match (q ?= 0)%Q with
  | Eq => NaN
  | Gt => Inf s
  | Lt => Inf (negb s)
  end.

Definition mul (a b : cell) : cell :=
  match a, b with
  | NaN, _ | _, NaN => NaN
  | Inf s, Inf t => Inf (Bool.eqb s t)
  | Inf s, Num q | Num q, Inf s => scaled_inf s q
  | Num p, Num q => Num (p * q)
  end.

Definition div (a b : cell) : cell :=
  match a, b with
  | NaN, _ | _, NaN => NaN
  | Inf _, Inf _ => NaN
  | Inf s, Num q =>
      match (q ?= 0)%Q with Lt => Inf (negb s) | _ => Inf s end
  | Num _, Inf _ => Num 0
  | Num p, Num q =>
      if Qeq_bool q 0 then
        match (p ?= 0)%Q with
        | Eq => NaN
        | Gt => Inf true
        | Lt => Inf false
        end
      else Num (p / q)
  end.

(** [s.replace([np.inf, -np.inf], np.nan)] on one cell. *)
Definition replace_inf (c : cell) : cell :=
  if isinf c then NaN else c.

(** [np.where(pd.notna(a), a, b)] and [a.fillna(b)] on one cell. *)
Definition fillna (a b : cell) : cell := if isna a then b else a.

(** [a == b] on cells; NaN equals nothing. *)
Definition cell_eqb (a b : cell) : bool :=
  match a, b with
  | Num p, Num q => Qeq_bool p q
  | Inf s, Inf t => Bool.eqb s t
  | _, _ => false
  end.

(** The order of the values that are not NaN. *)
Definition cell_compare (a b : cell) : comparison :=
  match a, b with
  | Num p, Num q => (p ?= q)%Q
  | Inf s, Inf t =>
      if Bool.eqb s t then Eq else if s then Gt else Lt
  | Inf s, _ => if s then Gt else Lt
  | _, Inf t => if t then Lt else Gt
  | _, _ => Eq
  end.

(** The order [sort_values] uses on one key column: NaN comes last whatever
    the direction. *)
Definition key_compare (ascending : bool) (a b : cell) : comparison :=
  match isna a, isna b with
  | true, true => Eq
  | true, false => Gt
  | false, true => Lt
  | false, false => if ascending then cell_compare a b else cell_compare b a
  end.

(** Lexicographic combination of two key comparisons. *)
Definition lex (c1 c2 : comparison) : comparison :=
  match c1 with Eq => c2 | _ => c1 end.

Definition not_after (c : comparison) : bool :=
  match c with Gt => false | _ => true end.

(** ** Reductions; NaN cells are skipped *)

Definition valid (l : list cell) : list cell := filter notna l.

Definition total (l : list cell) : cell := fold_left add l (Num 0).

(** [.sum()] *)
Definition sum (l : list cell) : cell := total (valid l).

(** [.sum(min_count=1)] *)
Definition sum_min1 (l : list cell) : cell :=
  match valid l with
  | [] => NaN
  | v => total v
  end.

(** [.mean()] *)
Definition mean (l : list cell) : cell :=
  match valid l with
  | [] => NaN
  | v => div (total v) (of_Z (Z.of_nat (List.length v)))
  end.

(** [.sum()] of an integer column. *)
Definition sumZ (l : list Z) : Z := fold_left Z.add l 0%Z.

(** ** Sorting and grouping *)

Section Generic.
Variables R K : Type.

Fixpoint insert_by (leb : R -> R -> bool) (x : R) (l : list R) : list R :=
  match l with
  | [] => [x]
  | y :: l' => if leb x y then x :: l else y :: insert_by leb x l'
  end.

(** A stable sort: of two rows that compare equal, the first stays first. *)
Fixpoint sort_by (leb : R -> R -> bool) (l : list R) : list R :=
  match l with
  | [] => []
  | x :: l' => insert_by leb x (sort_by leb l')
  end.

(** The distinct values of a list, in order of first appearance. *)
Fixpoint unique (eqb : K -> K -> bool) (l : list K) : list K :=
  match l with
  | [] => []
  | k :: l' => k :: filter (fun k' => negb (eqb k k')) (unique eqb l')
  end.

(** The keys of the rows that have one ([dropna=True]). *)
Fixpoint present_keys (key : R -> option K) (rows : list R) : list K :=
  match rows with
  | [] => []
  | r :: rows' =>
      match key r with
      | Some k => k :: present_keys key rows'
      | None => present_keys key rows'
      end
  end.

Definition in_group (key : R -> option K) (eqb : K -> K -> bool) (k : K) (r : R)
  : bool :=
  match key r with
  | Some k' => eqb k' k
  | None => false
  end.

End Generic.

(** [rows.groupby(key)]: the groups in increasing key order, each with its
    rows in frame order; a row whose key is missing is in no group. *)
Definition groupby {R K : Type} (key : R -> option K)
  (eqb leb : K -> K -> bool) (rows : list R) : list (K * list R) :=
  map (fun k => (k, filter (in_group key eqb k) rows))
      (sort_by leb (unique eqb (present_keys key rows))).

(** A Series indexed by labels. *)
Definition series (A : Type) : Type := list (string * A).

Definition values {A : Type} (s : series A) : list A := map snd s.

(** [a op b] on two Series: the cells are paired by label. *)
Definition zip_with {A B C : Type} (op : A -> option B -> C)
  (a : series A) (b : series B) : series C :=
  map (fun kx => (fst kx, op (snd kx) (Py.assoc (fst kx) b))) a.

Definition at_label (o : option cell) : cell :=
  match o with Some c => c | None => NaN end.

Definition at_labelZ (o : option Z) : cell :=
  match o with Some z => of_Z z | None => NaN end.

End Pandas.

(* ------------------------------------------------------------------ *)
(** * [analyze.py]: reading the stage files *)

Module Analyze.
Import Py.

Local Open Scope string_scope.

(** ** [_read_per_request_stats] *)

(** The dictionary [stats] that is returned. *)
Record pr_stats : Type := {
  input_tokens_total : Z;
  output_tokens_total : Z;
  ttft_p50_s_computed : option float;
  ttft_p90_s_computed : option float;
  itl_p50_s_computed : option float;
  itl_p90_s_computed : option float;
}.

(** What the request loop mutates: the two totals of [stats] and the two
    sample lists. *)
Record loop_state : Type := {
  in_total : Z;
  out_total : Z;
  ttft_samples : list float;
  itl_samples : list float;
}.

Definition init_state : loop_state :=
  {| in_total := 0; out_total := 0; ttft_samples := []; itl_samples := [] |}.

(** A statement of the loop: it may update the state and it may raise; the
    updates made before an exception stay. *)
Definition St (A : Type) : Type := loop_state -> loop_state * result A.

Definition ret {A : Type} (a : A) : St A := fun s => (s, Ok a).

Definition lift {A : Type} (r : result A) : St A := fun s => (s, r).

Definition bindS {A B : Type} (c : St A) (k : A -> St B) : St B :=
  fun s =>
    match c s with
    | (s', Ok a) => k a s'
    | (s', Raise e) => (s', Raise e)
    end.

Definition modify (f : loop_state -> loop_state) : St unit :=
  fun s => (f s, Ok tt).

Notation "x <~ c ;; k" := (bindS c (fun x => k))
  (at level 61, c at next level, right associativity).
Notation "c ;;; k" := (bindS c (fun _ => k))
  (at level 61, right associativity).

Definition add_input (n : Z) : St unit :=
  modify (fun s => {| in_total := in_total s + n; out_total := out_total s;
                      ttft_samples := ttft_samples s;
                      itl_samples := itl_samples s |}).

Definition add_output (n : Z) : St unit :=
  modify (fun s => {| in_total := in_total s; out_total := out_total s + n;
                      ttft_samples := ttft_samples s;
                      itl_samples := itl_samples s |}).

Definition append_ttft (x : float) : St unit :=
  modify (fun s => {| in_total := in_total s; out_total := out_total s;
                      ttft_samples := ttft_samples s ++ [x];
                      itl_samples := itl_samples s |}).

Definition append_itl (x : float) : St unit :=
  modify (fun s => {| in_total := in_total s; out_total := out_total s;
                      ttft_samples := ttft_samples s;
                      itl_samples := itl_samples s ++ [x] |}).

(** [for x in xs: body(x)] *)
Fixpoint for_each {A : Type} (body : A -> St unit) (xs : list A) : St unit :=
  match xs with
  | [] => ret tt
  | x :: xs' => body x ;;; for_each body xs'
  end.

(** [l[::2]] *)
Fixpoint every_other {A : Type} (l : list A) : list A :=
  match l with
  | [] => []
  | x :: rest =>
      x :: match rest with
           | [] => []
           | _ :: rest' => every_other rest'
           end
  end.

Section Reading.
Variable lib : Lib.
Variable fs : FS.

(** The fallback loop of [_iter_requests]: one JSON document per line. *)
Fixpoint ndjson_scan (lines : list string) : list json :=
  match lines with
  | [] => []
  | raw :: rest =>
      let line := rstrip_comma (strip raw) in
      if is_empty line || String.eqb line "[" || String.eqb line "]"
      then ndjson_scan rest
      else match json_loads lib line with
           | Some obj => obj :: ndjson_scan rest
           | None => ndjson_scan rest
           end
  end.

(** The objects the generator yields, in order. *)
Definition _iter_requests (text : string) : list json :=
  if is_empty text then []
  else if startswith "[" (lstrip text) then
    match json_loads lib text with
    | Some (JArr items) => items
    | Some _ => []
    | None => ndjson_scan (splitlines text)
    end
  else ndjson_scan (splitlines text).

(** The token start times: [times[::2]] when the first two entries are
    equal. *)
Definition token_starts_of (tok_times : list json) : list json :=
  match tok_times with
  | t0 :: t1 :: _ => if py_eq t0 t1 then every_other tok_times else tok_times
  | _ => tok_times
  end.

(** [for i in range(1, len(ts))], with [prev = ts[i - 1]]. *)
Fixpoint itl_loop (prev : json) (rest : list json) : St unit :=
  match rest with
  | [] => ret tt
  | cur :: rest' =>
      c <~ lift (py_float lib cur) ;;
      p <~ lift (py_float lib prev) ;;
      let d := fsub c p in
      (if ge0 d then append_itl d else ret tt) ;;;
      itl_loop cur rest'
  end.

(** The body of [for obj in _iter_requests(text)]. *)
Definition handle_request (obj : json) : St unit :=
  if negb (is_dict obj) then ret tt else
  err <~ lift (dict_get obj "error" JNull) ;;
  if negb (is_none err) then ret tt else
  info <~ lift (get_dict obj "info") ;;
  tin <~ lift (dict_get info "input_tokens" (JNum 0)) ;;
  nin <~ lift (py_int lib (py_or tin (JNum 0))) ;;
  add_input nin ;;;
  tout <~ lift (dict_get info "output_tokens" (JNum 0)) ;;
  nout <~ lift (py_int lib (py_or tout (JNum 0))) ;;
  add_output nout ;;;
  start_time <~ lift (dict_get obj "start_time" JNull) ;;
  tt0 <~ lift (dict_get info "output_token_times" (JArr [])) ;;
  match py_or tt0 (JArr []) with
  | JArr [] => ret tt
  | JArr tok_times =>
      let token_starts := token_starts_of tok_times in
      match token_starts with
      | [] => ret tt
      | first :: others =>
          (if negb (is_none start_time) then
             a <~ lift (py_float lib first) ;;
             b <~ lift (py_float lib start_time) ;;
             let ttft := fsub a b in
             if ge0 ttft then append_ttft ttft else ret tt
           else ret tt) ;;;
          itl_loop first others
      end
  | _ => ret tt
  end.

Definition default_stats : pr_stats :=
  {| input_tokens_total := 0; output_tokens_total := 0;
     ttft_p50_s_computed := None; ttft_p90_s_computed := None;
     itl_p50_s_computed := None; itl_p90_s_computed := None |}.

(** [np.percentile(samples, p)] when there are samples. *)
Definition computed (samples : list float) (p : Q) : option float :=
  match samples with
  | [] => None
  | _ => Some (Np.percentile samples p)
  end.

Definition stats_of_state (s : loop_state) : pr_stats :=
  {| input_tokens_total := in_total s;
     output_tokens_total := out_total s;
     ttft_p50_s_computed := computed (ttft_samples s) 50;
     ttft_p90_s_computed := computed (ttft_samples s) 90;
     itl_p50_s_computed := computed (itl_samples s) 50;
     itl_p90_s_computed := computed (itl_samples s) 90 |}.

(** The [try] block: an exception, from reading the file or from a request,
    ends the loop and is swallowed. *)
Definition scan_requests (path : string) : loop_state :=
  match read_text fs path with
  | None => init_state
  | Some text => fst (for_each handle_request (_iter_requests text) init_state)
  end.

Definition _read_per_request_stats (stage_dir : string) : pr_stats :=
  let path := path_join stage_dir "per_request_lifecycle_metrics.json" in
  if negb (path_exists fs path) then default_stats
  else stats_of_state (scan_requests path).

End Reading.

(** ** [parse_stage_file] *)

(** The dictionary [parse_stage_file] returns.  A value copied from the
    stage document stays a JSON value; [None] is [JNull]. *)
Record stage_record : Type := {
  experiment : string;
  stage_index : option Z;
  requested_qps : json;
  send_duration_s : json;
  achieved_rps_json : json;
  input_toks_per_sec_json : json;
  output_toks_per_sec_json : json;
  total_toks_per_sec_json : json;
  ttft_mean_s : json;
  ttft_p50_s : json;
  ttft_p90_s : json;
  itl_mean_s : json;
  itl_p50_s : json;
  itl_p90_s : json;
  request_latency_p50_s : json;
  successes : Z;
  failures : Z;
  success_rate : option Q;
  rec_input_tokens_total : Z;
  rec_output_tokens_total : Z;
  source_path : string;
}.

Fixpoint take_digits (s : string) : string :=
  match s with
  | EmptyString => EmptyString
  | String c s' => if is_digit c then String c (take_digits s') else EmptyString
  end.

Definition drop (n : nat) (s : string) : string :=
  String.substring n (String.length s - n) s.

(** [int(s)] for a string of decimal digits. *)
Fixpoint int_of_digits (acc : Z) (s : string) : Z :=
  match s with
  | EmptyString => acc
  | String c s' => int_of_digits (10 * acc + Z.of_nat (code c - 48)) s'
  end.

(** [re.match(r"stage_(\d+)_lifecycle_metrics\.json", name)] and the
    integer value of its group. *)
Definition stage_index_of (name : string) : option Z :=
  if startswith "stage_" name then
    let rest := drop 6 name in
    let digits := take_digits rest in
    if negb (is_empty digits)
       && startswith "_lifecycle_metrics.json" (drop (String.length digits) rest)
    then Some (int_of_digits 0 digits)
    else None
  else None.

(** [successes / total if total else None] *)
Definition success_rate_of (successes total : Z) : option Q :=
  if Z.eqb total 0 then None
  else Some (inject_Z successes / inject_Z total)%Q.

Section Stage.
Variable lib : Lib.
Variable fs : FS.

(** First segment under [base_dir] becomes the experiment label.  The
    files that are labelled are found below a root directory: the
    directory part of [path] is taken not to be empty, where
    [os.path.relpath] answers. *)
Definition top_level_label (base_dir path : string) : string :=
  let rel := relpath lib (dirname path) base_dir in
  let parts :=
    filter (fun p => negb (is_empty p) && negb (String.eqb p "."))
           (split_slash rel) in
  match parts with
  | p :: _ => p
  | [] =>
      let b := basename (dirname path) in
      if is_empty b then "root" else b
  end.

(** [json.load(f)] on the file at [path]. *)
Definition json_load (path : string) : result json :=
  match read_text fs path with
  | None => Raise (read_error fs path)
  | Some text =>
      match json_loads lib text with
      | Some data => Ok data
      | None => Raise JSONDecodeError
      end
  end.

(** [v is None or float(v) == 0.0] *)
Definition bogus (v : json) : result bool :=
  if is_none v then Ok true
  else f <- py_float lib v ;; Ok (is_zero f).

(** The replacement of a bogus or missing percentile:
    [if (v is None or float(v) == 0.0) and c is not None: v = c]. *)
Definition with_fallback (v : json) (c : option float) : result json :=
  b <- bogus v ;;
  Ok (if b then match c with Some x => json_of_float x | None => v end
      else v).

Definition parse_stage_file (base_dir path : string) : result stage_record :=
  data <- json_load path ;;
  let experiment := top_level_label base_dir path in
  let stage_index := stage_index_of (basename path) in
  load <- get_dict data "load_summary" ;;
  succ <- get_dict data "successes" ;;
  fails <- get_dict data "failures" ;;
  lat <- get_dict succ "latency" ;;
  ttf <- get_dict lat "time_to_first_token" ;;
  itl <- get_dict lat "inter_token_latency" ;;
  reqL <- get_dict lat "request_latency" ;;
  thr <- get_dict succ "throughput" ;;
  itps_json <- dict_get thr "input_tokens_per_sec" JNull ;;
  otps_json <- dict_get thr "output_tokens_per_sec" JNull ;;
  ttps_json <- dict_get thr "total_tokens_per_sec" JNull ;;
  sc <- dict_get succ "count" (JNum 0) ;;
  successes <- py_int lib (py_or sc (JNum 0)) ;;
  fc <- dict_get fails "count" (JNum 0) ;;
  failures <- py_int lib (py_or fc (JNum 0)) ;;
  let total := (successes + failures)%Z in
  let success_rate := success_rate_of successes total in
  let stage_dir := dirname path in
  let pr := _read_per_request_stats lib fs stage_dir in
  ttft_p50_f <- dict_get ttf "p50" JNull ;;
  ttft_p90_f <- dict_get ttf "p90" JNull ;;
  itl_p50_f <- dict_get itl "p50" JNull ;;
  itl_p90_f <- dict_get itl "p90" JNull ;;
  itl_p50_f <- with_fallback itl_p50_f (itl_p50_s_computed pr) ;;
  itl_p90_f <- with_fallback itl_p90_f (itl_p90_s_computed pr) ;;
  ttft_p50_f <- with_fallback ttft_p50_f (ttft_p50_s_computed pr) ;;
  ttft_p90_f <- with_fallback ttft_p90_f (ttft_p90_s_computed pr) ;;
  rq <- dict_get load "requested_rate" JNull ;;
  sd <- dict_get load "send_duration" JNull ;;
  rps <- dict_get thr "requests_per_sec" JNull ;;
  ttft_mean <- dict_get ttf "mean" JNull ;;
  itl_mean <- dict_get itl "mean" JNull ;;
  rl50 <- dict_get reqL "p50" JNull ;;
  Ok {| experiment := experiment;
        stage_index := stage_index;
        requested_qps := rq;
        send_duration_s := sd;
        achieved_rps_json := rps;
        input_toks_per_sec_json := itps_json;
        output_toks_per_sec_json := otps_json;
        total_toks_per_sec_json := ttps_json;
        ttft_mean_s := ttft_mean;
        ttft_p50_s := ttft_p50_f;
        ttft_p90_s := ttft_p90_f;
        itl_mean_s := itl_mean;
        itl_p50_s := itl_p50_f;
        itl_p90_s := itl_p90_f;
        request_latency_p50_s := rl50;
        successes := successes;
        failures := failures;
        success_rate := success_rate;
        rec_input_tokens_total := input_tokens_total pr;
        rec_output_tokens_total := output_tokens_total pr;
        source_path := path |}.

(** The rows [build_stage_df] hands to [pd.DataFrame]: the list
    comprehension over the discovered files, [files] being what
    [find_stage_files] returns. *)
Definition stage_rows (base_dir : string) (files : list string)
  : result (list stage_record) :=
  mapM (parse_stage_file base_dir) files.

End Stage.

(** ** Data frames *)

Import Pandas.

(** A row of the stage table ([pd.DataFrame(rows)]). *)
Module StageDf.
Record row : Type := {
  experiment : string;
  stage_index : cell;
  requested_qps : cell;
  send_duration_s : cell;
  achieved_rps_json : cell;
  input_toks_per_sec_json : cell;
  output_toks_per_sec_json : cell;
  total_toks_per_sec_json : cell;
  ttft_mean_s : cell;
  ttft_p50_s : cell;
  ttft_p90_s : cell;
  itl_mean_s : cell;
  itl_p50_s : cell;
  itl_p90_s : cell;
  request_latency_p50_s : cell;
  successes : Z;
  failures : Z;
  success_rate : cell;
  input_tokens_total : Z;
  output_tokens_total : Z;
  source_path : string;
}.
End StageDf.

(** A row of the table [aggregate_per_qps] returns. *)
Module Agg.
Record row : Type := {
  experiment : string;
  requested_qps : cell;
  successes : Z;
  failures : Z;
  duration_s : cell;
  achieved_rps_json : cell;
  ttft_mean_s : cell;
  itl_mean_s : cell;
  ttft_p50_s : cell;
  ttft_p90_s : cell;
  itl_p50_s : cell;
  itl_p90_s : cell;
  input_tokens_total : Z;
  output_tokens_total : Z;
  input_toks_per_sec_json : cell;
  output_toks_per_sec_json : cell;
  total_toks_per_sec_json : cell;
  total_completed : Z;
  success_rate : cell;
  completed_rps_total : cell;
  completed_rps_successes : cell;
  completed_rps : cell;
  output_toks_per_sec : cell;
  input_toks_per_sec : cell;
  total_toks_per_sec : cell;
  input_toks_per_sec_plot : cell;
  output_toks_per_sec_plot : cell;
  total_toks_per_sec_plot : cell;
  norm_time_per_output_token_s : cell;
}.
End Agg.

(** A row of the per-experiment summary. *)
Module Summary.
Record row : Type := {
  experiment : string;
  qps_points : nat;
  successes : Z;
  failures : Z;
  duration_s : cell;
  completed_rps_overall : cell;
  output_tokens_total : Z;
  input_tokens_total : Z;
  output_toks_per_sec_overall : cell;
  input_toks_per_sec_overall : cell;
  ttft_mean_s_overall : cell;
  itl_mean_s_overall : cell;
  ttft_p50_s_overall : cell;
  ttft_p90_s_overall : cell;
  itl_p50_s_overall : cell;
  itl_p90_s_overall : cell;
  success_rate_overall : cell;
  ttft_delta_vs_baseline_pct_overall : cell;
}.
End Summary.

(** ** [build_stage_df] *)

(** [pd.DataFrame(rows)] turns a column of numbers and [None] into a
    float64 column, [None] becoming NaN.  A column that holds anything else,
    or nothing but [None], gets the object dtype; the aggregation of such a
    column is outside this model. *)
Definition is_number (v : json) : bool :=
  match v with
  | JNum _ => true
  | JInf _ => true
  | JNaN => true
  | _ => false
  end.

Definition float_column (col : stage_record -> json) (rows : list stage_record)
  : bool :=
  forallb (fun r => is_number (col r) || is_none (col r)) rows
  && existsb (fun r => is_number (col r)) rows.

Definition cell_of_json (v : json) : cell :=
  match v with
  | JNum q => Num q
  | JInf s => Inf s
  | _ => NaN
  end.

Definition cell_of_opt {A : Type} (f : A -> cell) (o : option A) : cell :=
  match o with Some a => f a | None => NaN end.

(** The columns that [aggregate_per_qps] groups by or reduces. *)
Definition AGGREGATED : list (stage_record -> json) :=
  [ requested_qps; send_duration_s; achieved_rps_json;
    input_toks_per_sec_json; output_toks_per_sec_json; total_toks_per_sec_json;
    ttft_mean_s; ttft_p50_s; ttft_p90_s; itl_mean_s; itl_p50_s; itl_p90_s ].

Definition frame_row (r : stage_record) : StageDf.row :=
  {| StageDf.experiment := experiment r;
     StageDf.stage_index := cell_of_opt of_Z (stage_index r);
     StageDf.requested_qps := cell_of_json (requested_qps r);
     StageDf.send_duration_s := cell_of_json (send_duration_s r);
     StageDf.achieved_rps_json := cell_of_json (achieved_rps_json r);
     StageDf.input_toks_per_sec_json := cell_of_json (input_toks_per_sec_json r);
     StageDf.output_toks_per_sec_json := cell_of_json (output_toks_per_sec_json r);
     StageDf.total_toks_per_sec_json := cell_of_json (total_toks_per_sec_json r);
     StageDf.ttft_mean_s := cell_of_json (ttft_mean_s r);
     StageDf.ttft_p50_s := cell_of_json (ttft_p50_s r);
     StageDf.ttft_p90_s := cell_of_json (ttft_p90_s r);
     StageDf.itl_mean_s := cell_of_json (itl_mean_s r);
     StageDf.itl_p50_s := cell_of_json (itl_p50_s r);
     StageDf.itl_p90_s := cell_of_json (itl_p90_s r);
     StageDf.request_latency_p50_s := cell_of_json (request_latency_p50_s r);
     StageDf.successes := successes r;
     StageDf.failures := failures r;
     StageDf.success_rate := cell_of_opt Num (success_rate r);
     StageDf.input_tokens_total := rec_input_tokens_total r;
     StageDf.output_tokens_total := rec_output_tokens_total r;
     StageDf.source_path := source_path r |}.

(** The stage table, when its aggregated columns are float columns. *)
Definition frame_of (rows : list stage_record) : option (list StageDf.row) :=
  match rows with
  | [] => Some []
  | _ =>
      if forallb (fun col => float_column col rows) AGGREGATED
      then Some (map frame_row rows)
      else None
  end.

(** [by=["experiment", "requested_qps", "stage_index"]] *)
Definition stage_order (a b : StageDf.row) : bool :=
  not_after
    (lex (String.compare (StageDf.experiment a) (StageDf.experiment b))
       (lex (key_compare true (StageDf.requested_qps a) (StageDf.requested_qps b))
            (key_compare true (StageDf.stage_index a) (StageDf.stage_index b)))).

(** [build_stage_df], given the files [find_stage_files] discovered.  The
    inner [None] marks a table with an aggregated column of object dtype. *)
Definition build_stage_df (lib : Lib) (fs : FS) (base_dir : string)
  (files : list string) : result (option (list StageDf.row)) :=
  rows <- stage_rows lib fs base_dir files ;;
  Ok (match frame_of rows with
      | Some df => Some (sort_by stage_order df)
      | None => None
      end).

(** ** [aggregate_per_qps] *)

(** [c.lower()] for a code point below 256. *)
Definition lower_char (c : ascii) : ascii :=
  let n := code c in
  if (((65 <=? n) && (n <=? 90))
      || ((192 <=? n) && (n <=? 222) && negb (n =? 215)))%nat
  then ascii_of_nat (n + 32) else c.

Fixpoint lower (s : string) : string :=
  match s with
  | EmptyString => EmptyString
  | String c s' => String (lower_char c) (lower s')
  end.

Definition qps_key : Type := string * cell.

(** The group key of a stage row; none when [requested_qps] is missing. *)
Definition stage_key (r : StageDf.row) : option qps_key :=
  if isna (StageDf.requested_qps r) then None
  else Some (StageDf.experiment r, StageDf.requested_qps r).

Definition key_eqb (a b : qps_key) : bool :=
  String.eqb (fst a) (fst b) && cell_eqb (snd a) (snd b).

Definition key_leb (a b : qps_key) : bool :=
  not_after (lex (String.compare (fst a) (fst b))
                 (cell_compare (snd a) (snd b))).

(** The row built from one group: the named aggregations of [.agg], then
    the derived columns. *)
Definition agg_row_of (mode : string) (k : qps_key) (g : list StageDf.row)
  : Agg.row :=
  let successes := sumZ (map StageDf.successes g) in
  let failures := sumZ (map StageDf.failures g) in
  let duration_s := sum (map StageDf.send_duration_s g) in
  let achieved_rps_json := mean (map StageDf.achieved_rps_json g) in
  let input_tokens_total := sumZ (map StageDf.input_tokens_total g) in
  let output_tokens_total := sumZ (map StageDf.output_tokens_total g) in
  let input_toks_per_sec_json := mean (map StageDf.input_toks_per_sec_json g) in
  let output_toks_per_sec_json := mean (map StageDf.output_toks_per_sec_json g) in
  let total_toks_per_sec_json := mean (map StageDf.total_toks_per_sec_json g) in
  let total_completed := (successes + failures)%Z in
  let completed_rps_total := div (of_Z total_completed) duration_s in
  let completed_rps_successes := div (of_Z successes) duration_s in
  let output_toks_per_sec := div (of_Z output_tokens_total) duration_s in
  let input_toks_per_sec := div (of_Z input_tokens_total) duration_s in
  let total_toks_per_sec := add output_toks_per_sec input_toks_per_sec in
  {| Agg.experiment := fst k;
     Agg.requested_qps := snd k;
     Agg.successes := successes;
     Agg.failures := failures;
     Agg.duration_s := duration_s;
     Agg.achieved_rps_json := achieved_rps_json;
     Agg.ttft_mean_s := mean (map StageDf.ttft_mean_s g);
     Agg.itl_mean_s := mean (map StageDf.itl_mean_s g);
     Agg.ttft_p50_s := mean (map StageDf.ttft_p50_s g);
     Agg.ttft_p90_s := mean (map StageDf.ttft_p90_s g);
     Agg.itl_p50_s := mean (map StageDf.itl_p50_s g);
     Agg.itl_p90_s := mean (map StageDf.itl_p90_s g);
     Agg.input_tokens_total := input_tokens_total;
     Agg.output_tokens_total := output_tokens_total;
     Agg.input_toks_per_sec_json := input_toks_per_sec_json;
     Agg.output_toks_per_sec_json := output_toks_per_sec_json;
     Agg.total_toks_per_sec_json := total_toks_per_sec_json;
     Agg.total_completed := total_completed;
     Agg.success_rate := div (of_Z successes) (of_Z total_completed);
     Agg.completed_rps_total := completed_rps_total;
     Agg.completed_rps_successes := completed_rps_successes;
     Agg.completed_rps :=
       if String.eqb mode "successes" then completed_rps_successes
       else if String.eqb mode "json" then achieved_rps_json
       else completed_rps_total;
     Agg.output_toks_per_sec := output_toks_per_sec;
     Agg.input_toks_per_sec := input_toks_per_sec;
     Agg.total_toks_per_sec := total_toks_per_sec;
     Agg.input_toks_per_sec_plot :=
       fillna (replace_inf input_toks_per_sec_json) input_toks_per_sec;
     Agg.output_toks_per_sec_plot :=
       fillna (replace_inf output_toks_per_sec_json) output_toks_per_sec;
     Agg.total_toks_per_sec_plot :=
       fillna (replace_inf total_toks_per_sec_json) total_toks_per_sec;
     Agg.norm_time_per_output_token_s :=
       if (0 <? output_tokens_total)%Z
       then div duration_s (of_Z output_tokens_total)
       else NaN |}.

(** Aggregate across all stage files with the same (experiment,
    requested_qps). *)
Definition aggregate_per_qps (df : list StageDf.row) (served_mode : string)
  (cap_served : bool) : list Agg.row :=
  match df with
  | [] => []
  | _ =>
      let mode := lower (if is_empty served_mode then "total" else served_mode) in
      map (fun kg => agg_row_of mode (fst kg) (snd kg))
          (groupby stage_key key_eqb key_leb df)
  end.

(** ** [_build_summary_across_qps] *)

Definition exp_key (r : Agg.row) : option string := Some (Agg.experiment r).

(** [agg.groupby("experiment")] *)
Definition by_experiment (agg : list Agg.row) : list (string * list Agg.row) :=
  groupby exp_key String.eqb String.leb agg.

(** A reduction applied to every group: a Series indexed by experiment. *)
Definition grouped {A : Type} (f : list Agg.row -> A) (agg : list Agg.row)
  : series A :=
  map (fun kg => (fst kg, f (snd kg))) (by_experiment agg).

Definition to_float (s : series Z) : series cell :=
  map (fun kx => (fst kx, of_Z (snd kx))) s.

Definition s_add (a b : series cell) : series cell :=
  zip_with (fun x oy => add x (at_label oy)) a b.

Definition s_div (a b : series cell) : series cell :=
  zip_with (fun x oy => div x (at_label oy)) a b.

Definition s_fillna (a b : series cell) : series cell :=
  zip_with (fun x oy => fillna x (at_label oy)) a b.

Definition s_replace_inf (a : series cell) : series cell :=
  map (fun kx => (fst kx, replace_inf (snd kx))) a.

(** [(agg[col] * agg["successes"]).groupby(agg["experiment"]).sum(min_count=1)] *)
Definition weighted_num (col : Agg.row -> cell) (agg : list Agg.row)
  : series cell :=
  grouped (fun g => sum_min1 (map (fun r => mul (col r) (of_Z (Agg.successes r))) g))
          agg.

(** [(num / succ_sum).replace([np.inf, -np.inf], np.nan)] *)
Definition weighted_overall (col : Agg.row -> cell) (agg : list Agg.row)
  : series cell :=
  s_replace_inf
    (s_div (weighted_num col agg)
           (to_float (grouped (fun g => sumZ (map Agg.successes g)) agg))).


(** [.nunique()] of a column: NaN is not counted. *)
Definition nunique (l : list cell) : nat :=
  List.length (unique cell_eqb (valid l)).

Definition set_delta (r : Summary.row) (d : cell) : Summary.row :=
  {| Summary.experiment := Summary.experiment r;
     Summary.qps_points := Summary.qps_points r;
     Summary.successes := Summary.successes r;
     Summary.failures := Summary.failures r;
     Summary.duration_s := Summary.duration_s r;
     Summary.completed_rps_overall := Summary.completed_rps_overall r;
     Summary.output_tokens_total := Summary.output_tokens_total r;
     Summary.input_tokens_total := Summary.input_tokens_total r;
     Summary.output_toks_per_sec_overall := Summary.output_toks_per_sec_overall r;
     Summary.input_toks_per_sec_overall := Summary.input_toks_per_sec_overall r;
     Summary.ttft_mean_s_overall := Summary.ttft_mean_s_overall r;
     Summary.itl_mean_s_overall := Summary.itl_mean_s_overall r;
     Summary.ttft_p50_s_overall := Summary.ttft_p50_s_overall r;
     Summary.ttft_p90_s_overall := Summary.ttft_p90_s_overall r;
     Summary.itl_p50_s_overall := Summary.itl_p50_s_overall r;
     Summary.itl_p90_s_overall := Summary.itl_p90_s_overall r;
     Summary.success_rate_overall := Summary.success_rate_overall r;
     Summary.ttft_delta_vs_baseline_pct_overall := d |}.

(** The frame assembled from the index of [succ_sum] and the [.values] of
    the other Series, position by position. *)
Definition summary_frame (agg : list Agg.row) (served_mode : string)
  : list Summary.row :=
  let total_duration := grouped (fun g => sum_min1 (map Agg.duration_s g)) agg in
  let succ_sum := grouped (fun g => sumZ (map Agg.successes g)) agg in
  let fail_sum := grouped (fun g => sumZ (map Agg.failures g)) agg in
  let total_completed := s_add (to_float succ_sum) (to_float fail_sum) in
  let completed_rps_overall :=
    if String.eqb served_mode "json" then
      s_div (grouped (fun g => sum_min1
                         (map (fun r => mul (Agg.achieved_rps_json r)
                                            (Agg.duration_s r)) g)) agg)
            total_duration
    else if String.eqb served_mode "successes" then
      s_div (to_float succ_sum) total_duration
    else s_div total_completed total_duration in
  let out_tok_sum := grouped (fun g => sumZ (map Agg.output_tokens_total g)) agg in
  let in_tok_sum := grouped (fun g => sumZ (map Agg.input_tokens_total g)) agg in
  let otps_json_overall :=
    grouped (fun g => mean (map Agg.output_toks_per_sec_json g)) agg in
  let itps_json_overall :=
    grouped (fun g => mean (map Agg.input_toks_per_sec_json g)) agg in
  let output_toks_per_sec_overall :=
    s_fillna otps_json_overall (s_div (to_float out_tok_sum) total_duration) in
  let input_toks_per_sec_overall :=
    s_fillna itps_json_overall (s_div (to_float in_tok_sum) total_duration) in
  let ttft_overall := weighted_overall Agg.ttft_mean_s agg in
  let itl_overall := weighted_overall Agg.itl_mean_s agg in
  let ttft_p50_overall := weighted_overall Agg.ttft_p50_s agg in
  let ttft_p90_overall := weighted_overall Agg.ttft_p90_s agg in
  let itl_p50_overall := weighted_overall Agg.itl_p50_s agg in
  let itl_p90_overall := weighted_overall Agg.itl_p90_s agg in
  let success_rate_overall := s_div (to_float succ_sum) total_completed in
  let qps_points := grouped (fun g => nunique (map Agg.requested_qps g)) agg in
  let index := map fst succ_sum in
  map (fun i =>
         {| Summary.experiment := nth i index "";
            Summary.qps_points := nth i (values qps_points) 0%nat;
            Summary.successes := nth i (values succ_sum) 0%Z;
            Summary.failures := nth i (values fail_sum) 0%Z;
            Summary.duration_s := nth i (values total_duration) NaN;
            Summary.completed_rps_overall := nth i (values completed_rps_overall) NaN;
            Summary.output_tokens_total := nth i (values out_tok_sum) 0%Z;
            Summary.input_tokens_total := nth i (values in_tok_sum) 0%Z;
            Summary.output_toks_per_sec_overall :=
              nth i (values output_toks_per_sec_overall) NaN;
            Summary.input_toks_per_sec_overall :=
              nth i (values input_toks_per_sec_overall) NaN;
            Summary.ttft_mean_s_overall := nth i (values ttft_overall) NaN;
            Summary.itl_mean_s_overall := nth i (values itl_overall) NaN;
            Summary.ttft_p50_s_overall := nth i (values ttft_p50_overall) NaN;
            Summary.ttft_p90_s_overall := nth i (values ttft_p90_overall) NaN;
            Summary.itl_p50_s_overall := nth i (values itl_p50_overall) NaN;
            Summary.itl_p90_s_overall := nth i (values itl_p90_overall) NaN;
            Summary.success_rate_overall := nth i (values success_rate_overall) NaN;
            Summary.ttft_delta_vs_baseline_pct_overall := NaN |})
      (seq 0 (List.length index)).

(** Baseline delta on overall TTFT (negative = faster); [pd.NA] is [NaN]. *)
Definition baseline_delta (baseline : option string) (summary : list Summary.row)
  (r : Summary.row) : cell :=
  match baseline with
  | Some b =>
      if is_empty b then NaN
      else match find (fun x => String.eqb (Summary.experiment x) b) summary with
           | Some br =>
               let base_ttft := Summary.ttft_mean_s_overall br in
               if notna base_ttft && negb (cell_eqb base_ttft (Num 0))
               then mul (div (sub (Summary.ttft_mean_s_overall r) base_ttft)
                             base_ttft)
                        (Num 100)
               else NaN
           | None => NaN
           end
  | None => NaN
  end.

(** [by=["output_toks_per_sec_overall", "success_rate_overall",
    "ttft_mean_s_overall"], ascending=[False, False, True]] *)
Definition summary_order (a b : Summary.row) : bool :=
  not_after
    (lex (key_compare false (Summary.output_toks_per_sec_overall a)
                            (Summary.output_toks_per_sec_overall b))
       (lex (key_compare false (Summary.success_rate_overall a)
                               (Summary.success_rate_overall b))
            (key_compare true (Summary.ttft_mean_s_overall a)
                              (Summary.ttft_mean_s_overall b)))).

(** Build one-row-per-experiment summary across all QPS. *)
Definition _build_summary_across_qps (agg : list Agg.row) (served_mode : string)
  (cap_served : bool) (baseline : option string) : list Summary.row :=
  match agg with
  | [] => []
  | _ =>
      let summary := summary_frame agg served_mode in
      sort_by summary_order
        (map (fun r => set_delta r (baseline_delta baseline summary r)) summary)
  end.

(** ** [write_markdown_report_per_qps] *)

(** Python's number formatting. *)
Record Fmt : Type := {
  fixed : nat -> cell -> string;   (* f"{x:.nf}" *)
  percent : cell -> string;        (* f"{x:.2%}" *)
  str_of_cell : cell -> string;    (* f"{x}" *)
  str_of_int : Z -> string;        (* f"{n}" *)
}.

Definition nl : string := String (ascii_of_nat 10) EmptyString.
Definition dq : string := String (ascii_of_nat 34) EmptyString.

Definition FIELD_DESCRIPTIONS : list (string * string) :=
  [ ("requested_qps", "Target request rate configured for the stage (requests/sec).");
    ("duration_s", "Total time the load generator sent requests at this QPS (seconds, aggregated).");
    ("successes", "Number of completed requests that succeeded (aggregated).");
    ("failures", "Number of completed requests that failed (aggregated).");
    ("success_rate", "Fraction of completed requests that succeeded: successes / (successes + failures). This captures outcome quality, not volume of work.");
    ("completed_rps", "Completed requests per second over the send window (basis set by --served-mode): total=(successes+failures)/s, successes=successes/s, json=value recorded in the file.");
    ("output_tokens_total", "Total number of output tokens generated (from per-request files; successes only).");
    ("input_tokens_total", "Total number of input tokens ingested (from per-request files; successes only).");
    ("output_toks_per_sec", "Primary throughput metric: output tokens generated per second across the stage window.");
    ("input_toks_per_sec", "Input tokens processed per second across the stage window.");
    ("norm_time_per_output_token_s", "Normalized time per output token (seconds/token). Lower is better.");
    ("ttft_mean_s", "Mean time to first token across successful requests (seconds). Lower is better.");
    ("ttft_p50_s", "TTFT median (p50) across successful requests (seconds). Lower is better.");
    ("ttft_p90_s", "TTFT 90th percentile (p90) across successful requests (seconds). Lower is better.");
    ("itl_mean_s", "Mean inter-token latency across successful requests (seconds). Lower is better.");
    ("itl_p50_s", "Inter-token latency median (p50) across successful requests (seconds). Lower is better.");
    ("itl_p90_s", "Inter-token latency 90th percentile (p90) across successful requests (seconds). Lower is better.");
    ("ttft_delta_vs_baseline_pct", "TTFT change vs baseline experiment: (TTFT - baseline_TTFT) / baseline_TTFT × 100. Negative = faster/better; positive = slower.");
    ("achieved_rps_json", "Throughput value recorded inside each stage file (successes.throughput.requests_per_sec). Useful for comparison/debugging; may omit failed requests depending on how the file was produced.") ].

Definition TABLE_HEAD : string :=
  "| Experiment | Output toks/s | Requests/s | Success Rate | TTFT mean (s) | TTFT p50/ p90 (s) | ITL mean (s) | ITL p50/ p90 (s) |".

Definition TABLE_RULE : string := "|---|---:|---:|---:|---:|---:|---:|---:|".

Definition CHARTS_HEAD : string := "## Charts" ++ nl.
Definition SUMMARY_HEAD : string := "### Summary across QPS" ++ nl.
Definition PER_QPS_HEAD : string :=
  nl ++ "## Per-QPS Results (sorted by **Output toks/s**, then **Success Rate**, then **TTFT**)" ++ nl.
Definition NO_DATA : string := "_No data found._" ++ nl.

(** [by=["output_toks_per_sec", "success_rate", "ttft_mean_s"],
    ascending=[False, False, True]] *)
Definition agg_order (a b : Agg.row) : bool :=
  not_after
    (lex (key_compare false (Agg.output_toks_per_sec a) (Agg.output_toks_per_sec b))
       (lex (key_compare false (Agg.success_rate a) (Agg.success_rate b))
            (key_compare true (Agg.ttft_mean_s a) (Agg.ttft_mean_s b)))).

Definition qps_only (r : Agg.row) : option cell :=
  if isna (Agg.requested_qps r) then None else Some (Agg.requested_qps r).

Definition cell_leb (a b : cell) : bool := not_after (cell_compare a b).

Section Report.
Variable lib : Lib.
Variable fs : FS.
Variable fmt : Fmt.

Definition read_text_if_exists (path : option string) : result (option string) :=
  match path with
  | Some p =>
      if negb (is_empty p) && path_exists fs p then
        match read_text fs p with
        | Some text => Ok (Some text)
        | None => Raise (read_error fs p)
        end
      else Ok None
  | None => Ok None
  end.

(** [read_text_if_exists(p) or "(file unreadable)"] *)
Definition text_or_unreadable (path : option string) : result string :=
  t <- read_text_if_exists path ;;
  Ok (match t with
      | Some text => if is_empty text then "(file unreadable)" else text
      | None => "(file unreadable)"
      end).

Definition blank_if_na (c : cell) (shown : string) : string :=
  if isna c then "" else shown.

(** One table line; [p50], [p90] and so on are the cells it shows. *)
Definition table_line (name : string) (toks rps sr ttft t50 t90 itl i50 i90 : cell)
  : string :=
  let toks_s := blank_if_na toks (fixed fmt 1 toks) in
  let rps_s := blank_if_na rps (fixed fmt 3 rps) in
  let sr_s := if notna sr then percent fmt sr else "n/a" in
  let ttft_s := blank_if_na ttft (fixed fmt 3 ttft) in
  let itl_s := blank_if_na itl (fixed fmt 3 itl) in
  let ttft_pct :=
    if isna t50 || isna t90 then ""
    else fixed fmt 3 t50 ++ "/" ++ fixed fmt 3 t90 in
  let itl_pct :=
    if isna i50 || isna i90 then ""
    else fixed fmt 4 i50 ++ "/" ++ fixed fmt 3 i90 in
  "| " ++ name ++ " | " ++ toks_s ++ " | " ++ rps_s ++ " | " ++ sr_s ++ " | "
       ++ ttft_s ++ " | " ++ ttft_pct ++ " | " ++ itl_s ++ " | " ++ itl_pct ++ " |".

Definition summary_line (r : Summary.row) : string :=
  table_line (Summary.experiment r)
    (Summary.output_toks_per_sec_overall r) (Summary.completed_rps_overall r)
    (Summary.success_rate_overall r) (Summary.ttft_mean_s_overall r)
    (Summary.ttft_p50_s_overall r) (Summary.ttft_p90_s_overall r)
    (Summary.itl_mean_s_overall r)
    (Summary.itl_p50_s_overall r) (Summary.itl_p90_s_overall r).

Definition agg_line (r : Agg.row) : string :=
  table_line (Agg.experiment r)
    (Agg.output_toks_per_sec_plot r) (Agg.completed_rps r)
    (Agg.success_rate r) (Agg.ttft_mean_s r)
    (Agg.ttft_p50_s r) (Agg.ttft_p90_s r)
    (Agg.itl_mean_s r)
    (Agg.itl_p50_s r) (Agg.itl_p90_s r).

(** The two lines of a chart whose file exists.  The relative path is
    computed first, for every chart. *)
Definition chart_lines (out_dir : string) (img_width_px : Z)
  (chart : string * string) : result (list string) :=
  let title_ := fst chart in
  let abs_path := snd chart in
  rel_path <- relpath_of lib abs_path out_dir ;;
  Ok (if path_exists fs abs_path then
        [ "### " ++ title_ ++ nl;
          "<img src=" ++ dq ++ rel_path ++ dq ++ " alt=" ++ dq ++ title_ ++ dq
            ++ " width=" ++ dq ++ str_of_int fmt img_width_px ++ dq ++ "/>" ++ nl ]
      else []).

Definition charts_section (out_dir : string) (img_width_px : Z)
  (charts : list (string * string)) : result (list string) :=
  match charts with
  | [] => Ok []
  | _ =>
      shown <- mapM (chart_lines out_dir img_width_px) charts ;;
      Ok (CHARTS_HEAD :: concat shown)
  end.

Definition per_qps_table (qg : cell * list Agg.row) : list string :=
  [ nl ++ "### QPS = " ++ str_of_cell fmt (fst qg) ++ nl;
    "";
    TABLE_HEAD;
    TABLE_RULE ]
  ++ map agg_line (sort_by agg_order (snd qg)).

(** The lines of the [else] branch after the charts: the table holds
    data. *)
Definition data_body (chart_part : list string) (agg : list Agg.row)
  (baseline : option string) (served_mode : string) (cap_served : bool)
  : list string :=
  chart_part
  ++ [ "### How to read this report (quick)" ++ nl;
       "- **Output tokens/sec** is the primary throughput metric (higher is better)." ++ nl;
       "- **Requests/sec** shows the rate of completed requests." ++ nl;
       "- **Success Rate** reflects outcome quality, not volume." ++ nl;
       "- **TTFT** is time to first token; **ITL** is the gap between tokens (both lower is better)." ++ nl;
       "";
       "### Field descriptions" ++ nl ]
  ++ map (fun kd => "- **" ++ fst kd ++ "** — " ++ snd kd) FIELD_DESCRIPTIONS
  ++ [ ""; SUMMARY_HEAD; ""; TABLE_HEAD; TABLE_RULE ]
  ++ map summary_line
         (_build_summary_across_qps agg served_mode cap_served baseline)
  ++ [ PER_QPS_HEAD ]
  ++ flat_map per_qps_table (groupby qps_only cell_eqb cell_leb agg).

(** The lines of the [else] branch. *)
Definition data_lines (agg : list Agg.row) (out_dir : string)
  (charts : list (string * string)) (img_width_px : Z)
  (baseline : option string) (served_mode : string) (cap_served : bool)
  : result (list string) :=
  chart_part <- charts_section out_dir img_width_px charts ;;
  Ok (data_body chart_part agg baseline served_mode cap_served).

Definition profile_lines (profile_yaml_path : option string)
  : result (list string) :=
  match profile_yaml_path with
  | Some p =>
      if is_empty p then Ok [ "_No profile YAML found._" ++ nl ]
      else
        profile_text <- text_or_unreadable (Some p) ;;
        Ok [ "```yaml"; rstrip profile_text; "```" ++ nl ]
  | None => Ok [ "_No profile YAML found._" ++ nl ]
  end.

Definition epp_lines (cfg : string * string) : result (list string) :=
  epp_text <- text_or_unreadable (Some (snd cfg)) ;;
  Ok [ "**" ++ fst cfg ++ "**" ++ nl; "```yaml"; rstrip epp_text; "```" ++ nl ].

Definition label_leb (a b : string * string) : bool := String.leb (fst a) (fst b).

Definition configuration_lines (profile_yaml_path : option string)
  (epp_configs : list (string * string)) : result (list string) :=
  prof <- profile_lines profile_yaml_path ;;
  let epp_configs_sorted := sort_by label_leb epp_configs in
  epp <- match epp_configs_sorted with
         | [] => Ok [ "_No epp_config.yaml files found under experiments._" ++ nl ]
         | _ => cfgs <- mapM epp_lines epp_configs_sorted ;; Ok (concat cfgs)
         end ;;
  Ok (List.app [ nl ++ "## Configuration" ++ nl;
                 "### Workload profile (shown once)" ++ nl ]
       (List.app prof
          (List.app [ "### EPP config per experiment" ++ nl ] epp))).

(** The list [lines] at the end of the function. *)
Definition report_lines (agg : list Agg.row) (out_dir : string)
  (charts : list (string * string)) (profile_yaml_path : option string)
  (epp_configs : list (string * string)) (img_width_px : Z)
  (baseline : option string) (served_mode : string) (cap_served : bool)
  (title : string) : result (list string) :=
  let head := [ "# " ++ title ++ nl ] in
  body <- match agg with
          | [] => Ok [ NO_DATA ]
          | _ => data_lines agg out_dir charts img_width_px baseline served_mode
                            cap_served
          end ;;
  conf <- configuration_lines profile_yaml_path epp_configs ;;
  Ok (List.app head (List.app body conf)).

(** The path of the report and the text written to it. *)
Definition write_markdown_report_per_qps (agg : list Agg.row) (out_dir : string)
  (charts : list (string * string)) (profile_yaml_path : option string)
  (epp_configs : list (string * string)) (img_width_px : Z)
  (baseline : option string) (served_mode : string) (cap_served : bool)
  (title : string) : result (string * string) :=
  let md_path := path_join out_dir "benchmark_report.md" in
  lines <- report_lines agg out_dir charts profile_yaml_path epp_configs
                        img_width_px baseline served_mode cap_served title ;;
  Ok (md_path, String.concat nl lines).

End Report.

(** ** File and configuration discovery *)

Section Discovery.
Variable lib : Lib.
Variable fs : FS.
Variable dir : Dir.

Definition stage_patterns (root : string) : list string :=
  [ path_join_all root ["**"; "results"; "*"; "stage_*_lifecycle_metrics.json"];
    path_join_all root ["**"; "stage_*_lifecycle_metrics.json"] ].

(** [sorted(set(files))] *)
Definition sorted_set (files : list string) : list string :=
  sort_by String.leb (unique String.eqb files).

Definition find_stage_files (root : string) : list string :=
  sorted_set (flat_map (rglob dir) (stage_patterns root)).

(** [build_stage_df(base_dir)], the discovery of the files included. *)
Definition discovered_stage_df (base_dir : string)
  : result (option (list StageDf.row)) :=
  build_stage_df lib fs base_dir (find_stage_files base_dir).

Definition profile_pattern (base_dir : string) (profile_name : option string)
  : string :=
  match profile_name with
  | Some n =>
      if is_empty n
      then path_join_all base_dir ["*"; "workload"; "profiles"; "*"; "*.yaml"]
      else path_join_all base_dir ["*"; "workload"; "profiles"; n; "*.yaml"]
  | None => path_join_all base_dir ["*"; "workload"; "profiles"; "*"; "*.yaml"]
  end.

(** Find [<experiment>/workload/profiles/<profile_name>/*.yaml] (first
    match). *)
Definition discover_profile_yaml (base_dir : string)
  (profile_name : option string) : option string :=
  match sort_by String.leb (glob dir (profile_pattern base_dir profile_name)) with
  | m :: _ => Some m
  | [] => None
  end.

(** The pairs (experiment label, path) of the [epp_config.yaml] files. *)
Definition discover_epp_configs (base_dir : string) : list (string * string) :=
  flat_map
    (fun exp_dir =>
       if negb (isdir dir exp_dir) then []
       else
         let epp := path_join exp_dir "epp_config.yaml" in
         if path_exists fs epp then [(basename exp_dir, epp)] else [])
    (sort_by String.leb (glob dir (path_join base_dir "*"))).

End Discovery.

End Analyze.

(* ------------------------------------------------------------------ *)
(** * [analyze_ext.py]: the EPP log *)

Module AnalyzeExt.
Import Py.

Local Open Scope string_scope.

(** One element of the regular expression of the time stamp. *)
Inductive pat : Type :=
| Digit
| Lit (c : ascii).

(** [re.match] of a sequence of single-character patterns. *)
Fixpoint match_prefix (p : list pat) (s : string) : bool :=
  match p with
  | [] => true
  | x :: p' =>
      match s with
      | EmptyString => false
      | String c s' =>
          match x with
          | Digit => is_digit c
          | Lit l => Ascii.eqb c l
          end && match_prefix p' s'
      end
  end.

Definition digits (n : nat) : list pat := repeat Digit n.

(** [\d{4}-\d{2}-\d{2}T\d{2}:\d{2}:\d{2}Z] *)
Definition TIMESTAMP : list pat :=
  (digits 4 ++ [Lit "-"] ++ digits 2 ++ [Lit "-"] ++ digits 2 ++ [Lit "T"]
   ++ digits 2 ++ [Lit ":"] ++ digits 2 ++ [Lit ":"] ++ digits 2 ++ [Lit "Z"])%list.

(** The text of the group when the line starts with a time stamp. *)
Definition timestamp_match (line : string) : option string :=
  if match_prefix TIMESTAMP line
  then Some (String.substring 0 (List.length TIMESTAMP) line)
  else None.

Definition PODS_KEY : string :=
  String (ascii_of_nat 34) "pods" ++ String (ascii_of_nat 34) ":".

(** The loop that looks for the bracket closing the array: [s] is the line
    from index [i] on, and the result is [bracket_end]. *)
Fixpoint find_close (s : string) (i : nat) (bracket_count : Z) : option nat :=
  match s with
  | EmptyString => None
  | String c s' =>
      if Ascii.eqb c "[" then find_close s' (S i) (bracket_count + 1)
      else if Ascii.eqb c "]" then
        if (bracket_count - 1 =? 0)%Z then Some (S i)
        else find_close s' (S i) (bracket_count - 1)
      else find_close s' (S i) bracket_count
  end.

Definition slice (a b : nat) (s : string) : string :=
  String.substring a (b - a) s.

(** [line[bracket_start:bracket_end]], when both brackets are found. *)
Definition pods_json_str (line : string) : option string :=
  match String.index 0 PODS_KEY line with
  | None => None
  | Some pods_start =>
      match String.index pods_start "[" line with
      | None => None
      | Some bracket_start =>
          match find_close (slice bracket_start (String.length line) line)
                           bracket_start 0 with
          | None => None
          | Some bracket_end => Some (slice bracket_start bracket_end line)
          end
      end
  end.

Section Epp.
Variable lib : Lib.
Variable datetime : Type.
(** [dateutil.parser.parse] on a [str]; [None] when it raises. *)
Variable parse_time : string -> option datetime.

(** One dictionary of [pod_metrics]. *)
Record pod_metric : Type := {
  timestamp : datetime;
  pod_update_time : datetime;
  pod_name : json;
  pod_address : json;
  waiting_queue_size : json;
  kv_cache_usage_percent : json;
}.

Definition member (k : string) (dflt : json) (members : list (string * json))
  : json :=
  match assoc k members with Some v => v | None => dflt end.

(** The sample of one pod object, [members] being its members. *)
Definition metric_of (timestamp_str : string) (timestamp : datetime)
  (members : list (string * json)) : pod_metric :=
  let ns_name := member "NamespacedName" (JObj []) members in
  let pod_name :=
    match ns_name with
    | JObj ns => member "Name" (JStr "unknown") ns
    | _ => JStr "unknown"
    end in
  let pod_update_time :=
    match member "UpdateTime" (JStr timestamp_str) members with
    | JStr s =>
        match parse_time s with
        | Some t => t
        | None => timestamp
        end
    | _ => timestamp
    end in
  {| timestamp := timestamp;
     pod_update_time := pod_update_time;
     pod_name := pod_name;
     pod_address := member "Address" (JStr "unknown") members;
     waiting_queue_size := member "WaitingQueueSize" (JNum 0) members;
     kv_cache_usage_percent := member "KVCacheUsagePercent" (JNum 0) members |}.

(** [for pod in pods_data]: what is not a dict is passed over. *)
Fixpoint collect (timestamp_str : string) (timestamp : datetime)
  (pods_data : list json) : list pod_metric :=
  match pods_data with
  | [] => []
  | JObj members :: rest =>
      metric_of timestamp_str timestamp members
      :: collect timestamp_str timestamp rest
  | _ :: rest => collect timestamp_str timestamp rest
  end.

(** Parse a single epp.log line and extract metrics for all pods. *)
Definition parse_epp_log_line (line : string) : option (list pod_metric) :=
  match timestamp_match line with
  | None => None
  | Some timestamp_str =>
      match parse_time timestamp_str with
      | None => None
      | Some timestamp =>
          match pods_json_str line with
          | None => None
          | Some text =>
              match json_loads lib text with
              | None => None
              | Some (JArr pods_data) =>
                  match collect timestamp_str timestamp pods_data with
                  | [] => None
                  | pod_metrics => Some pod_metrics
                  end
              | Some _ => None
              end
          end
      end
  end.

End Epp.

(** ** [parse_epp_log_file] *)

Section EppFile.
Variable lib : Lib.
Variable fs : FS.
Variable datetime : Type.
Variable parse_time : string -> option datetime.

(** An element of [all_metrics]: a sample with the experiment and the log
    it comes from. *)
Record epp_row : Type := {
  sample : pod_metric datetime;
  experiment : string;
  epp_log_path : string;
}.

(** [address in target_addresses], the targets being a set of [str]: a
    list or a dict cannot be hashed. *)
Definition in_targets (target_addresses : list string) (address : json)
  : result bool :=
  match address with
  | JStr s => Ok (existsb (String.eqb s) target_addresses)
  | JArr _ => Raise TypeError
  | JObj _ => Raise TypeError
  | _ => Ok false
  end.

(** [target_addresses is None or pod_metric['pod_address'] in
    target_addresses] *)
Definition kept (target_addresses : option (list string))
  (m : pod_metric datetime) : result bool :=
  match target_addresses with
  | None => Ok true
  | Some targets => in_targets targets (pod_address m)
  end.

(** [for pod_metric in pod_metrics], [all_metrics] being the list that
    grows. *)
Fixpoint add_samples (experiment epp_log_path : string)
  (target_addresses : option (list string))
  (pod_metrics : list (pod_metric datetime)) (all_metrics : list epp_row)
  : result (list epp_row) :=
  match pod_metrics with
  | [] => Ok all_metrics
  | m :: rest =>
      k <- kept target_addresses m ;;
      add_samples experiment epp_log_path target_addresses rest
        (if k
         then all_metrics ++ [ {| sample := m; experiment := experiment;
                                  epp_log_path := epp_log_path |} ]
         else all_metrics)
  end.

(** [for line in lines] *)
Fixpoint scan_lines (experiment epp_log_path : string)
  (target_addresses : option (list string))
  (lines : list string) (all_metrics : list epp_row) : result (list epp_row) :=
  match lines with
  | [] => Ok all_metrics
  | line :: rest =>
      match parse_epp_log_line lib parse_time (strip line) with
      | Some (m :: ms) =>
          all_metrics' <- add_samples experiment epp_log_path target_addresses
                                      (m :: ms) all_metrics ;;
          scan_lines experiment epp_log_path target_addresses rest all_metrics'
      | _ => scan_lines experiment epp_log_path target_addresses rest all_metrics
      end
  end.

(** The rows of the frame [parse_epp_log_file] builds, before they are
    sorted: the list [all_metrics], and no row where the function returns
    the empty frame (no file, an exception in the [try] block, no sample).
    The label is computed as in [analyze.py]: the two scripts hold the same
    [top_level_label]. *)
Definition epp_file_metrics (base_dir epp_log_path : string)
  (target_addresses : option (list string)) : list epp_row :=
  let experiment := Analyze.top_level_label lib base_dir epp_log_path in
  if negb (path_exists fs epp_log_path) then []
  else
    match read_text fs epp_log_path with
    | None => []
    | Some text =>
        match scan_lines experiment epp_log_path target_addresses
                         (readlines text) [] with
        | Ok all_metrics => all_metrics
        | Raise _ => []
        end
    end.

End EppFile.

End AnalyzeExt.

(* ------------------------------------------------------------------ *)
(** * The vocabulary of the specification *)

Module Spec.
Import Py.

Local Open Scope string_scope.

(** The member [k] of a document; absent is [JNull]. *)
Definition field (v : json) (k : string) : json :=
  match v with
  | JObj members =>
      match assoc k members with Some x => x | None => JNull end
  | _ => JNull
  end.

(** The percentile [pct] that the stage document reports for [metric],
    under [successes.latency]. *)
Definition reported (data : json) (metric pct : string) : json :=
  field (field (field (field data "successes") "latency") metric) pct.

(** The reported percentile is absent or equals 0.0. *)
Definition absent_or_zero (lib : Lib) (v : json) : bool :=
  match v with
  | JNull => true
  | _ =>
      match py_float lib v with
      | Ok f => is_zero f
      | Raise _ => false
      end
  end.

(** The value a stage record carries for a percentile: the recomputed one
    exactly when the reported one is absent or zero and a recomputed value
    exists, the reported one in every other case. *)
Definition chosen (lib : Lib) (v : json) (recomputed : option float) : json :=
  match recomputed with
  | Some x => if absent_or_zero lib v then json_of_float x else v
  | None => v
  end.








(** A line of the per-request file that is passed to the decoder and fails
    to parse. *)
Definition unparseable (lib : Lib) (raw : string) : bool :=
  let line := rstrip_comma (strip raw) in
  negb (is_empty line || String.eqb line "[" || String.eqb line "]")
  && match json_loads lib line with Some _ => false | None => true end.

(** The pod objects of a decoded ["pods"] array. *)
Fixpoint pod_objects (pods : list json) : list (list (string * json)) :=
  match pods with
  | [] => []
  | JObj members :: rest => members :: pod_objects rest
  | _ :: rest => pod_objects rest
  end.

(** The name of a pod: the [Name] under [NamespacedName], "unknown" when
    there is none. *)
Definition name_of (members : list (string * json)) : json :=
  match assoc "NamespacedName" members with
  | Some (JObj ns) =>
      match assoc "Name" ns with Some n => n | None => JStr "unknown" end
  | _ => JStr "unknown"
  end.

Definition member_or (k : string) (dflt : json) (members : list (string * json))
  : json :=
  match assoc k members with Some v => v | None => dflt end.

(** The sample [m] carries the time stamp [t] of the line and the name,
    address, waiting queue size and KV cache usage of the pod object. *)
Definition carries {datetime : Type} (t : datetime)
  (members : list (string * json)) (m : AnalyzeExt.pod_metric datetime) : Prop :=
  AnalyzeExt.timestamp m = t
  /\ AnalyzeExt.pod_name m = name_of members
  /\ AnalyzeExt.pod_address m = member_or "Address" (JStr "unknown") members
  /\ AnalyzeExt.waiting_queue_size m = member_or "WaitingQueueSize" (JNum 0) members
  /\ AnalyzeExt.kv_cache_usage_percent m
     = member_or "KVCacheUsagePercent" (JNum 0) members.

(** ** Aggregation *)

Import Pandas.

(** Two requested rates are the same rate; two missing rates are. *)
Definition same_rate (a b : cell) : bool :=
  (isna a && isna b) || cell_eqb a b.

(** The output row [o] stands for the (experiment, requested_qps) pair of
    the stage record [r]. *)
Definition same_pair (o : Analyze.Agg.row) (r : Analyze.StageDf.row) : bool :=
  String.eqb (Analyze.Agg.experiment o) (Analyze.StageDf.experiment r)
  && same_rate (Analyze.Agg.requested_qps o) (Analyze.StageDf.requested_qps r).

(** Exactly one output row for every pair present in the input. *)
Definition one_row_per_pair (df : list Analyze.StageDf.row)
  (out : list Analyze.Agg.row) : Prop :=
  forall r, In r df -> List.length (filter (fun o => same_pair o r) out) = 1.

(** The stage records grouped under the pair ([e], [q]). *)
Definition group_of (df : list Analyze.StageDf.row) (e : string) (q : cell)
  : list Analyze.StageDf.row :=
  filter (fun r => String.eqb (Analyze.StageDf.experiment r) e
                   && cell_eqb (Analyze.StageDf.requested_qps r) q) df.

(** The aggregated rows of the experiment [e]. *)
Definition rows_of (agg : list Analyze.Agg.row) (e : string)
  : list Analyze.Agg.row :=
  filter (fun r => String.eqb (Analyze.Agg.experiment r) e) agg.

(** Sums in the rationals and in the integers. *)
Definition Qsum (l : list Q) : Q := fold_right Qplus 0%Q l.
Definition Zsum (l : list Z) : Z := fold_right Z.add 0%Z l.








(** ** The request loop *)

(** A request that enters the statistics: a dict whose [error] is absent
    or [None]. *)
Definition counted (obj : json) : bool :=
  match obj with
  | JObj members =>
      match assoc "error" members with
      | Some JNull | None => true
      | Some _ => false
      end
  | _ => false
  end.

(** Token times logged as start/end pairs [t1, t1, t2, t2, ...]. *)
Definition paired (starts : list Q) : list json :=
  flat_map (fun t => [JNum t; JNum t]) starts.

(** The differences between successive times, [prev] being the time
    before the first one of [times]. *)
Fixpoint diffs (prev : float) (times : list float) : list float :=
  match times with
  | [] => []
  | t :: rest => fsub t prev :: diffs t rest
  end.

(** The state with the inter-token samples [xs] appended. *)
Definition with_itl (s : Analyze.loop_state) (xs : list float)
  : Analyze.loop_state :=
  {| Analyze.in_total := Analyze.in_total s;
     Analyze.out_total := Analyze.out_total s;
     Analyze.ttft_samples := Analyze.ttft_samples s;
     Analyze.itl_samples := (Analyze.itl_samples s ++ xs)%list |}.

(** ** Names *)

(** The character [c] occurs in [s]. *)
Fixpoint has_char (c : ascii) (s : string) : bool :=
  match s with
  | EmptyString => false
  | String a s' => Ascii.eqb a c || has_char c s'
  end.

(** [str(n)]: the decimal digits of [n]. *)
Definition decimal (n : nat) : string :=
  DecimalString.NilEmpty.string_of_uint (Nat.to_uint n).

(** The name of the metrics file of stage [n]. *)
Definition stage_file_name (n : nat) : string :=
  "stage_" ++ decimal n ++ "_lifecycle_metrics.json".

(** ** The EPP log *)

(** The bracket depth of a text: its opening brackets minus its closing
    ones. *)
Fixpoint depth (s : string) : Z :=
  match s with
  | EmptyString => 0
  | String c s' =>
      ((if Ascii.eqb c "[" then 1 else if Ascii.eqb c "]" then -1 else 0)
       + depth s')%Z
  end.

(** A time stamp [YYYY-MM-DDTHH:MM:SSZ]: twenty characters, all digits
    but the separators. *)
Definition stamp (ts : string) : bool :=
  match ts with
  | String y1 (String y2 (String y3 (String y4 (String d1
    (String m1 (String m2 (String d2
    (String a1 (String a2 (String t
    (String h1 (String h2 (String c1
    (String n1 (String n2 (String c2
    (String s1 (String s2 (String z EmptyString))))))))))))))))))) =>
      is_digit y1 && is_digit y2 && is_digit y3 && is_digit y4
      && Ascii.eqb d1 "-"
      && is_digit m1 && is_digit m2
      && Ascii.eqb d2 "-"
      && is_digit a1 && is_digit a2
      && Ascii.eqb t "T"
      && is_digit h1 && is_digit h2
      && Ascii.eqb c1 ":"
      && is_digit n1 && is_digit n2
      && Ascii.eqb c2 ":"
      && is_digit s1 && is_digit s2
      && Ascii.eqb z "Z"
  | _ => false
  end.

(** The first twenty characters of a line. *)
Definition leading (line : string) : string := String.substring 0 20 line.

(** The text [pat] stands at index [i] of the line. *)
Definition occurs_at (pat : string) (i : nat) (line : string) : Prop :=
  String.substring i (String.length pat) line = pat.

(** [i] is the first index from [start] on where [pat] stands. *)
Definition first_at (pat : string) (start : nat) (line : string) (i : nat)
  : Prop :=
  start <= i /\ occurs_at pat i line
  /\ forall p, start <= p < i -> ~ occurs_at pat p line.

(** What follows index [b] of the line, the character at [b] included. *)
Definition rest_from (b : nat) (line : string) : string :=
  String.substring b (String.length line - b) line.

(** The first [k] characters of [s] are its shortest piece in which the
    brackets match: the depth is back at zero after [k] characters and
    positive before. *)
Definition closes_at (s : string) (k : nat) : Prop :=
  1 <= k <= String.length s
  /\ depth (String.substring 0 k s) = 0%Z
  /\ forall j, 0 < j < k -> (0 < depth (String.substring 0 j s))%Z.

(** The key that announces the pods in a log line. *)
Definition pods_key : string :=
  String (ascii_of_nat 34) "pods" ++ String (ascii_of_nat 34) ":".

(** [text] is the piece of the line that is read as the array of the pods:
    it starts at the first opening bracket after the first occurrence of
    the key and ends where that bracket is matched. *)
Definition pods_text (line text : string) : Prop :=
  exists i b k,
    first_at pods_key 0 line i
    /\ first_at "[" i line b
    /\ closes_at (rest_from b line) k
    /\ text = String.substring b k line.

(** The array under the member [pods] of the document of a line, when
    that member is an array. *)
Definition pods_array (doc : json) : option (list json) :=
  match field doc "pods" with
  | JArr pods => Some pods
  | _ => None
  end.

(** A pod address that Python can hash: anything but a list or a dict. *)
Definition hashable (address : json) : bool :=
  match address with
  | JArr _ => false
  | JObj _ => false
  | _ => true
  end.

(** A pod address that is one of the target strings. *)
Definition targeted (targets : list string) (address : json) : bool :=
  match address with
  | JStr s => existsb (String.eqb s) targets
  | _ => false
  end.

End Spec.

(* ------------------------------------------------------------------ *)
(** * Concrete inputs *)

Module Ex.
Import Py.

Local Open Scope string_scope.

(** A decoder known by its graph on the texts of the examples. *)
Definition decoder (table : list (string * json)) (text : string) : option json :=
  assoc text table.

(** [os.path.relpath] for a path below [start]. *)
Definition relpath_below (p start : string) : string :=
  let pre := start ++ "/" in
  if String.prefix pre p
  then String.substring (String.length pre) (String.length p - String.length pre) p
  else p.

Definition lib_of (table : list (string * json)) : Lib :=
  {| json_loads := decoder table;
     str_to_float := fun _ => None;
     str_to_int := fun _ => None;
     relpath := relpath_below |}.

(** A file system holding the listed files. *)
Definition fs_of (files : list (string * string)) : FS :=
  {| path_exists := fun p => match assoc p files with Some _ => true | None => false end;
     read_text := fun p => assoc p files;
     read_error := fun _ => OSError |}.

Definition q (s : string) : string := Analyze.dq ++ s ++ Analyze.dq.

(** A stage document with three successes and one failure; its TTFT
    median is the bogus 0.0. *)
Definition good_text : string :=
  "{" ++ q "load_summary" ++ ": {" ++ q "requested_rate" ++ ": 2, "
      ++ q "send_duration" ++ ": 10}, "
      ++ q "successes" ++ ": {" ++ q "count" ++ ": 3, " ++ q "latency" ++ ": {"
      ++ q "time_to_first_token" ++ ": {" ++ q "mean" ++ ": 0.5, "
      ++ q "p50" ++ ": 0.0, " ++ q "p90" ++ ": 0.5}, "
      ++ q "inter_token_latency" ++ ": {" ++ q "mean" ++ ": 0.25, "
      ++ q "p50" ++ ": 0.25, " ++ q "p90" ++ ": 0.5}, "
      ++ q "request_latency" ++ ": {" ++ q "p50" ++ ": 2}}, "
      ++ q "throughput" ++ ": {" ++ q "requests_per_sec" ++ ": 0.25, "
      ++ q "input_tokens_per_sec" ++ ": 7, "
      ++ q "output_tokens_per_sec" ++ ": 2, "
      ++ q "total_tokens_per_sec" ++ ": 9}}, "
      ++ q "failures" ++ ": {" ++ q "count" ++ ": 1}}".

Definition latency_doc : json :=
  JObj [ ("time_to_first_token",
          JObj [ ("mean", JNum (1 # 2)); ("p50", JNum 0); ("p90", JNum (1 # 2)) ]);
         ("inter_token_latency",
          JObj [ ("mean", JNum (1 # 4)); ("p50", JNum (1 # 4)); ("p90", JNum (1 # 2)) ]);
         ("request_latency", JObj [ ("p50", JNum 2) ]) ].

Definition throughput_doc : json :=
  JObj [ ("requests_per_sec", JNum (1 # 4));
         ("input_tokens_per_sec", JNum 7);
         ("output_tokens_per_sec", JNum 2);
         ("total_tokens_per_sec", JNum 9) ].

Definition good_doc : json :=
  JObj [ ("load_summary", JObj [ ("requested_rate", JNum 2); ("send_duration", JNum 10) ]);
         ("successes",
          JObj [ ("count", JNum 3); ("latency", latency_doc);
                 ("throughput", throughput_doc) ]);
         ("failures", JObj [ ("count", JNum 1) ]) ].

(** The same document without a requested rate. *)
Definition no_rate_text : string :=
  "{" ++ q "load_summary" ++ ": {" ++ q "send_duration" ++ ": 10}, "
      ++ q "successes" ++ ": {" ++ q "count" ++ ": 3, " ++ q "latency" ++ ": {"
      ++ q "time_to_first_token" ++ ": {" ++ q "mean" ++ ": 0.5, "
      ++ q "p50" ++ ": 0.0, " ++ q "p90" ++ ": 0.5}, "
      ++ q "inter_token_latency" ++ ": {" ++ q "mean" ++ ": 0.25, "
      ++ q "p50" ++ ": 0.25, " ++ q "p90" ++ ": 0.5}, "
      ++ q "request_latency" ++ ": {" ++ q "p50" ++ ": 2}}, "
      ++ q "throughput" ++ ": {" ++ q "requests_per_sec" ++ ": 0.25, "
      ++ q "input_tokens_per_sec" ++ ": 7, "
      ++ q "output_tokens_per_sec" ++ ": 2, "
      ++ q "total_tokens_per_sec" ++ ": 9}}, "
      ++ q "failures" ++ ": {" ++ q "count" ++ ": 1}}".

Definition no_rate_doc : json :=
  JObj [ ("load_summary", JObj [ ("send_duration", JNum 10) ]);
         ("successes",
          JObj [ ("count", JNum 3); ("latency", latency_doc);
                 ("throughput", throughput_doc) ]);
         ("failures", JObj [ ("count", JNum 1) ]) ].

(** A stage document whose failure count is negative. *)
Definition negative_text : string :=
  "{" ++ q "successes" ++ ": {" ++ q "count" ++ ": 3}, "
      ++ q "failures" ++ ": {" ++ q "count" ++ ": -1}}".

Definition negative_doc : json :=
  JObj [ ("successes", JObj [ ("count", JNum 3) ]);
         ("failures", JObj [ ("count", JNum (-1)) ]) ].

(** A truncated stage document. *)
Definition broken_text : string := "{" ++ q "successes" ++ ": {".

(** A per-request file of two lines, the second one cut short. *)
Definition request_line : string :=
  "{" ++ q "start_time" ++ ": 1, " ++ q "info" ++ ": {" ++ q "input_tokens" ++ ": 7, "
      ++ q "output_tokens" ++ ": 2, " ++ q "output_token_times" ++ ": [1.5, 1.5, 2.5, 2.5]}}".

Definition request_doc : json :=
  JObj [ ("start_time", JNum 1);
         ("info", JObj [ ("input_tokens", JNum 7); ("output_tokens", JNum 2);
                         ("output_token_times",
                          JArr [ JNum (3 # 2); JNum (3 # 2); JNum (5 # 2); JNum (5 # 2) ]) ]) ].

(** A request whose second token time is a word. *)
Definition bad_request_doc : json :=
  JObj [ ("info", JObj [ ("input_tokens", JNum 1);
                         ("output_token_times", JArr [ JNum 1; JStr "x" ]) ]) ].





Definition cut_line : string := "{" ++ q "start_time" ++ ": 2, " ++ q "info".

Definition requests_text : string :=
  request_line ++ Analyze.nl ++ cut_line ++ Analyze.nl.

Definition table : list (string * json) :=
  [ (good_text, good_doc); (no_rate_text, no_rate_doc);
    (negative_text, negative_doc); (request_line, request_doc) ].

Definition lib : Lib := lib_of table.

Definition good_path : string := "/runs/expA/stage_0_lifecycle_metrics.json".
Definition negative_path : string := "/runs/expB/stage_1_lifecycle_metrics.json".
Definition broken_path : string := "/runs/expC/stage_2_lifecycle_metrics.json".
Definition no_rate_path : string := "/runs/expD/stage_0_lifecycle_metrics.json".

Definition profile_path : string := "/runs/expA/workload/profiles/p/profile.yaml".
Definition epp_config_path : string := "/runs/expA/epp_config.yaml".

Definition fs : FS :=
  fs_of [ (good_path, good_text);
          ("/runs/expA/per_request_lifecycle_metrics.json", requests_text);
          (negative_path, negative_text);
          (broken_path, broken_text);
          (no_rate_path, no_rate_text);
          (profile_path, "rate: 2" ++ Analyze.nl);
          (epp_config_path, "plugins: []" ++ Analyze.nl) ].

(** A formatter that prints every number as a dash. *)
Definition fmt : Analyze.Fmt :=
  {| Analyze.fixed := fun _ _ => "-";
     Analyze.percent := fun _ => "-";
     Analyze.str_of_cell := fun _ => "-";
     Analyze.str_of_int := fun _ => "-" |}.

(** An EPP log line with one pod object and one stray number. *)
Definition pods_text : string :=
  "[{" ++ q "NamespacedName" ++ ": {" ++ q "Name" ++ ": " ++ q "pod-a" ++ "}, "
       ++ q "Address" ++ ": " ++ q "10.0.0.1" ++ ", "
       ++ q "WaitingQueueSize" ++ ": 3, "
       ++ q "KVCacheUsagePercent" ++ ": 0.25}, 7]".

Definition pods_doc : json :=
  JArr [ JObj [ ("NamespacedName", JObj [ ("Name", JStr "pod-a") ]);
                ("Address", JStr "10.0.0.1");
                ("WaitingQueueSize", JNum 3);
                ("KVCacheUsagePercent", JNum (1 # 4)) ];
         JNum 7 ].

Definition epp_line : string :=
  "2024-05-01T10:00:00Z INFO {" ++ q "pods" ++ ": " ++ pods_text ++ "}".

Definition epp_lib : Lib := lib_of [ (pods_text, pods_doc) ].

(** A time is kept as its text; only well-formed stamps parse. *)
Definition parse_stamp (s : string) : option string :=
  if AnalyzeExt.match_prefix AnalyzeExt.TIMESTAMP s then Some s else None.

(** Stage rows that only differ in the columns under study. *)
Definition stage (e : string) (qps dur ttft : Pandas.cell) (succ fail : Z)
  : Analyze.StageDf.row :=
  {| Analyze.StageDf.experiment := e;
     Analyze.StageDf.stage_index := Pandas.Num 0;
     Analyze.StageDf.requested_qps := qps;
     Analyze.StageDf.send_duration_s := dur;
     Analyze.StageDf.achieved_rps_json := Pandas.Num (1 # 4);
     Analyze.StageDf.input_toks_per_sec_json := Pandas.Num 7;
     Analyze.StageDf.output_toks_per_sec_json := Pandas.Num 2;
     Analyze.StageDf.total_toks_per_sec_json := Pandas.Num 9;
     Analyze.StageDf.ttft_mean_s := ttft;
     Analyze.StageDf.ttft_p50_s := ttft;
     Analyze.StageDf.ttft_p90_s := ttft;
     Analyze.StageDf.itl_mean_s := Pandas.Num (1 # 4);
     Analyze.StageDf.itl_p50_s := Pandas.Num (1 # 4);
     Analyze.StageDf.itl_p90_s := Pandas.Num (1 # 2);
     Analyze.StageDf.request_latency_p50_s := Pandas.Num 2;
     Analyze.StageDf.successes := succ;
     Analyze.StageDf.failures := fail;
     Analyze.StageDf.success_rate :=
       Pandas.div (Pandas.of_Z succ) (Pandas.of_Z (succ + fail));
     Analyze.StageDf.input_tokens_total := 7;
     Analyze.StageDf.output_tokens_total := 2;
     Analyze.StageDf.source_path := "" |}.

Definition row_a1 : Analyze.StageDf.row :=
  stage "expA" (Pandas.Num 2) (Pandas.Num 10) (Pandas.Num (1 # 2)) 3 1.
Definition row_b : Analyze.StageDf.row :=
  stage "expB" (Pandas.Num 2) (Pandas.Num 10) (Pandas.Num (1 # 4)) 5 0.
Definition row_a2 : Analyze.StageDf.row :=
  stage "expA" (Pandas.Num 2) (Pandas.Num 20) Pandas.NaN 4 0.
Definition row_a3 : Analyze.StageDf.row :=
  stage "expA" (Pandas.Num 4) (Pandas.Num 10) (Pandas.Num 1) 1 0.

(** Three stages of expA, two of them at rate 2, and one stage of expB. *)
Definition stage_df : list Analyze.StageDf.row := [row_a1; row_b; row_a2; row_a3].

(** A tree with two stage files.  The one of expA lies below a [results]
    directory, where both patterns find it. *)
Definition nested_path : string :=
  "/runs/expA/results/r1/stage_0_lifecycle_metrics.json".

Definition tree_fs : FS :=
  fs_of [ (nested_path, good_text); (no_rate_path, no_rate_text) ].

Definition tree : Dir :=
  {| glob := fun _ => [];
     rglob := fun pat =>
       if String.eqb pat "/runs/**/results/*/stage_*_lifecycle_metrics.json"
       then [ nested_path ]
       else if String.eqb pat "/runs/**/stage_*_lifecycle_metrics.json"
       then [ no_rate_path; nested_path ]
       else [];
     isdir := fun _ => false |}.

(** An EPP log of two lines, the second one without a time stamp. *)
Definition epp_log_path : string := "/runs/expA/epp.log".

Definition epp_fs : FS :=
  fs_of [ (epp_log_path, epp_line ++ Analyze.nl ++ "starting" ++ Analyze.nl) ].


(** A line whose [pods] member is null and which lists candidates after
    it. *)
Definition candidates_text : string :=
  "[{" ++ q "Address" ++ ": " ++ q "10.0.0.9" ++ "}]".

Definition null_pods_body : string :=
  "{" ++ q "pods" ++ ": null, " ++ q "candidates" ++ ": " ++ candidates_text ++ "}".

Definition candidates_doc : json :=
  JArr [ JObj [ ("Address", JStr "10.0.0.9") ] ].

Definition null_pods_doc : json :=
  JObj [ ("pods", JNull); ("candidates", candidates_doc) ].

Definition null_pods_line : string :=
  "2024-05-01T10:00:00Z INFO " ++ null_pods_body.

Definition null_pods_lib : Lib :=
  lib_of [ (null_pods_body, null_pods_doc); (candidates_text, candidates_doc) ].

(** The line of [epp_line] with a fraction of a second in its stamp. *)
Definition epp_body : string := "{" ++ q "pods" ++ ": " ++ pods_text ++ "}".

Definition epp_doc : json := JObj [ ("pods", pods_doc) ].

Definition fraction_line : string :=
  "2024-05-01T10:00:00.123Z INFO " ++ epp_body.

Definition fraction_lib : Lib :=
  lib_of [ (epp_body, epp_doc); (pods_text, pods_doc) ].

(** A line whose pod has a closing bracket in its address. *)
Definition bracket_text : string :=
  "[{" ++ q "Address" ++ ": " ++ q "a]" ++ "}]".

Definition bracket_doc : json := JArr [ JObj [ ("Address", JStr "a]") ] ].

Definition bracket_line : string :=
  "2024-05-01T10:00:00Z INFO {" ++ q "pods" ++ ": " ++ bracket_text ++ "}".

Definition bracket_lib : Lib := lib_of [ (bracket_text, bracket_doc) ].

End Ex.

(* ------------------------------------------------------------------ *)
(** * Verification: reading the stage files *)

Import Py Analyze.

Unset Implicit Arguments.

Local Open Scope string_scope.

Lemma bind_ok_inv {A B} (c : result A) (k : A -> result B) r :
  bind c k = Ok r -> exists a, c = Ok a /\ k a = Ok r.
Proof.
  destruct c as [a | e]; cbn; [| discriminate].
  intros H. exists a. split; [reflexivity | exact H].
Qed.

Lemma Ok_inj {A} (a b : A) : Ok a = Ok b -> a = b.
Proof. intros H. injection H as H. exact H. Qed.

(** Splits a hypothesis [x <- c ;; k = Ok r] on the outcome of [c]. *)
Ltac bind_ok H :=
  cbv beta zeta in H;
  repeat match type of H with
         | bind _ _ = Ok _ =>
             let a := fresh "a" in
             let E := fresh "E" in
             apply bind_ok_inv in H; destruct H as (a & E & H);
             cbv beta zeta in H
         end.

Example parse_good :
  exists r x,
    parse_stage_file Ex.lib Ex.fs "/runs" Ex.good_path = Ok r
    /\ Analyze.experiment r = "expA"
    /\ stage_index r = Some 0%Z
    /\ successes r = 3%Z /\ failures r = 1%Z
    /\ success_rate r = Some (3 # 4)
    /\ ttft_p50_s r = JNum x /\ (x == 1 # 2)%Q
    /\ ttft_p90_s r = JNum (1 # 2)
    /\ itl_p50_s r = JNum (1 # 4)
    /\ rec_input_tokens_total r = 7%Z.
Proof.
  eexists. exists (400 # 800).
  split; [vm_compute; reflexivity |].
  repeat split; reflexivity.
Qed.

(** ** The stage record *)

Lemma parse_stage_file_success_rate lib fs base_dir path r :
  parse_stage_file lib fs base_dir path = Ok r ->
  success_rate r = success_rate_of (successes r) (successes r + failures r).
Proof.
  intros H. unfold parse_stage_file in H. bind_ok H.
  injection H as <-. reflexivity.
Qed.

Lemma success_rate_of_none s t : success_rate_of s t = None <-> t = 0%Z.
Proof.
  unfold success_rate_of. destruct (Z.eqb_spec t 0); split; intros H;
    try reflexivity; try discriminate; congruence.
Qed.

Lemma quotient_in_unit_interval s f :
  (0 <= s)%Z -> (0 <= f)%Z -> (s + f <> 0)%Z ->
  (0 <= inject_Z s / inject_Z (s + f) <= 1)%Q.
Proof.
  intros Hs Hf Hn.
  assert (Ht : (0 < inject_Z (s + f))%Q).
  { change 0%Q with (inject_Z 0). rewrite <- Zlt_Qlt. lia. }
  split.
  - apply Qle_shift_div_l; [exact Ht |].
    rewrite Qmult_0_l. change 0%Q with (inject_Z 0). rewrite <- Zle_Qle. exact Hs.
  - apply Qle_shift_div_r; [exact Ht |].
    rewrite Qmult_1_l. rewrite <- Zle_Qle. lia.
Qed.

(** C10 (amended).  For every stage file that yields a record, the record's
    [success_rate] is [None] exactly when successes + failures = 0, so no
    quotient is formed on a zero denominator; otherwise it is
    successes / (successes + failures), and that quotient lies in [0, 1]
    whenever both counts are non-negative. *)
Theorem C10_success_rate lib fs base_dir path r :
  parse_stage_file lib fs base_dir path = Ok r ->
  (success_rate r = None <-> (successes r + failures r = 0)%Z)
  /\ ((successes r + failures r <> 0)%Z ->
      success_rate r
      = Some (inject_Z (successes r) / inject_Z (successes r + failures r))%Q)
  /\ ((successes r + failures r <> 0)%Z ->
      (0 <= successes r)%Z -> (0 <= failures r)%Z ->
      exists x, success_rate r = Some x /\ (0 <= x <= 1)%Q).
Proof.
  intros H. apply parse_stage_file_success_rate in H. rewrite H.
  split; [apply success_rate_of_none |].
  assert (E : (successes r + failures r <> 0)%Z ->
              success_rate_of (successes r) (successes r + failures r)
              = Some (inject_Z (successes r) / inject_Z (successes r + failures r))%Q).
  { intros Hn. unfold success_rate_of.
    destruct (Z.eqb_spec (successes r + failures r) 0); [contradiction | reflexivity]. }
  split; [exact E |].
  intros Hn Hs Hf. eexists. split; [apply E; exact Hn |].
  apply quotient_in_unit_interval; assumption.
Qed.

Lemma C10_success_rate_witness :
  exists r x,
    parse_stage_file Ex.lib Ex.fs "/runs" Ex.good_path = Ok r
    /\ success_rate r = Some x /\ (0 <= x <= 1)%Q.
Proof.
  destruct (parse_stage_file Ex.lib Ex.fs "/runs" Ex.good_path) as [r | e] eqn:E;
    [| vm_compute in E; discriminate E].
  destruct (C10_success_rate Ex.lib Ex.fs "/runs" Ex.good_path r E) as (_ & _ & H).
  assert (S : successes r = 3%Z /\ failures r = 1%Z).
  { vm_compute in E. injection E as <-. split; reflexivity. }
  destruct S as [S F].
  destruct H as (x & Hx & Hb); [rewrite S, F; lia | rewrite S; lia | rewrite F; lia |].
  exists r, x. repeat split; try assumption; apply Hb.
Defined.

(** C10 as stated fails: a stage file with 3 successes and a failure count
    of -1 gives the rate 3/2, outside [0, 1]. *)
Lemma C10_counterexample :
  exists r x,
    parse_stage_file Ex.lib Ex.fs "/runs" Ex.negative_path = Ok r
    /\ (successes r + failures r <> 0)%Z
    /\ success_rate r = Some x /\ ~ (0 <= x <= 1)%Q.
Proof.
  eexists. exists (3 # 2).
  split; [vm_compute; reflexivity |].
  split; [cbn; lia |].
  split; [reflexivity |].
  intros [_ H]. revert H. unfold Qle. cbn. lia.
Qed.

(** ** The companion per-request file *)

(** C7.  For every stage directory with no companion
    [per_request_lifecycle_metrics.json], reading the per-request stats
    returns both token totals 0 and [None] for the four computed
    percentiles; the function returns a value, no exception is involved. *)
Theorem C7_no_companion_file lib fs stage_dir :
  path_exists fs (path_join stage_dir "per_request_lifecycle_metrics.json") = false ->
  _read_per_request_stats lib fs stage_dir
  = {| input_tokens_total := 0; output_tokens_total := 0;
       ttft_p50_s_computed := None; ttft_p90_s_computed := None;
       itl_p50_s_computed := None; itl_p90_s_computed := None |}.
Proof.
  intros H. unfold _read_per_request_stats. rewrite H. reflexivity.
Qed.

Lemma C7_no_companion_file_witness :
  path_exists Ex.fs (path_join "/runs/expB" "per_request_lifecycle_metrics.json") = false
  /\ _read_per_request_stats Ex.lib Ex.fs "/runs/expB"
     = {| input_tokens_total := 0; output_tokens_total := 0;
          ttft_p50_s_computed := None; ttft_p90_s_computed := None;
          itl_p50_s_computed := None; itl_p90_s_computed := None |}.
Proof.
  split; [reflexivity |].
  apply (C7_no_companion_file Ex.lib Ex.fs "/runs/expB"). reflexivity.
Defined.

(** ** The fallback for bogus or missing percentiles *)

Lemma dict_get_field d k v :
  dict_get d k JNull = Ok v -> v = Spec.field d k.
Proof.
  destruct d; cbn; intros H; try discriminate H.
  injection H as <-. reflexivity.
Qed.

Lemma falsy_field v k : truthy v = false -> Spec.field v k = JNull.
Proof.
  destruct v as [| | | | | members | |]; cbn; try reflexivity;
    try discriminate.
  destruct members; [reflexivity | discriminate].
Qed.

(** [d.get(k, {}) or {}] holds the same members as the member [k] of [d]. *)
Lemma get_dict_field d k v k' :
  get_dict d k = Ok v -> Spec.field v k' = Spec.field (Spec.field d k) k'.
Proof.
  unfold get_dict. destruct d; cbn; intros H; try discriminate H.
  injection H as <-. unfold py_or.
  destruct (assoc k members) as [x |]; cbn.
  - destruct (truthy x) eqn:T; [reflexivity |].
    rewrite (falsy_field x k' T). reflexivity.
  - reflexivity.
Qed.

Lemma with_fallback_chosen lib v c w :
  with_fallback lib v c = Ok w -> w = Spec.chosen lib v c.
Proof.
  unfold with_fallback, bogus, Spec.chosen, Spec.absent_or_zero.
  destruct v as [| b | x | s | items | members | p |];
    cbn [is_none]; cbv iota; try (cbn; discriminate).
  - cbn. destruct c; intros H; injection H as <-; reflexivity.
  - destruct (py_float lib (JBool b)) as [f | e]; cbn; [| discriminate].
    destruct c, (is_zero f); intros H; injection H as <-; reflexivity.
  - destruct (py_float lib (JNum x)) as [f | e]; cbn; [| discriminate].
    destruct c, (is_zero f); intros H; injection H as <-; reflexivity.
  - destruct (py_float lib (JStr s)) as [f | e]; cbn; [| discriminate].
    destruct c, (is_zero f); intros H; injection H as <-; reflexivity.
  - destruct (py_float lib (JInf p)) as [f | e]; cbn; [| discriminate].
    destruct c, (is_zero f); intros H; injection H as <-; reflexivity.
  - destruct (py_float lib JNaN) as [f | e]; cbn; [| discriminate].
    destruct c, (is_zero f); intros H; injection H as <-; reflexivity.
Qed.

(** C4.  For every stage file that yields a record, each of [ttft_p50_s],
    [ttft_p90_s], [itl_p50_s] and [itl_p90_s] is the percentile recomputed
    from the companion per-request log exactly when the stage document's
    percentile is absent or equals 0.0 and the recomputed value exists, and
    the value read from the stage document in every other case. *)
Theorem C4_percentile_fallback lib fs base_dir path text data r :
  read_text fs path = Some text ->
  json_loads lib text = Some data ->
  parse_stage_file lib fs base_dir path = Ok r ->
  let pr := _read_per_request_stats lib fs (dirname path) in
  ttft_p50_s r
  = Spec.chosen lib (Spec.reported data "time_to_first_token" "p50")
                (ttft_p50_s_computed pr)
  /\ ttft_p90_s r
     = Spec.chosen lib (Spec.reported data "time_to_first_token" "p90")
                   (ttft_p90_s_computed pr)
  /\ itl_p50_s r
     = Spec.chosen lib (Spec.reported data "inter_token_latency" "p50")
                   (itl_p50_s_computed pr)
  /\ itl_p90_s r
     = Spec.chosen lib (Spec.reported data "inter_token_latency" "p90")
                   (itl_p90_s_computed pr).
Proof.
  intros Ht Hd H pr. unfold parse_stage_file, json_load in H.
  rewrite Ht, Hd in H. cbn [bind] in H. bind_ok H.
  injection H as <-. cbn.
  repeat match goal with
         | E : with_fallback _ _ _ = Ok _ |- _ =>
             apply with_fallback_chosen in E; rewrite E; clear E
         end.
  repeat match goal with
         | E : dict_get _ ?k JNull = Ok _ |- _ =>
             apply dict_get_field in E; rewrite E; clear E
         end.
  unfold Spec.reported.
  repeat match goal with
         | E : get_dict _ _ = Ok ?v |- _ =>
             rewrite !(fun k' => get_dict_field _ _ _ k' E)
         end.
  fold pr. repeat split; reflexivity.
Qed.

Lemma C4_percentile_fallback_witness :
  exists r,
    parse_stage_file Ex.lib Ex.fs "/runs" Ex.good_path = Ok r
    /\ ttft_p50_s r
       = Spec.chosen Ex.lib (Spec.reported Ex.good_doc "time_to_first_token" "p50")
           (ttft_p50_s_computed
              (_read_per_request_stats Ex.lib Ex.fs (dirname Ex.good_path)))
    /\ ttft_p50_s r = JNum (400 # 800)
    /\ ttft_p90_s r = JNum (1 # 2).
Proof.
  destruct (parse_stage_file Ex.lib Ex.fs "/runs" Ex.good_path) as [r | e] eqn:E;
    [| vm_compute in E; discriminate E].
  exists r. split; [reflexivity |].
  destruct (C4_percentile_fallback Ex.lib Ex.fs "/runs" Ex.good_path
              Ex.good_text Ex.good_doc r eq_refl eq_refl E) as (H50 & H90 & _).
  split; [exact H50 |].
  split; [rewrite H50 | rewrite H90]; vm_compute; reflexivity.
Defined.

(** ** A stage file that does not decode *)

(** [parse_stage_file] lets the decoder's exception through. *)
Lemma parse_stage_file_malformed lib fs base_dir path text :
  read_text fs path = Some text -> json_loads lib text = None ->
  parse_stage_file lib fs base_dir path = Raise JSONDecodeError.
Proof.
  intros Ht Hj. unfold parse_stage_file, json_load. rewrite Ht, Hj. reflexivity.
Qed.

(** The list comprehension of [build_stage_df] has no handler either: one
    malformed file among the discovered ones and no table is built. *)
Lemma stage_rows_malformed lib fs base_dir files path text :
  In path files ->
  read_text fs path = Some text -> json_loads lib text = None ->
  exists e, stage_rows lib fs base_dir files = Raise e.
Proof.
  intros Hin Ht Hj. unfold stage_rows.
  induction files as [| p files IH]; [destruct Hin |].
  cbn [mapM]. destruct (parse_stage_file lib fs base_dir p) as [r | e] eqn:P;
    cbn [bind]; [| eexists; reflexivity].
  destruct Hin as [-> | Hin].
  - rewrite (parse_stage_file_malformed lib fs base_dir path text Ht Hj) in P.
    discriminate P.
  - destruct (IH Hin) as [e E]. rewrite E. eexists; reflexivity.
Qed.

(** C1 (the code departs from it).  With one well-formed and one truncated
    stage file under the base directory, the scan raises the decoder's
    exception instead of skipping the truncated file, although the
    well-formed file alone yields its record. *)
Theorem C1_malformed_stage_file_raises :
  json_loads Ex.lib Ex.broken_text = None
  /\ stage_rows Ex.lib Ex.fs "/runs" [Ex.good_path; Ex.broken_path]
     = Raise JSONDecodeError
  /\ build_stage_df Ex.lib Ex.fs "/runs" [Ex.good_path; Ex.broken_path]
     = Raise JSONDecodeError
  /\ exists r, stage_rows Ex.lib Ex.fs "/runs" [Ex.good_path] = Ok [r].
Proof.
  split; [reflexivity |].
  split; [vm_compute; reflexivity |].
  split; [vm_compute; reflexivity |].
  eexists. vm_compute. reflexivity.
Qed.

(* ------------------------------------------------------------------ *)
(** * Verification: the per-request file *)

(** ** Newline-delimited JSON *)

Lemma ndjson_scan_skip lib raw rest :
  Spec.unparseable lib raw = true ->
  ndjson_scan lib (raw :: rest) = ndjson_scan lib rest.
Proof.
  unfold Spec.unparseable. cbn [ndjson_scan].
  destruct (is_empty _ || _ || _); cbn; [discriminate |].
  destruct (json_loads lib _); [discriminate | reflexivity].
Qed.

Lemma ndjson_scan_keep lib raw rest rest' :
  ndjson_scan lib rest = ndjson_scan lib rest' ->
  ndjson_scan lib (raw :: rest) = ndjson_scan lib (raw :: rest').
Proof.
  intros H. cbn [ndjson_scan].
  destruct (is_empty _ || _ || _); [exact H |].
  destruct (json_loads lib _); [f_equal |]; exact H.
Qed.

(** Removing the unparseable lines does not change what the scan yields. *)
Lemma ndjson_scan_filter lib lines :
  ndjson_scan lib lines
  = ndjson_scan lib (filter (fun raw => negb (Spec.unparseable lib raw)) lines).
Proof.
  induction lines as [| raw rest IH]; [reflexivity |].
  cbn [filter]. destruct (Spec.unparseable lib raw) eqn:U; cbn [negb].
  - rewrite (ndjson_scan_skip lib raw rest U). exact IH.
  - apply ndjson_scan_keep. exact IH.
Qed.

(** C5.  In the line-by-line scan of the per-request text, every line that
    fails to parse (after stripping whitespace and trailing commas, blank
    and bare bracket lines being ignored) is skipped, and the records
    produced are exactly those produced from the same lines with the
    unparseable ones removed. *)
Theorem C5_unparseable_lines_skipped lib :
  (forall raw rest,
      Spec.unparseable lib raw = true ->
      ndjson_scan lib (raw :: rest) = ndjson_scan lib rest)
  /\ (forall lines,
         ndjson_scan lib lines
         = ndjson_scan lib
             (filter (fun raw => negb (Spec.unparseable lib raw)) lines))
  /\ (forall text,
         ndjson_scan lib (splitlines text)
         = ndjson_scan lib
             (filter (fun raw => negb (Spec.unparseable lib raw))
                     (splitlines text))).
Proof.
  split; [apply ndjson_scan_skip |].
  split; [apply ndjson_scan_filter |].
  intros text. apply ndjson_scan_filter.
Qed.

Lemma C5_unparseable_lines_skipped_witness :
  Spec.unparseable Ex.lib Ex.cut_line = true
  /\ ndjson_scan Ex.lib [Ex.request_line; Ex.cut_line; Ex.request_line]
     = ndjson_scan Ex.lib [Ex.request_line; Ex.request_line]
  /\ ndjson_scan Ex.lib [Ex.request_line; Ex.cut_line; Ex.request_line]
     = [Ex.request_doc; Ex.request_doc].
Proof.
  split; [reflexivity |].
  split; [| reflexivity].
  destruct (C5_unparseable_lines_skipped Ex.lib) as (_ & H & _).
  rewrite (H [Ex.request_line; Ex.cut_line; Ex.request_line]).
  reflexivity.
Defined.

(** The fallback is what [_iter_requests] yields whenever the text is not
    decoded as a whole. *)
Lemma iter_requests_fallback lib text :
  is_empty text = false ->
  startswith "[" (lstrip text) = false \/ json_loads lib text = None ->
  _iter_requests lib text
  = ndjson_scan lib
      (filter (fun raw => negb (Spec.unparseable lib raw)) (splitlines text)).
Proof.
  intros Hne H. unfold _iter_requests. rewrite Hne.
  destruct H as [H | H]; rewrite H.
  - apply ndjson_scan_filter.
  - destruct (startswith "[" (lstrip text)); apply ndjson_scan_filter.
Qed.

(** ** Floats within their range *)









(** ** Percentiles of non-negative samples *)














(** ** The request loop only collects non-negative samples *)
















Example computed_percentiles_exist :
  exists a b,
    ttft_p50_s_computed (_read_per_request_stats Ex.lib Ex.fs "/runs/expA")
    = Some (Fin a)
    /\ (a == 1 # 2)%Q
    /\ itl_p90_s_computed (_read_per_request_stats Ex.lib Ex.fs "/runs/expA")
       = Some (Fin b)
    /\ (b == 1)%Q.
Proof.
  do 2 eexists. split; [vm_compute; reflexivity |].
  split; [reflexivity |]. split; [vm_compute; reflexivity | reflexivity].
Qed.

(* ------------------------------------------------------------------ *)
(** * Verification: the EPP log line *)

Import AnalyzeExt.

Lemma no_key_no_array line :
  String.index 0 PODS_KEY line = None -> pods_json_str line = None.
Proof. intros H. unfold pods_json_str. rewrite H. reflexivity. Qed.

Lemma match_prefix_substring p line :
  match_prefix p line = true ->
  match_prefix p (String.substring 0 (List.length p) line) = true.
Proof.
  revert line. induction p as [| x p IH]; intros line; [reflexivity |].
  destruct line as [| c line]; cbn [match_prefix]; [discriminate |].
  intros H. apply andb_true_iff in H. destruct H as [H1 H2].
  cbn [List.length String.substring match_prefix].
  rewrite H1. cbn [andb]. apply IH. exact H2.
Qed.

(** The matched time stamp is the first twenty characters of the line, and
    it has the shape of a time stamp itself. *)
Lemma timestamp_match_prefix line ts :
  timestamp_match line = Some ts ->
  ts = String.substring 0 20 line /\ match_prefix TIMESTAMP ts = true.
Proof.
  unfold timestamp_match.
  destruct (match_prefix TIMESTAMP line) eqn:M; [| discriminate].
  intros H. injection H as <-. split; [reflexivity |].
  apply match_prefix_substring. exact M.
Qed.

(** The loop makes one sample for each pod object, in order. *)
Lemma collect_carries {datetime} (parse_time : string -> option datetime) ts t pods :
  Forall2 (Spec.carries t) (Spec.pod_objects pods)
          (collect parse_time ts t pods).
Proof.
  induction pods as [| pod rest IH]; cbn; [constructor |].
  destruct pod; try exact IH.
  constructor; [| exact IH].
  unfold Spec.carries, Spec.name_of, Spec.member_or, metric_of, member; cbn.
  repeat split.
  destruct (assoc "NamespacedName" members) as [[] |]; reflexivity.
Qed.

Lemma collect_nonempty {datetime} (parse_time : string -> option datetime) ts t pods :
  Spec.pod_objects pods <> [] -> collect parse_time ts t pods <> [].
Proof.
  intros H E. apply H.
  pose proof (collect_carries parse_time ts t pods) as F.
  rewrite E in F. inversion F. reflexivity.
Qed.

(** The cases of [parse_epp_log_line], told by what the code itself
    extracts from the line. *)
Lemma parse_epp_log_line_cases lib datetime
  (parse_time : string -> option datetime) line :
  (timestamp_match line = None ->
   parse_epp_log_line lib parse_time line = None)
  /\ (forall ts,
         timestamp_match line = Some ts -> parse_time ts = None ->
         parse_epp_log_line lib parse_time line = None)
  /\ (String.index 0 PODS_KEY line = None ->
      parse_epp_log_line lib parse_time line = None)
  /\ (pods_json_str line = None ->
      parse_epp_log_line lib parse_time line = None)
  /\ (forall text,
         pods_json_str line = Some text -> json_loads lib text = None ->
         parse_epp_log_line lib parse_time line = None)
  /\ (forall ts t text pods,
         timestamp_match line = Some ts -> parse_time ts = Some t ->
         pods_json_str line = Some text ->
         json_loads lib text = Some (JArr pods) ->
         Spec.pod_objects pods <> [] ->
         exists samples,
           parse_epp_log_line lib parse_time line = Some samples
           /\ Forall2 (Spec.carries t) (Spec.pod_objects pods) samples)
  /\ (forall samples,
         parse_epp_log_line lib parse_time line = Some samples ->
         exists ts t text pods,
           timestamp_match line = Some ts /\ parse_time ts = Some t
           /\ pods_json_str line = Some text
           /\ json_loads lib text = Some (JArr pods)
           /\ Forall2 (Spec.carries t) (Spec.pod_objects pods) samples).
Proof.
  assert (N : pods_json_str line = None ->
              parse_epp_log_line lib parse_time line = None).
  { intros H. unfold parse_epp_log_line. rewrite H.
    destruct (timestamp_match line) as [ts |]; [| reflexivity].
    destruct (parse_time ts); reflexivity. }
  split; [| split; [| split; [| split; [| split; [| split]]]]].
  - intros H. unfold parse_epp_log_line. rewrite H. reflexivity.
  - intros ts Hts Ht. unfold parse_epp_log_line. rewrite Hts, Ht. reflexivity.
  - intros H. apply N, no_key_no_array, H.
  - exact N.
  - intros text Ht Hj. unfold parse_epp_log_line. rewrite Ht, Hj.
    destruct (timestamp_match line) as [ts |]; [| reflexivity].
    destruct (parse_time ts); reflexivity.
  - intros ts t text pods Hts Ht Hp Hj Hne.
    unfold parse_epp_log_line. rewrite Hts, Ht, Hp, Hj.
    pose proof (collect_carries parse_time ts t pods) as F.
    pose proof (collect_nonempty parse_time ts t pods Hne) as C.
    destruct (collect parse_time ts t pods) as [| m ms]; [contradiction |].
    eexists. split; [reflexivity | exact F].
  - intros samples H. unfold parse_epp_log_line in H.
    destruct (timestamp_match line) as [ts |]; [| discriminate].
    destruct (parse_time ts) as [t |] eqn:Ht; [| discriminate].
    destruct (pods_json_str line) as [text |]; [| discriminate].
    destruct (json_loads lib text) as [[| | | | pods | | |] |] eqn:Hj; try discriminate.
    pose proof (collect_carries parse_time ts t pods) as F.
    destruct (collect parse_time ts t pods) as [| m ms]; [discriminate |].
    injection H as <-. exists ts, t, text, pods. repeat split; assumption.
Qed.

Example epp_line_without_stamp :
  parse_epp_log_line Ex.epp_lib Ex.parse_stamp
    (String.append "INFO " Ex.epp_line) = None.
Proof. reflexivity. Qed.

(* ------------------------------------------------------------------ *)
(** * Verification: the markdown report *)

Lemma mapM_Forall2 {A B} (f : A -> result B) xs ys :
  mapM f xs = Ok ys -> Forall2 (fun x y => f x = Ok y) xs ys.
Proof.
  revert ys. induction xs as [| x xs IH]; cbn; intros ys H.
  - injection H as <-. constructor.
  - bind_ok H. injection H as <-. constructor; [assumption | apply IH; assumption].
Qed.

Lemma Forall2_In_r {A B} (R : A -> B -> Prop) xs ys y :
  Forall2 R xs ys -> In y ys -> exists x, In x xs /\ R x y.
Proof.
  induction 1 as [| x0 y0 xs ys Hxy F IH]; cbn; [intros [] |].
  intros [<- | Hy].
  - exists x0. auto.
  - destruct (IH Hy) as (x & Hx & Hr). exists x. auto.
Qed.

(** What [rstrip] returns does not end with white space. *)
Lemma rstrip_by_last p s c :
  last_char (rstrip_by p s) = Some c -> p c = false.
Proof.
  induction s as [| a s IH]; cbn; [discriminate |].
  destruct (rstrip_by p s) as [| b r] eqn:R; cbn.
  - destruct (p a) eqn:Pa; cbn; [discriminate |].
    intros H. injection H as <-. exact Pa.
  - exact IH.
Qed.

Lemma last_char_append_nl s : last_char (s ++ nl) = Some (ascii_of_nat 10).
Proof.
  induction s as [| a s IH]; [reflexivity |].
  cbn [String.append last_char]. rewrite IH.
  destruct (s ++ nl) eqn:E; [| reflexivity].
  destruct s; discriminate E.
Qed.

Lemma rstrip_not_a_line t s : rstrip t <> s ++ nl.
Proof.
  intros E. pose proof (last_char_append_nl s) as L. rewrite <- E in L.
  apply rstrip_by_last in L. discriminate L.
Qed.

(** A line of the configuration section is a fixed line, a file text
    without its trailing white space, or the label of an experiment. *)
Lemma text_lines_shape fs profile_yaml_path ls :
  profile_lines fs profile_yaml_path = Ok ls ->
  forall l, In l ls ->
    l = "_No profile YAML found._" ++ nl \/ l = "```yaml" \/ l = "```" ++ nl
    \/ exists t, l = rstrip t.
Proof.
  unfold profile_lines. intros H l Hl.
  destruct profile_yaml_path as [p |].
  - destruct (is_empty p).
    + injection H as <-. destruct Hl as [<- | []]. auto.
    + bind_ok H. injection H as <-.
      destruct Hl as [<- | [<- | [<- | []]]]; auto.
      right; right; right. eexists. reflexivity.
  - injection H as <-. destruct Hl as [<- | []]. auto.
Qed.

Lemma epp_lines_shape fs cfg ls :
  epp_lines fs cfg = Ok ls ->
  forall l, In l ls ->
    l = "```yaml" \/ l = "```" ++ nl \/ (exists t, l = rstrip t)
    \/ exists label, l = "**" ++ label ++ "**" ++ nl.
Proof.
  unfold epp_lines. intros H l Hl. bind_ok H. injection H as <-.
  destruct Hl as [<- | [<- | [<- | [<- | []]]]].
  - right; right; right. exists (fst cfg). reflexivity.
  - left. reflexivity.
  - right; right; left. eexists. reflexivity.
  - right; left. reflexivity.
Qed.

Lemma configuration_lines_shape fs profile_yaml_path epp_configs conf :
  configuration_lines fs profile_yaml_path epp_configs = Ok conf ->
  forall l, In l conf ->
    In l [ nl ++ "## Configuration" ++ nl;
           "### Workload profile (shown once)" ++ nl;
           "_No profile YAML found._" ++ nl;
           "```yaml"; "```" ++ nl;
           "### EPP config per experiment" ++ nl;
           "_No epp_config.yaml files found under experiments._" ++ nl ]
    \/ (exists t, l = rstrip t)
    \/ exists label, l = "**" ++ label ++ "**" ++ nl.
Proof.
  unfold configuration_lines. intros H l Hl. bind_ok H.
  apply Ok_inj in H. subst conf.
  repeat (apply in_app_or in Hl; destruct Hl as [Hl | Hl]).
  - left. destruct Hl as [<- | [<- | []]]; cbn; auto.
  - destruct (text_lines_shape fs _ _ E l Hl) as [-> | [-> | [-> | T]]];
      cbn; auto 10.
  - left. destruct Hl as [<- | []]; cbn; auto 10.
  - destruct (Pandas.sort_by label_leb epp_configs) as [| c cs].
    + injection E0 as <-. left. destruct Hl as [<- | []]; cbn; auto 10.
    + bind_ok E0. injection E0 as <-.
      apply mapM_Forall2 in E1. apply in_concat in Hl.
      destruct Hl as (ls & Hls & Hl).
      destruct (Forall2_In_r _ _ _ _ E1 Hls) as (cfg & _ & Hc).
      destruct (epp_lines_shape fs cfg ls Hc l Hl) as [-> | [-> | [T | T]]];
        cbn; auto 10.
Qed.

(** Two texts that differ on a character that is known. *)
Ltac differ E := vm_compute in E; discriminate E.

(** A line that ends a markdown heading with a newline and is none of the
    fixed lines does not occur in the report of an empty table. *)
Lemma heading_not_in_empty_report fs profile_yaml_path epp_configs conf title
  body :
  configuration_lines fs profile_yaml_path epp_configs = Ok conf ->
  body ++ nl <> "# " ++ title ++ nl ->
  body ++ nl <> NO_DATA ->
  ~ In (body ++ nl)
       [ nl ++ "## Configuration" ++ nl;
         "### Workload profile (shown once)" ++ nl;
         "_No profile YAML found._" ++ nl;
         "```yaml"; "```" ++ nl;
         "### EPP config per experiment" ++ nl;
         "_No epp_config.yaml files found under experiments._" ++ nl ] ->
  (forall label, body ++ nl <> "**" ++ label ++ "**" ++ nl) ->
  ~ In (body ++ nl) (("# " ++ title ++ nl) :: NO_DATA :: conf).
Proof.
  intros Hc Ht Hn Hf Hl [H | [H | H]]; try (symmetry in H; contradiction).
  destruct (configuration_lines_shape fs _ _ _ Hc _ H) as [F | [[t T] | [label L]]].
  - contradiction.
  - symmetry in T. exact (rstrip_not_a_line t body T).
  - exact (Hl label L).
Qed.

(** The lines of the report of an empty table: the title, the placeholder
    and the configuration section, and none of the headings of the data
    sections. *)
Lemma empty_report_lines lib fs fmt out_dir charts profile_yaml_path epp_configs
  img_width_px baseline served_mode cap_served title lines :
  report_lines lib fs fmt [] out_dir charts profile_yaml_path epp_configs
               img_width_px baseline served_mode cap_served title = Ok lines ->
  In NO_DATA lines
  /\ ~ In CHARTS_HEAD lines
  /\ ~ In SUMMARY_HEAD lines
  /\ ~ In PER_QPS_HEAD lines
  /\ (forall qps, ~ In (nl ++ "### QPS = " ++ qps ++ nl) lines)
  /\ exists conf,
       configuration_lines fs profile_yaml_path epp_configs = Ok conf
       /\ lines = ("# " ++ title ++ nl) :: NO_DATA :: conf.
Proof.
  intros H. unfold report_lines in H. cbn [bind] in H. bind_ok H.
  apply Ok_inj in H. subst lines. cbn [List.app].
  split; [right; left; reflexivity |].
  split; [| split; [| split; [| split]]].
  - apply (heading_not_in_empty_report fs _ _ a title "## Charts" E).
    + intros X; differ X.
    + intros X; differ X.
    + intros X; cbn in X; repeat destruct X as [X | X]; try differ X; exact X.
    + intros label X; differ X.
  - apply (heading_not_in_empty_report fs _ _ a title "### Summary across QPS" E).
    + intros X; differ X.
    + intros X; differ X.
    + intros X; cbn in X; repeat destruct X as [X | X]; try differ X; exact X.
    + intros label X; differ X.
  - apply (heading_not_in_empty_report fs _ _ a title
             (nl ++ "## Per-QPS Results (sorted by **Output toks/s**, then **Success Rate**, then **TTFT**)")
             E).
    + intros X; differ X.
    + intros X; differ X.
    + intros X; cbn in X; repeat destruct X as [X | X]; try differ X; exact X.
    + intros label X; differ X.
  - intros qps.
    assert (R : nl ++ "### QPS = " ++ qps ++ nl = (nl ++ "### QPS = " ++ qps) ++ nl).
    { cbn. f_equal. }
    rewrite R.
    apply (heading_not_in_empty_report fs _ _ a title (nl ++ "### QPS = " ++ qps) E).
    + intros X; differ X.
    + intros X; differ X.
    + intros X; cbn in X; repeat destruct X as [X | X]; try differ X; exact X.
    + intros label X; differ X.
  - exists a. split; [exact E | reflexivity].
Qed.

(** The configuration section opens with its heading and goes on. *)
Lemma configuration_lines_head fs profile_yaml_path epp_configs conf :
  configuration_lines fs profile_yaml_path epp_configs = Ok conf ->
  exists l tail, conf = (nl ++ "## Configuration" ++ nl) :: l :: tail.
Proof.
  unfold configuration_lines. intros H. bind_ok H. apply Ok_inj in H.
  subst conf. cbn [List.app]. eexists. eexists. reflexivity.
Qed.

Lemma concat_cons sep a b l :
  String.concat sep (a :: b :: l) = a ++ sep ++ String.concat sep (b :: l).
Proof. reflexivity. Qed.

(** C8.  When the aggregated table is empty, the text of the generated
    report is its lines joined by newlines, these lines being the title,
    the placeholder line [_No data found._] and the configuration section:
    the text starts with the title, the placeholder and the heading of the
    configuration, and no line of it is the heading of the charts section,
    of the summary table or of a per-QPS table. *)
Theorem C8_empty_report lib fs fmt out_dir charts profile_yaml_path epp_configs
  img_width_px baseline served_mode cap_served title path text :
  write_markdown_report_per_qps lib fs fmt [] out_dir charts profile_yaml_path
    epp_configs img_width_px baseline served_mode cap_served title
  = Ok (path, text) ->
  exists lines conf rest,
    configuration_lines fs profile_yaml_path epp_configs = Ok conf
    /\ lines = ("# " ++ title ++ nl) :: NO_DATA :: conf
    /\ text = String.concat nl lines
    /\ text = ("# " ++ title ++ nl) ++ nl ++ NO_DATA ++ nl
              ++ (nl ++ "## Configuration" ++ nl) ++ nl ++ rest
    /\ In NO_DATA lines
    /\ ~ In CHARTS_HEAD lines
    /\ ~ In SUMMARY_HEAD lines
    /\ ~ In PER_QPS_HEAD lines
    /\ (forall qps, ~ In (nl ++ "### QPS = " ++ qps ++ nl) lines).
Proof.
  intros H. unfold write_markdown_report_per_qps in H. bind_ok H.
  apply Ok_inj in H. injection H as _ <-. rename a into lines.
  destruct (empty_report_lines _ _ _ _ _ _ _ _ _ _ _ _ _ E)
    as (H1 & H2 & H3 & H4 & H5 & conf & Hc & Hl).
  destruct (configuration_lines_head _ _ _ _ Hc) as (l & tail & Hconf).
  exists lines, conf, (String.concat nl (l :: tail)).
  split; [exact Hc |]. split; [exact Hl |]. split; [reflexivity |].
  split.
  - rewrite Hl, Hconf. rewrite !concat_cons. reflexivity.
  - auto.
Qed.

Lemma C8_empty_report_witness :
  exists text rest,
    write_markdown_report_per_qps Ex.lib Ex.fs Ex.fmt [] "/out"
      [ ("Latency vs QPS", "/out/latency_vs_qps.png") ]
      (Some Ex.profile_path) [ ("expA", Ex.epp_config_path) ]
      950 None "total" true "vLLM Benchmark Summary"
    = Ok ("/out/benchmark_report.md", text)
    /\ text = ("# vLLM Benchmark Summary" ++ nl) ++ nl ++ NO_DATA ++ nl
              ++ (nl ++ "## Configuration" ++ nl) ++ nl ++ rest.
Proof.
  destruct (write_markdown_report_per_qps Ex.lib Ex.fs Ex.fmt [] "/out"
              [ ("Latency vs QPS", "/out/latency_vs_qps.png") ]
              (Some Ex.profile_path) [ ("expA", Ex.epp_config_path) ]
              950 None "total" true "vLLM Benchmark Summary")
    as [[path text] | e] eqn:E; [| vm_compute in E; discriminate E].
  destruct (C8_empty_report _ _ _ _ _ _ _ _ _ _ _ _ _ _ E)
    as (lines & conf & rest & _ & _ & _ & Ht & _).
  exists text, rest. split; [| exact Ht].
  f_equal. f_equal. unfold write_markdown_report_per_qps in E. bind_ok E.
  apply Ok_inj in E. injection E as <- _. reflexivity.
Defined.

(* ------------------------------------------------------------------ *)
(** * Verification: sorting and grouping *)

Import Pandas.

Section SortFacts.
Context {R : Type} (leb : R -> R -> bool).

Lemma insert_by_perm x l : Permutation (insert_by leb x l) (x :: l).
Proof.
  induction l as [| y l IH]; cbn; [reflexivity |].
  destruct (leb x y); [reflexivity |].
  rewrite IH. apply perm_swap.
Qed.

(** Sorting rearranges the rows and nothing else. *)
Lemma sort_by_perm l : Permutation (sort_by leb l) l.
Proof.
  induction l as [| x l IH]; cbn; [reflexivity |].
  rewrite insert_by_perm. constructor. exact IH.
Qed.

Lemma sort_by_In l x : In x (sort_by leb l) <-> In x l.
Proof.
  split; apply Permutation_in; [| symmetry]; apply sort_by_perm.
Qed.

Lemma filter_length_perm (p : R -> bool) l l' :
  Permutation l l' ->
  List.length (filter p l) = List.length (filter p l').
Proof.
  induction 1 as [| x l l' _ IH | x y l | l l' l'' _ IH1 _ IH2]; cbn.
  - reflexivity.
  - destruct (p x); cbn; congruence.
  - destruct (p x), (p y); reflexivity.
  - congruence.
Qed.

End SortFacts.

Section UniqueFacts.
Context {K : Type} (eqb : K -> K -> bool).
Hypothesis eqb_sym : forall a b, eqb a b = eqb b a.
Hypothesis eqb_trans :
  forall a b c, eqb a b = true -> eqb b c = true -> eqb a c = true.

Lemma unique_In l k : In k (unique eqb l) -> In k l.
Proof.
  revert k. induction l as [| a l IH]; cbn; [tauto |].
  intros k [<- | H]; [left; reflexivity |].
  apply filter_In in H. right. apply IH, H.
Qed.

(** Among the distinct keys exactly one equals a given key of the list. *)
Lemma unique_count l k :
  In k l -> eqb k k = true ->
  List.length (filter (fun k' => eqb k' k) (unique eqb l)) = 1.
Proof.
  intros Hin Hr. induction l as [| a l IH]; [destruct Hin |].
  cbn [unique filter].
  destruct (eqb a k) eqn:Ea.
  - cbn [List.length]. f_equal. clear IH.
    induction (unique eqb l) as [| b rest IHr]; [reflexivity |].
    cbn [filter]. destruct (eqb a b) eqn:Eab; cbn [negb filter]; [exact IHr |].
    destruct (eqb b k) eqn:Ebk; [| exact IHr].
    rewrite eqb_sym in Ebk. rewrite (eqb_trans _ _ _ Ea Ebk) in Eab.
    discriminate Eab.
  - assert (Hin' : In k l).
    { destruct Hin as [-> | H]; [congruence | exact H]. }
    rewrite <- (IH Hin'). f_equal. clear IH.
    induction (unique eqb l) as [| b rest IHr]; [reflexivity |].
    cbn [filter]. destruct (eqb a b) eqn:Eab; cbn [negb filter].
    + destruct (eqb b k) eqn:Ebk; [| exact IHr].
      rewrite (eqb_trans _ _ _ Eab Ebk) in Ea. discriminate Ea.
    + destruct (eqb b k); [f_equal |]; exact IHr.
Qed.

End UniqueFacts.

Lemma unique_NoDup l : NoDup (unique String.eqb l).
Proof.
  induction l as [| a l IH]; cbn; constructor.
  - intros H. apply filter_In in H. destruct H as [_ H].
    rewrite String.eqb_refl in H. discriminate H.
  - apply NoDup_filter. exact IH.
Qed.

Lemma present_keys_In {R K : Type} (key : R -> option K) rows k :
  In k (present_keys key rows) <-> exists r, In r rows /\ key r = Some k.
Proof.
  induction rows as [| r rows IH]; cbn.
  - split; [tauto | intros (r & [] & _)].
  - destruct (key r) as [k' |] eqn:E; cbn; rewrite IH; split.
    + intros [<- | (r' & H1 & H2)]; [exists r; auto | exists r'; auto].
    + intros (r' & [<- | H1] & H2); [left; congruence | right; exists r'; auto].
    + intros (r' & H1 & H2). exists r'; auto.
    + intros (r' & [<- | H1] & H2); [congruence | exists r'; auto].
Qed.

Section GroupFacts.
Context {R K : Type} (key : R -> option K) (eqb leb : K -> K -> bool).

(** The groups, key by key. *)
Lemma groupby_keys rows :
  map fst (groupby key eqb leb rows)
  = sort_by leb (unique eqb (present_keys key rows)).
Proof.
  unfold groupby. rewrite map_map. cbn. apply map_id.
Qed.

Lemma groupby_In rows k g :
  In (k, g) (groupby key eqb leb rows) ->
  In k (present_keys key rows) /\ g = filter (in_group key eqb k) rows.
Proof.
  unfold groupby. intros H. apply in_map_iff in H.
  destruct H as (k' & E & H). injection E as <- <-.
  split; [| reflexivity].
  apply sort_by_In in H. apply unique_In in H. exact H.
Qed.

End GroupFacts.

(* ------------------------------------------------------------------ *)
(** * Verification: aggregation per (experiment, requested rate) *)

Lemma Qeq_bool_sym p q : Qeq_bool p q = Qeq_bool q p.
Proof.
  apply Bool.eq_true_iff_eq. rewrite !Qeq_bool_iff.
  split; intros H; symmetry; exact H.
Qed.

Lemma cell_eqb_sym a b : cell_eqb a b = cell_eqb b a.
Proof.
  destruct a as [p | | s], b as [q | | t]; cbn; try reflexivity.
  - apply Qeq_bool_sym.
  - destruct s, t; reflexivity.
Qed.

Lemma cell_eqb_trans a b c :
  cell_eqb a b = true -> cell_eqb b c = true -> cell_eqb a c = true.
Proof.
  destruct a as [p | | s], b as [q | | t], c as [r | | u]; cbn;
    try discriminate.
  - rewrite !Qeq_bool_iff. intros H1 H2. rewrite H1. exact H2.
  - destruct s, t, u; cbn; congruence.
Qed.

Lemma cell_eqb_refl a : isna a = false -> cell_eqb a a = true.
Proof.
  destruct a as [p | | s]; cbn; intros H.
  - apply Qeq_bool_iff. reflexivity.
  - discriminate H.
  - destruct s; reflexivity.
Qed.

Lemma key_eqb_sym a b : key_eqb a b = key_eqb b a.
Proof.
  unfold key_eqb. rewrite String.eqb_sym, cell_eqb_sym. reflexivity.
Qed.

Lemma key_eqb_trans a b c :
  key_eqb a b = true -> key_eqb b c = true -> key_eqb a c = true.
Proof.
  unfold key_eqb. rewrite !andb_true_iff, !String.eqb_eq.
  intros [-> H1] [-> H2]. split; [reflexivity |].
  exact (cell_eqb_trans _ _ _ H1 H2).
Qed.

Lemma stage_key_Some r k :
  stage_key r = Some k ->
  isna (StageDf.requested_qps r) = false
  /\ k = (StageDf.experiment r, StageDf.requested_qps r).
Proof.
  unfold stage_key. destruct (isna (StageDf.requested_qps r)); [discriminate |].
  intros H. injection H as <-. auto.
Qed.

Lemma stage_key_refl r k : stage_key r = Some k -> key_eqb k k = true.
Proof.
  intros H. apply stage_key_Some in H. destruct H as [N ->].
  unfold key_eqb. cbn. rewrite String.eqb_refl. apply cell_eqb_refl, N.
Qed.

(** The rows pandas puts in the group of [k] are the stage records with the
    experiment and the requested rate of [k]. *)
Lemma in_group_group_of df k :
  filter (in_group stage_key key_eqb k) df = Spec.group_of df (fst k) (snd k).
Proof.
  unfold Spec.group_of. apply filter_ext. intros r.
  unfold in_group, stage_key, key_eqb.
  destruct (StageDf.requested_qps r) as [q | | s]; cbn; try reflexivity.
  rewrite andb_false_r. reflexivity.
Qed.

Lemma aggregate_per_qps_rows df served_mode cap_served :
  exists mode,
    aggregate_per_qps df served_mode cap_served
    = map (fun k => agg_row_of mode k (Spec.group_of df (fst k) (snd k)))
          (sort_by key_leb (unique key_eqb (present_keys stage_key df))).
Proof.
  destruct df as [| r df]; [exists ""; reflexivity |].
  eexists. unfold aggregate_per_qps, groupby. rewrite map_map. cbn [fst snd].
  apply map_ext. intros k. rewrite in_group_group_of. reflexivity.
Qed.

Lemma filter_length_map {A B} (p : B -> bool) (f : A -> B) l :
  List.length (filter p (map f l)) = List.length (filter (fun x => p (f x)) l).
Proof.
  induction l as [| x l IH]; cbn; [reflexivity |].
  destruct (p (f x)); cbn; congruence.
Qed.

(** C2 (amended).  Aggregation produces exactly one output row per
    distinct (experiment, requested_qps) pair whose requested_qps is
    present; every output row stands for such a pair of the input, and in
    it successes, failures, send duration and the token totals are the sums
    over the grouped stage records while achieved_rps_json and the TTFT/ITL
    mean and percentile fields are the means over the grouped records that
    have the field (sums and means skip missing values). *)
Theorem C2_aggregate_per_qps df served_mode cap_served :
  let out := aggregate_per_qps df served_mode cap_served in
  (forall r, In r df -> isna (StageDf.requested_qps r) = false ->
      List.length (filter (fun o => Spec.same_pair o r) out) = 1)
  /\ (forall o, In o out ->
        let g := Spec.group_of df (Agg.experiment o) (Agg.requested_qps o) in
        isna (Agg.requested_qps o) = false
        /\ g <> []
        /\ Agg.successes o = sumZ (map StageDf.successes g)
        /\ Agg.failures o = sumZ (map StageDf.failures g)
        /\ Agg.duration_s o = sum (map StageDf.send_duration_s g)
        /\ Agg.input_tokens_total o = sumZ (map StageDf.input_tokens_total g)
        /\ Agg.output_tokens_total o = sumZ (map StageDf.output_tokens_total g)
        /\ Agg.achieved_rps_json o = mean (map StageDf.achieved_rps_json g)
        /\ Agg.ttft_mean_s o = mean (map StageDf.ttft_mean_s g)
        /\ Agg.itl_mean_s o = mean (map StageDf.itl_mean_s g)
        /\ Agg.ttft_p50_s o = mean (map StageDf.ttft_p50_s g)
        /\ Agg.ttft_p90_s o = mean (map StageDf.ttft_p90_s g)
        /\ Agg.itl_p50_s o = mean (map StageDf.itl_p50_s g)
        /\ Agg.itl_p90_s o = mean (map StageDf.itl_p90_s g)).
Proof.
  destruct (aggregate_per_qps_rows df served_mode cap_served) as [mode E].
  cbv zeta. rewrite E. split.
  - intros r Hr Hq. rewrite filter_length_map.
    set (k := (StageDf.experiment r, StageDf.requested_qps r)).
    assert (Hk : stage_key r = Some k).
    { unfold stage_key. rewrite Hq. reflexivity. }
    rewrite (filter_length_perm _ _ _ (sort_by_perm key_leb _)).
    rewrite (filter_ext _ (fun k' => key_eqb k' k)).
    + apply (unique_count key_eqb key_eqb_sym key_eqb_trans).
      * apply (proj2 (present_keys_In stage_key df k)). exists r. auto.
      * exact (stage_key_refl r k Hk).
    + intros k'. unfold Spec.same_pair, Spec.same_rate, key_eqb. cbn.
      rewrite Hq, andb_false_r. reflexivity.
  - intros o Ho. apply in_map_iff in Ho. destruct Ho as (k & <- & Hk).
    apply sort_by_In, unique_In in Hk.
    apply (proj1 (present_keys_In stage_key df k)) in Hk.
    destruct Hk as (r & Hr & Hk).
    pose proof (stage_key_refl r k Hk) as Hrefl.
    apply stage_key_Some in Hk. destruct Hk as [Hq ->].
    cbn. split; [exact Hq |]. split; [| repeat split].
    intros G.
    assert (Hin : In r (Spec.group_of df (StageDf.experiment r)
                                      (StageDf.requested_qps r))).
    { apply filter_In. split; [exact Hr | exact Hrefl]. }
    rewrite G in Hin. destruct Hin.
Qed.

Lemma C2_aggregate_per_qps_witness :
  In Ex.row_a2 Ex.stage_df
  /\ List.length
       (filter (fun o => Spec.same_pair o Ex.row_a2)
               (aggregate_per_qps Ex.stage_df "total" true)) = 1
  /\ List.length (aggregate_per_qps Ex.stage_df "total" true) = 3.
Proof.
  split; [right; right; left; reflexivity |].
  split; [| reflexivity].
  apply (proj1 (C2_aggregate_per_qps Ex.stage_df "total" true)).
  - right; right; left; reflexivity.
  - reflexivity.
Defined.

Example aggregate_stage_df :
  map (fun o => (Agg.experiment o, Agg.requested_qps o, Agg.successes o,
                 Agg.duration_s o, Agg.ttft_mean_s o))
      (aggregate_per_qps Ex.stage_df "total" true)
  = [ ("expA", Num 2, 7%Z, Num (30 # 1), Num (1 # 2));
      ("expA", Num 4, 1%Z, Num (10 # 1), Num 1);
      ("expB", Num 2, 5%Z, Num (10 # 1), Num (1 # 4)) ].
Proof. vm_compute. reflexivity. Qed.

(** C2 as stated fails: the stage files of expA (rate 2) and of expD
    (no rate recorded) make a table of two distinct pairs, and the
    aggregated table has no row for the second one. *)
Lemma C2_counterexample :
  exists df,
    build_stage_df Ex.lib Ex.fs "/runs" [Ex.good_path; Ex.no_rate_path]
    = Ok (Some df)
    /\ List.length df = 2
    /\ List.length (aggregate_per_qps df "total" true) = 1
    /\ ~ Spec.one_row_per_pair df (aggregate_per_qps df "total" true).
Proof.
  eexists. split; [vm_compute; reflexivity |].
  split; [reflexivity |]. split; [reflexivity |].
  intros H.
  match type of H with
  | Spec.one_row_per_pair [?r1; ?r2] _ =>
      specialize (H r2 (or_intror (or_introl eq_refl)))
  end.
  vm_compute in H. discriminate H.
Qed.

(** ** Sums and means when no value is missing *)

Lemma sumZ_from l a : fold_left Z.add l a = (a + Spec.Zsum l)%Z.
Proof.
  unfold Spec.Zsum.
  revert a. induction l as [| x l IH]; intros a; cbn; [lia |].
  rewrite IH. lia.
Qed.

Lemma sumZ_Zsum l : sumZ l = Spec.Zsum l.
Proof. unfold sumZ. rewrite sumZ_from. lia. Qed.

Lemma total_from qs a :
  exists x, fold_left add (map Num qs) (Num a) = Num x
            /\ (x == a + Spec.Qsum qs)%Q.
Proof.
  unfold Spec.Qsum.
  revert a. induction qs as [| p qs IH]; intros a; cbn.
  - exists a. split; [reflexivity | ring].
  - destruct (IH (a + p)%Q) as (x & E & Hx). exists x.
    split; [exact E |]. rewrite Hx. ring.
Qed.

Lemma valid_Num qs : valid (map Num qs) = map Num qs.
Proof.
  unfold valid. induction qs as [| p qs IH]; cbn; [reflexivity |].
  f_equal. exact IH.
Qed.

(** Over values that are all present the mean is the arithmetic mean. *)
Lemma mean_all_present qs :
  qs <> [] ->
  exists x, mean (map Num qs) = Num x
            /\ (x == Spec.Qsum qs / inject_Z (Z.of_nat (List.length qs)))%Q.
Proof.
  intros Hne. unfold mean. rewrite valid_Num.
  destruct qs as [| p qs]; [contradiction |].
  change (map Num (p :: qs)) with (Num p :: map Num qs). cbv iota beta.
  change (Num p :: map Num qs) with (map Num (p :: qs)).
  rewrite length_map. unfold total.
  destruct (total_from (p :: qs) 0) as (x & E & Hx). rewrite E.
  unfold div, of_Z.
  assert (N : Qeq_bool (inject_Z (Z.of_nat (List.length (p :: qs)))) 0 = false).
  { apply not_true_is_false. rewrite Qeq_bool_iff.
    unfold Qeq. cbn. lia. }
  rewrite N. eexists. split; [reflexivity |].
  rewrite Hx. rewrite Qplus_0_l. reflexivity.
Qed.

(* ------------------------------------------------------------------ *)
(** * Verification: the summary across QPS *)

Lemma in_group_rows_of agg k :
  filter (in_group exp_key String.eqb k) agg = Spec.rows_of agg k.
Proof. reflexivity. Qed.

(** The experiments of a table, distinct and sorted: the index of every
    per-experiment Series. *)
Lemma by_experiment_keys agg :
  by_experiment agg
  = map (fun k => (k, Spec.rows_of agg k))
        (sort_by String.leb (unique String.eqb (present_keys exp_key agg))).
Proof. reflexivity. Qed.

Lemma grouped_keys {A} (f : list Agg.row -> A) agg :
  grouped f agg
  = map (fun k => (k, f (Spec.rows_of agg k)))
        (sort_by String.leb (unique String.eqb (present_keys exp_key agg))).
Proof.
  unfold grouped. rewrite by_experiment_keys, map_map. reflexivity.
Qed.

Section Keyed.
Variable keys : list string.

Lemma assoc_keyed {A} (F : string -> A) k :
  In k keys -> assoc k (map (fun k => (k, F k)) keys) = Some (F k).
Proof.
  induction keys as [| a l IH]; cbn; [tauto |].
  destruct (String.eqb_spec k a) as [-> | N]; [reflexivity |].
  intros [E | H]; [congruence | exact (IH H)].
Qed.

(** Two Series with the same index combine cell by cell. *)
Lemma zip_with_keyed {A B C} (op : A -> option B -> C)
  (F : string -> A) (G : string -> B) :
  zip_with op (map (fun k => (k, F k)) keys) (map (fun k => (k, G k)) keys)
  = map (fun k => (k, op (F k) (Some (G k)))) keys.
Proof.
  unfold zip_with. rewrite map_map. apply map_ext_in. intros k Hk. cbn.
  rewrite (assoc_keyed G k Hk). reflexivity.
Qed.

Lemma nth_keyed {A} (F : string -> A) i d :
  i < List.length keys ->
  nth i (values (map (fun k => (k, F k)) keys)) d = F (nth i keys ""%string).
Proof.
  intros Hi. unfold values. rewrite map_map. cbn.
  rewrite (nth_indep _ d (F ""%string)) by (rewrite length_map; exact Hi).
  apply map_nth.
Qed.

End Keyed.

Lemma map_nth_seq {A} (l : list A) d :
  map (fun i => nth i l d) (seq 0 (List.length l)) = l.
Proof.
  induction l as [| x l IH]; [reflexivity |].
  cbn [List.length seq map nth]. f_equal.
  rewrite <- seq_shift, map_map. exact IH.
Qed.


Lemma summary_frame_index agg served_mode :
  map Summary.experiment (summary_frame agg served_mode)
  = sort_by String.leb (unique String.eqb (present_keys exp_key agg)).
Proof.
  unfold summary_frame. cbv zeta. rewrite map_map.
  cbn [Summary.experiment]. rewrite map_nth_seq.
  rewrite grouped_keys, map_map. cbn [fst]. apply map_id.
Qed.



(** The summary is the assembled frame with the baseline column filled in
    and its rows reordered. *)
Lemma build_summary_rows agg served_mode cap_served baseline s :
  In s (_build_summary_across_qps agg served_mode cap_served baseline) ->
  exists r d, In r (summary_frame agg served_mode) /\ s = set_delta r d.
Proof.
  unfold _build_summary_across_qps. destruct agg as [| a agg]; [intros [] |].
  intros H. apply sort_by_In in H. apply in_map_iff in H.
  destruct H as (r & <- & Hr). eauto.
Qed.


(** ** The overall value of one experiment *)








Example summary_of_stage_df :
  map (fun s => (Summary.experiment s, Summary.successes s,
                 Summary.ttft_mean_s_overall s))
      (_build_summary_across_qps
         (aggregate_per_qps Ex.stage_df "total" true) "total" true None)
  = [ ("expB", 5%Z, Num (5 # 20)); ("expA", 8%Z, Num (9 # 16)) ].
Proof. vm_compute. reflexivity. Qed.

(* ------------------------------------------------------------------ *)
(** * More on the per-request file *)

Lemma handle_request_not_counted lib obj s :
  Spec.counted obj = false -> handle_request lib obj s = (s, Ok tt).
Proof.
  unfold Spec.counted, handle_request.
  destruct obj as [| b | x | t | items | members | p |]; cbn;
    try reflexivity.
  unfold bindS, lift. cbn.
  destruct (assoc "error" members) as [[] |]; cbn; try reflexivity; discriminate.
Qed.

(** X1.  Requests that are not dicts or that carry a non-null [error] are
    ignored: the scan of a list of requests ends in the same state, normally
    or not, as the scan of the list without them. *)
Theorem failed_requests_ignored lib objs s :
  for_each (handle_request lib) objs s
  = for_each (handle_request lib) (filter Spec.counted objs) s.
Proof.
  revert s. induction objs as [| obj objs IH]; intros s; [reflexivity |].
  cbn [filter]. destruct (Spec.counted obj) eqn:C.
  - cbn [for_each]. unfold bindS.
    destruct (handle_request lib obj s) as [s' [[] | e]]; [apply IH | reflexivity].
  - cbn [for_each]. unfold bindS.
    rewrite (handle_request_not_counted lib obj s C). apply IH.
Qed.

(** X2.  An exception raised while a request is handled ends the scan: the
    requests that follow it in the file change nothing, neither the totals
    nor the samples. *)
Theorem exception_ends_scan {A} (body : A -> St unit) before bad after s s1 s2 e :
  for_each body before s = (s1, Ok tt) ->
  body bad s1 = (s2, Raise e) ->
  for_each body (before ++ bad :: after) s = (s2, Raise e).
Proof.
  revert s. induction before as [| x before IH]; intros s H1 H2.
  - cbn in H1. injection H1 as ->. cbn [List.app for_each]. unfold bindS.
    rewrite H2. reflexivity.
  - cbn [List.app for_each] in *. unfold bindS in *.
    destruct (body x s) as [s' [[] | e']]; [| discriminate H1].
    apply IH; assumption.
Qed.

Lemma exception_ends_scan_witness :
  exists s1 s2 e,
    for_each (handle_request Ex.lib) [Ex.request_doc] init_state = (s1, Ok tt)
    /\ handle_request Ex.lib Ex.bad_request_doc s1 = (s2, Raise e)
    /\ for_each (handle_request Ex.lib)
         ([Ex.request_doc] ++ Ex.bad_request_doc :: [Ex.request_doc]) init_state
       = (s2, Raise e)
    /\ in_total s2 = 8%Z.
Proof.
  destruct (for_each (handle_request Ex.lib) [Ex.request_doc] init_state)
    as [s1 r1] eqn:E1.
  destruct (handle_request Ex.lib Ex.bad_request_doc s1) as [s2 r2] eqn:E2.
  assert (R1 : r1 = Ok tt).
  { vm_compute in E1. injection E1 as _ <-. reflexivity. }
  subst r1.
  assert (R2 : r2 = Raise ValueError /\ in_total s2 = 8%Z).
  { vm_compute in E1. injection E1 as <-. vm_compute in E2.
    injection E2 as <- <-. split; reflexivity. }
  destruct R2 as [-> I].
  exists s1, s2, ValueError.
  split; [reflexivity |]. split; [exact E2 |]. split; [| exact I].
  exact (exception_ends_scan (handle_request Ex.lib) [Ex.request_doc]
           Ex.bad_request_doc [Ex.request_doc] init_state s1 s2 ValueError E1 E2).
Defined.

(** ** Token times *)

Lemma every_other_paired ts :
  every_other (Spec.paired ts) = map JNum ts.
Proof.
  induction ts as [| t ts IH]; [reflexivity |].
  cbn [Spec.paired flat_map List.app every_other map]. f_equal. exact IH.
Qed.

(** X3.  When an emitter logs every token time twice, as a start/end pair, the
    token start times that are used hold each time once. *)
Theorem token_starts_of_paired ts :
  token_starts_of (Spec.paired ts) = map JNum ts.
Proof.
  destruct ts as [| t ts]; [reflexivity |].
  unfold token_starts_of.
  change (Spec.paired (t :: ts)) with (JNum t :: JNum t :: Spec.paired ts).
  cbn [py_eq].
  assert (E : Qeq_bool t t = true) by (apply Qeq_bool_iff; reflexivity).
  rewrite E.
  change (JNum t :: JNum t :: Spec.paired ts) with (Spec.paired (t :: ts)).
  apply every_other_paired.
Qed.

(** X4.  On token times that [float] converts, the inter-token loop raises
    nothing and appends exactly the differences between successive times
    that are [>= 0], in order; the totals and the TTFT samples are
    untouched. *)
Theorem itl_loop_numeric lib prev times p ts s :
  py_float lib prev = Ok p ->
  mapM (py_float lib) times = Ok ts ->
  itl_loop lib prev times s
  = (Spec.with_itl s (filter ge0 (Spec.diffs p ts)), Ok tt).
Proof.
  revert prev p ts s. induction times as [| t times IH]; intros prev p ts s Hp Ht.
  - cbn in Ht. injection Ht as <-. cbn. unfold ret, Spec.with_itl.
    rewrite app_nil_r. destruct s; reflexivity.
  - cbn [mapM] in Ht. bind_ok Ht. injection Ht as <-.
    cbn [itl_loop Spec.diffs filter]. unfold bindS, lift. rewrite E, Hp.
    destruct (ge0 (fsub a p)) eqn:D.
    + unfold append_itl, modify. rewrite (IH t a a0 _ E E0).
      unfold Spec.with_itl. cbn. rewrite <- app_assoc. reflexivity.
    + unfold ret. rewrite (IH t a a0 _ E E0). reflexivity.
Qed.

Lemma itl_loop_numeric_witness :
  py_float Ex.lib (JNum (3 # 2)) = Ok (Fin (3 # 2))
  /\ mapM (py_float Ex.lib) [JNum (5 # 2); JNum 2; JInf true]
     = Ok [Fin (5 # 2); Fin 2; FInf true]
  /\ exists d,
       itl_samples
         (fst (itl_loop Ex.lib (JNum (3 # 2)) [JNum (5 # 2); JNum 2; JInf true]
                 init_state))
       = [Fin d; FInf true]
       /\ (d == 1)%Q.
Proof.
  split; [reflexivity |]. split; [reflexivity |].
  rewrite (itl_loop_numeric Ex.lib (JNum (3 # 2))
             [JNum (5 # 2); JNum 2; JInf true]
             (Fin (3 # 2)) [Fin (5 # 2); Fin 2; FInf true] init_state
             eq_refl eq_refl).
  eexists. split; [vm_compute; reflexivity | reflexivity].
Defined.

(** [float] of an integer of more than 53 bits rounds it: of two token
    times one apart beyond 2^53, the later one first, the difference that
    is collected is 0.0. *)
Example itl_loop_rounds_integers :
  exists d,
    itl_loop Ex.lib (JNum 1700000000000000001) [JNum 1700000000000000000]
      init_state
    = ({| in_total := 0; out_total := 0; ttft_samples := [];
          itl_samples := [Fin d] |}, Ok tt)
    /\ (d == 0)%Q.
Proof. eexists. split; [vm_compute; reflexivity | reflexivity]. Qed.

(** [float] of an integer beyond the float range raises, and the loop
    with it. *)
Example itl_loop_overflows :
  itl_loop Ex.lib (JNum 1) [JNum (inject_Z (10 ^ 400))] init_state
  = (init_state, Raise OverflowError).
Proof. vm_compute. reflexivity. Qed.

(* ------------------------------------------------------------------ *)
(** * Experiment labels and stage indices *)

Lemma snoc_no_char c cur a :
  Spec.has_char c cur = false -> Ascii.eqb a c = false ->
  Spec.has_char c (snoc cur a) = false.
Proof.
  intros H Ha. unfold snoc. induction cur as [| b cur IH]; cbn in *.
  - rewrite Ha. reflexivity.
  - apply orb_false_iff in H. destruct H as [H1 H2].
    rewrite H1. cbn. apply IH. exact H2.
Qed.

(** No part of a split path holds a separator. *)
Lemma split_slash_from_no_slash s :
  forall cur p,
    Spec.has_char "/" cur = false -> In p (split_slash_from cur s) ->
    Spec.has_char "/" p = false.
Proof.
  induction s as [| a s IH]; intros cur p Hc Hp; cbn in Hp.
  - destruct Hp as [<- | []]. exact Hc.
  - destruct (Ascii.eqb a "/") eqn:E.
    + destruct Hp as [<- | Hp]; [exact Hc |]. apply (IH EmptyString p); auto.
    + apply (IH (snoc cur a) p); [| exact Hp]. apply snoc_no_char; assumption.
Qed.

Lemma drop_0 s : Analyze.drop 0 s = s.
Proof.
  unfold Analyze.drop. rewrite Nat.sub_0_r.
  induction s as [| a s IH]; cbn; [reflexivity |]. f_equal. exact IH.
Qed.

Lemma substring_0_length s : String.substring 0 (String.length s) s = s.
Proof. induction s as [| a s IH]; cbn; [reflexivity |]. f_equal. exact IH. Qed.

(** What follows the last separator holds none. *)
Lemma after_last_slash_spec s :
  Spec.has_char "/"
    (String.substring (after_last_slash s)
                      (String.length s - after_last_slash s) s) = false
  /\ (after_last_slash s = 0 -> Spec.has_char "/" s = false).
Proof.
  induction s as [| a s [IH1 IH2]]; [split; reflexivity |].
  cbn [after_last_slash].
  destruct (after_last_slash s) as [| r] eqn:R.
  - cbn [Nat.ltb Nat.leb]. specialize (IH2 eq_refl).
    destruct (Ascii.eqb a "/") eqn:E.
    + split; [| discriminate].
      cbn [String.length].
      replace (S (String.length s) - 1) with (String.length s) by lia.
      cbn [String.substring]. rewrite substring_0_length. exact IH2.
    + assert (H : Spec.has_char "/" (String a s) = false).
      { cbn. rewrite E, IH2. reflexivity. }
      split; [| intros _; exact H].
      rewrite Nat.sub_0_r, substring_0_length. exact H.
  - change (Nat.ltb 0 (S r)) with true. cbv iota.
    split; [| discriminate].
    cbn [String.length Nat.sub String.substring]. exact IH1.
Qed.

Lemma basename_no_slash p : Spec.has_char "/" (basename p) = false.
Proof. unfold basename. exact (proj1 (after_last_slash_spec p)). Qed.

(** X6.  The experiment label is never empty and never holds a path separator,
    whatever [os.path.relpath] returns. *)
Theorem top_level_label_is_a_name lib base_dir path :
  top_level_label lib base_dir path <> EmptyString
  /\ Spec.has_char "/" (top_level_label lib base_dir path) = false.
Proof.
  unfold top_level_label.
  destruct (filter _ (split_slash _)) as [| p parts] eqn:F.
  - destruct (is_empty (basename (dirname path))) eqn:B.
    + split; [discriminate | reflexivity].
    + split; [| apply basename_no_slash].
      intros E. rewrite E in B. discriminate B.
  - assert (Hp : In p (p :: parts)) by (left; reflexivity).
    rewrite <- F in Hp. apply filter_In in Hp. destruct Hp as [Hin Hp].
    apply andb_true_iff in Hp. destruct Hp as [Hp _].
    split.
    + intros E. rewrite E in Hp. discriminate Hp.
    + apply (split_slash_from_no_slash _ EmptyString p eq_refl Hin).
Qed.

(** ** The stage index in a file name *)

Lemma prefix_append a b : String.prefix a (a ++ b) = true.
Proof.
  apply String.prefix_correct.
  induction a as [| c a IH]; cbn; [destruct b; reflexivity |].
  f_equal. exact IH.
Qed.

Lemma drop_append a b : Analyze.drop (String.length a) (a ++ b) = b.
Proof.
  unfold Analyze.drop. induction a as [| c a IH]; cbn.
  - rewrite Nat.sub_0_r. apply substring_0_length.
  - exact IH.
Qed.

Lemma take_digits_decimal d c rest :
  is_digit c = false ->
  take_digits (NilEmpty.string_of_uint d ++ String c rest)
  = NilEmpty.string_of_uint d.
Proof.
  intros Hc. induction d; cbn [NilEmpty.string_of_uint String.append take_digits];
    try (change (is_digit _) with true; cbv iota; f_equal; assumption).
  rewrite Hc. reflexivity.
Qed.

(** Reading the digits of a decimal numeral gives its value. *)
Lemma int_of_digits_decimal d acc :
  int_of_digits (Z.of_nat acc) (NilEmpty.string_of_uint d)
  = Z.of_nat (Nat.of_uint_acc d acc).
Proof.
  revert acc. induction d; intros acc;
    cbn [NilEmpty.string_of_uint int_of_digits Nat.of_uint_acc];
    [reflexivity | ..];
    rewrite <- IHd; f_equal; rewrite Nat.tail_mul_spec;
    match goal with
    | |- context [code ?c] =>
        let v := eval vm_compute in (code c) in change (code c) with v
    end;
    lia.
Qed.

Lemma to_uint_not_nil n : Nat.to_uint n <> Decimal.Nil.
Proof.
  intros E. pose proof (DecimalNat.Unsigned.of_to n) as H. rewrite E in H.
  cbn in H. subst n. discriminate E.
Qed.

(** X7.  The stage index read from the name of the metrics file of stage [n] is
    [n]. *)
Theorem stage_index_of_stage_file_name n :
  stage_index_of (Spec.stage_file_name n) = Some (Z.of_nat n).
Proof.
  unfold stage_index_of, Spec.stage_file_name, Spec.decimal, startswith.
  rewrite prefix_append.
  change 6 with (String.length "stage_"). rewrite drop_append.
  set (d := Nat.to_uint n).
  change ("_lifecycle_metrics.json"%string)
    with (String "_"%char "lifecycle_metrics.json").
  rewrite (take_digits_decimal d "_"%char "lifecycle_metrics.json" eq_refl).
  rewrite drop_append.
  assert (Hd : is_empty (NilEmpty.string_of_uint d) = false).
  { pose proof (to_uint_not_nil n) as H. fold d in H.
    destruct d; cbn; try reflexivity. contradiction. }
  rewrite Hd. cbn [negb andb].
  change (String.prefix (String "_"%char "lifecycle_metrics.json")
            (String "_"%char "lifecycle_metrics.json")) with true.
  cbv iota. f_equal.
  change 0%Z with (Z.of_nat 0). rewrite int_of_digits_decimal.
  fold (Nat.of_uint d). unfold d. rewrite DecimalNat.Unsigned.of_to. reflexivity.
Qed.

Example stage_index_of_other_names :
  stage_index_of "stage_12_lifecycle_metrics.json" = Some 12%Z
  /\ stage_index_of "stage_007_lifecycle_metrics.json.bak" = Some 7%Z
  /\ stage_index_of "stage__lifecycle_metrics.json" = None
  /\ stage_index_of "per_request_lifecycle_metrics.json" = None.
Proof. repeat split; reflexivity. Qed.

(* ------------------------------------------------------------------ *)
(** * Order and totals of the aggregated tables *)

Section SortedFacts.
Context {R : Type} (leb : R -> R -> bool).
Hypothesis leb_total : forall a b, leb a b = false -> leb b a = true.

Lemma insert_by_hdrel y x l :
  leb y x = true -> HdRel (fun a b => leb a b = true) y l ->
  HdRel (fun a b => leb a b = true) y (insert_by leb x l).
Proof.
  intros Hyx H. destruct l as [| z l]; cbn; [constructor; exact Hyx |].
  destruct (leb x z); constructor; [exact Hyx |].
  inversion H; assumption.
Qed.

Lemma insert_by_sorted x l :
  Sorted (fun a b => leb a b = true) l ->
  Sorted (fun a b => leb a b = true) (insert_by leb x l).
Proof.
  induction 1 as [| y l Hl IH Hy]; cbn; [repeat constructor |].
  destruct (leb x y) eqn:E.
  - constructor; [constructor; assumption | constructor; exact E].
  - constructor; [exact IH |].
    apply insert_by_hdrel; [apply leb_total; exact E | exact Hy].
Qed.

(** With a total comparison, every row of a sorted table is ordered before
    the next one. *)
Lemma sort_by_sorted l : Sorted (fun a b => leb a b = true) (sort_by leb l).
Proof.
  induction l as [| x l IH]; cbn; [constructor |].
  apply insert_by_sorted. exact IH.
Qed.

End SortedFacts.

Lemma Sorted_map {A B} (f : A -> B) (P : B -> B -> Prop) l :
  Sorted (fun a b => P (f a) (f b)) l -> Sorted P (map f l).
Proof.
  induction 1 as [| x l Hl IH Hx]; cbn; constructor; [exact IH |].
  destruct Hx; cbn; constructor. assumption.
Qed.

Lemma cell_compare_antisym a b : cell_compare a b = CompOpp (cell_compare b a).
Proof.
  destruct a as [p | | [|]], b as [q | | [|]]; cbn; try reflexivity.
  symmetry. apply Qcompare_antisym.
Qed.

Lemma key_compare_antisym asc a b :
  key_compare asc a b = CompOpp (key_compare asc b a).
Proof.
  unfold key_compare. destruct (isna a), (isna b); try reflexivity.
  destruct asc; apply cell_compare_antisym.
Qed.

Lemma lex_antisym c1 c1' c2 c2' :
  c1 = CompOpp c1' -> c2 = CompOpp c2' -> lex c1 c2 = CompOpp (lex c1' c2').
Proof. intros -> ->. destruct c1'; reflexivity. Qed.

Lemma not_after_total c c' :
  c = CompOpp c' -> not_after c = false -> not_after c' = true.
Proof. intros ->. destruct c'; cbn; congruence. Qed.

Lemma summary_order_total a b :
  summary_order a b = false -> summary_order b a = true.
Proof.
  unfold summary_order. apply not_after_total.
  repeat apply lex_antisym; apply key_compare_antisym.
Qed.

(** X10.  The summary comes ordered for display: every row is placed before the
    next one by output tokens per second (highest first), then success rate
    (highest first), then mean TTFT (lowest first), a missing value coming
    after any number. *)
Theorem summary_rows_ordered agg served_mode cap_served baseline :
  Sorted (fun a b => summary_order a b = true)
         (_build_summary_across_qps agg served_mode cap_served baseline).
Proof.
  unfold _build_summary_across_qps. destruct agg as [| r agg]; [constructor |].
  apply sort_by_sorted. exact summary_order_total.
Qed.

Lemma key_leb_total a b : key_leb a b = false -> key_leb b a = true.
Proof.
  unfold key_leb. apply not_after_total.
  apply lex_antisym; [apply String.compare_antisym | apply cell_compare_antisym].
Qed.

(** X8.  The aggregated table lists its rows by experiment, then by requested
    rate: every row is ordered before the next one. *)
Theorem aggregate_rows_ordered df served_mode cap_served :
  Sorted (fun a b =>
            key_leb (Agg.experiment a, Agg.requested_qps a)
                    (Agg.experiment b, Agg.requested_qps b) = true)
         (aggregate_per_qps df served_mode cap_served).
Proof.
  destruct (aggregate_per_qps_rows df served_mode cap_served) as [mode E].
  rewrite E. apply Sorted_map. cbn [Agg.experiment Agg.requested_qps agg_row_of].
  eapply Sorted_ind with (P := fun l => Sorted _ l);
    [constructor | | apply (sort_by_sorted key_leb key_leb_total)].
  intros k l _ IH Hk. constructor; [exact IH |].
  destruct Hk as [| k' l Hk]; constructor. destruct k, k'. exact Hk.
Qed.

(* ------------------------------------------------------------------ *)
(** * Aggregation keeps the totals *)

Lemma Zsum_app l l' : Spec.Zsum (l ++ l') = (Spec.Zsum l + Spec.Zsum l')%Z.
Proof.
  unfold Spec.Zsum. induction l as [| x l IH]; cbn; [reflexivity |].
  rewrite IH. lia.
Qed.

Lemma Zsum_perm l l' : Permutation l l' -> Spec.Zsum l = Spec.Zsum l'.
Proof.
  unfold Spec.Zsum.
  induction 1 as [| x l l' _ IH | x y l | l l' l'' _ IH1 _ IH2]; cbn; lia.
Qed.

Section GroupTotals.
Context {R K : Type} (p : K -> R -> bool) (f : R -> Z).

(** The total of one row over the groups that hold it. *)
Lemma one_row_over_groups r (X : K -> Z) ks :
  Spec.Zsum (map (fun k => if p k r then (f r + X k)%Z else X k) ks)
  = (f r * Z.of_nat (List.length (filter (fun k => p k r) ks))
     + Spec.Zsum (map X ks))%Z.
Proof.
  unfold Spec.Zsum. induction ks as [| k ks IH]; cbn [map fold_right filter].
  - cbn. lia.
  - rewrite IH. destruct (p k r); cbn [List.length]; lia.
Qed.

(** Summing group by group counts every row once for each group it is in. *)
Lemma total_over_groups rows ks :
  Spec.Zsum (map (fun k => Spec.Zsum (map f (filter (p k) rows))) ks)
  = Spec.Zsum
      (map (fun r => (f r * Z.of_nat (List.length (filter (fun k => p k r) ks)))%Z)
           rows).
Proof.
  induction rows as [| r rows IH].
  - cbn. unfold Spec.Zsum. induction ks; cbn; lia.
  - cbn [map filter].
    rewrite (map_ext _ (fun k => if p k r
                                 then (f r + Spec.Zsum (map f (filter (p k) rows)))%Z
                                 else Spec.Zsum (map f (filter (p k) rows)))).
    + rewrite one_row_over_groups, IH. unfold Spec.Zsum. cbn. lia.
    + intros k. destruct (p k r); reflexivity.
Qed.

End GroupTotals.

(** A row with a key is in exactly one group, a row without one in none. *)
Lemma groups_of_row {R K} (key : R -> option K) (eqb leb : K -> K -> bool)
  rows r :
  (forall a b, eqb a b = eqb b a) ->
  (forall a b c, eqb a b = true -> eqb b c = true -> eqb a c = true) ->
  (forall r k, key r = Some k -> eqb k k = true) ->
  In r rows ->
  List.length
    (filter (fun k => in_group key eqb k r)
            (sort_by leb (unique eqb (present_keys key rows))))
  = match key r with Some _ => 1 | None => 0 end.
Proof.
  intros Hs Ht Hr Hin. unfold in_group.
  destruct (key r) as [k0 |] eqn:E.
  - rewrite (filter_length_perm _ _ _ (sort_by_perm leb _)).
    rewrite (filter_ext _ (fun k => eqb k k0)) by (intros k; apply Hs).
    apply (unique_count eqb Hs Ht).
    + apply (proj2 (present_keys_In key rows k0)). exists r. auto.
    + exact (Hr r k0 E).
  - induction (sort_by leb _) as [| k ks IH]; [reflexivity | exact IH].
Qed.

(** The total of a column over all groups is its total over the rows that
    have a key. *)
Lemma grouped_total {R K} (key : R -> option K) (eqb leb : K -> K -> bool)
  (f : R -> Z) rows :
  (forall a b, eqb a b = eqb b a) ->
  (forall a b c, eqb a b = true -> eqb b c = true -> eqb a c = true) ->
  (forall r k, key r = Some k -> eqb k k = true) ->
  Spec.Zsum
    (map (fun k => Spec.Zsum (map f (filter (in_group key eqb k) rows)))
         (sort_by leb (unique eqb (present_keys key rows))))
  = Spec.Zsum
      (map f (filter (fun r => match key r with Some _ => true | None => false end)
                     rows)).
Proof.
  intros Hs Ht Hr. rewrite total_over_groups.
  set (ks := sort_by leb (unique eqb (present_keys key rows))).
  assert (H : forall r, In r rows ->
              List.length (filter (fun k => in_group key eqb k r) ks)
              = match key r with Some _ => 1 | None => 0 end).
  { intros r Hin. apply groups_of_row; assumption. }
  clearbody ks. induction rows as [| r rows IH]; [reflexivity |].
  cbn [map filter]. unfold Spec.Zsum in *. cbn [fold_right].
  rewrite IH by (intros r' Hr'; apply H; right; exact Hr').
  rewrite (H r (or_introl eq_refl)).
  destruct (key r); cbn [map fold_right]; lia.
Qed.

(** X9.  Aggregation keeps the counts: the successes, failures and token totals
    of the aggregated rows add up to those of the stage records that have
    a requested rate. *)
Theorem aggregate_keeps_totals df served_mode cap_served :
  let out := aggregate_per_qps df served_mode cap_served in
  let kept := filter (fun r => notna (StageDf.requested_qps r)) df in
  sumZ (map Agg.successes out) = sumZ (map StageDf.successes kept)
  /\ sumZ (map Agg.failures out) = sumZ (map StageDf.failures kept)
  /\ sumZ (map Agg.input_tokens_total out)
     = sumZ (map StageDf.input_tokens_total kept)
  /\ sumZ (map Agg.output_tokens_total out)
     = sumZ (map StageDf.output_tokens_total kept).
Proof.
  cbv zeta.
  assert (G : forall (col : Agg.row -> Z) (f : StageDf.row -> Z),
             (forall mode k g, col (agg_row_of mode k g) = sumZ (map f g)) ->
             sumZ (map col (aggregate_per_qps df served_mode cap_served))
             = sumZ (map f (filter (fun r => notna (StageDf.requested_qps r)) df))).
  { intros col f Hcol.
    destruct (aggregate_per_qps_rows df served_mode cap_served) as [mode E].
    rewrite E, map_map, !sumZ_Zsum.
    rewrite (map_ext _ (fun k => Spec.Zsum
                                   (map f (filter (in_group stage_key key_eqb k) df)))).
    - rewrite (grouped_total stage_key key_eqb key_leb f df
                 key_eqb_sym key_eqb_trans stage_key_refl).
      f_equal. f_equal. apply filter_ext. intros r. unfold stage_key, notna.
      destruct (isna (StageDf.requested_qps r)); reflexivity.
    - intros k. rewrite Hcol, sumZ_Zsum, in_group_group_of. reflexivity. }
  repeat split; apply G; intros; reflexivity.
Qed.

(* ------------------------------------------------------------------ *)
(** * More on the summary across QPS *)

Lemma values_keyed {A} (F : string -> A) keys :
  values (map (fun k => (k, F k)) keys) = map F keys.
Proof. unfold values. rewrite map_map. reflexivity. Qed.

Lemma map_nth_seq' {A} (l : list A) d n :
  n = List.length l -> map (fun i => nth i l d) (seq 0 n) = l.
Proof. intros ->. apply map_nth_seq. Qed.

(** The integer columns of the assembled frame, experiment by experiment. *)
Lemma summary_frame_counts agg served_mode :
  let keys := sort_by String.leb (unique String.eqb (present_keys exp_key agg)) in
  map Summary.successes (summary_frame agg served_mode)
  = map (fun k => sumZ (map Agg.successes (Spec.rows_of agg k))) keys
  /\ map Summary.failures (summary_frame agg served_mode)
     = map (fun k => sumZ (map Agg.failures (Spec.rows_of agg k))) keys
  /\ map Summary.input_tokens_total (summary_frame agg served_mode)
     = map (fun k => sumZ (map Agg.input_tokens_total (Spec.rows_of agg k))) keys
  /\ map Summary.output_tokens_total (summary_frame agg served_mode)
     = map (fun k => sumZ (map Agg.output_tokens_total (Spec.rows_of agg k))) keys.
Proof.
  cbv zeta. unfold summary_frame. cbv zeta.
  rewrite !map_map.
  cbn [Summary.successes Summary.failures Summary.input_tokens_total
       Summary.output_tokens_total].
  rewrite !grouped_keys. rewrite !values_keyed.
  repeat split; apply map_nth_seq'; rewrite !length_map; reflexivity.
Qed.

Lemma filter_all {A} (p : A -> bool) l :
  (forall x, p x = true) -> filter p l = l.
Proof.
  intros H. induction l as [| x l IH]; cbn; [reflexivity |].
  rewrite H, IH. reflexivity.
Qed.

Lemma sumZ_perm l l' : Permutation l l' -> sumZ l = sumZ l'.
Proof. intros H. rewrite !sumZ_Zsum. apply Zsum_perm. exact H. Qed.

Lemma build_summary_perm agg served_mode cap_served baseline :
  exists d,
    Permutation
      (_build_summary_across_qps agg served_mode cap_served baseline)
      (map (fun r => set_delta r (d r)) (summary_frame agg served_mode)).
Proof.
  unfold _build_summary_across_qps. destruct agg as [| a agg].
  - exists (fun _ => NaN). reflexivity.
  - eexists. apply sort_by_perm.
Qed.

(** X11.  The summary keeps the counts: the successes, failures and token totals
    of its rows add up to those of the aggregated table. *)
Theorem summary_keeps_totals agg served_mode cap_served baseline :
  let summary := _build_summary_across_qps agg served_mode cap_served baseline in
  sumZ (map Summary.successes summary) = sumZ (map Agg.successes agg)
  /\ sumZ (map Summary.failures summary) = sumZ (map Agg.failures agg)
  /\ sumZ (map Summary.input_tokens_total summary)
     = sumZ (map Agg.input_tokens_total agg)
  /\ sumZ (map Summary.output_tokens_total summary)
     = sumZ (map Agg.output_tokens_total agg).
Proof.
  cbv zeta.
  destruct (build_summary_perm agg served_mode cap_served baseline) as [d P].
  destruct (summary_frame_counts agg served_mode) as (H1 & H2 & H3 & H4).
  assert (G : forall (col : Summary.row -> Z) (f : Agg.row -> Z),
             (forall r x, col (set_delta r x) = col r) ->
             map col (summary_frame agg served_mode)
             = map (fun k => sumZ (map f (Spec.rows_of agg k)))
                   (sort_by String.leb
                      (unique String.eqb (present_keys exp_key agg))) ->
             sumZ (map col
                     (_build_summary_across_qps agg served_mode cap_served baseline))
             = sumZ (map f agg)).
  { intros col f Hd Hm.
    rewrite (sumZ_perm _ _ (Permutation_map col P)), map_map.
    rewrite (map_ext _ col) by (intros r; apply Hd).
    rewrite Hm, !sumZ_Zsum.
    rewrite (map_ext _ (fun k => Spec.Zsum
                                   (map f (filter (in_group exp_key String.eqb k) agg))))
      by (intros k; rewrite sumZ_Zsum; reflexivity).
    rewrite (grouped_total exp_key String.eqb String.leb f agg String.eqb_sym).
    - f_equal. f_equal. apply filter_all. intros r. reflexivity.
    - intros a b c Hab Hbc. apply String.eqb_eq in Hab, Hbc.
      apply String.eqb_eq. congruence.
    - intros r k _. apply String.eqb_refl. }
  repeat split; apply G; try assumption; intros; reflexivity.
Qed.

Lemma to_float_keyed (F : string -> Z) keys :
  to_float (map (fun k => (k, F k)) keys) = map (fun k => (k, of_Z (F k))) keys.
Proof. unfold to_float. rewrite map_map. reflexivity. Qed.

Lemma summary_frame_rates agg served_mode r :
  In r (summary_frame agg served_mode) ->
  let rows := Spec.rows_of agg (Summary.experiment r) in
  Summary.successes r = sumZ (map Agg.successes rows)
  /\ Summary.failures r = sumZ (map Agg.failures rows)
  /\ Summary.success_rate_overall r
     = div (of_Z (Summary.successes r))
           (add (of_Z (Summary.successes r)) (of_Z (Summary.failures r))).
Proof.
  unfold summary_frame. cbv zeta. intros H.
  apply in_map_iff in H. destruct H as (i & <- & Hi).
  apply in_seq in Hi. destruct Hi as [_ Hi]. cbn [Nat.add] in Hi.
  rewrite length_map in Hi.
  cbn [Summary.experiment Summary.successes Summary.failures
       Summary.success_rate_overall].
  unfold s_div, s_add.
  rewrite !grouped_keys in *. rewrite length_map in Hi.
  rewrite !to_float_keyed.
  rewrite (zip_with_keyed _ (fun x oy => add x (at_label oy))
             (fun k => of_Z (sumZ (map Agg.successes (Spec.rows_of agg k))))
             (fun k => of_Z (sumZ (map Agg.failures (Spec.rows_of agg k))))).
  rewrite (zip_with_keyed _ (fun x oy => div x (at_label oy))
             (fun k => of_Z (sumZ (map Agg.successes (Spec.rows_of agg k))))
             (fun k => add (of_Z (sumZ (map Agg.successes (Spec.rows_of agg k))))
                           (at_label (Some (of_Z (sumZ (map Agg.failures
                                                          (Spec.rows_of agg k)))))))).
  rewrite map_map. cbn [fst]. rewrite map_id.
  rewrite !nth_keyed by exact Hi.
  repeat split; reflexivity.
Qed.

(** X12.  In every summary row the successes and failures are the sums over the
    experiment's aggregated rows, and the overall success rate is the row's
    successes divided by its successes plus failures. *)
Theorem summary_row_counts agg served_mode cap_served baseline s :
  In s (_build_summary_across_qps agg served_mode cap_served baseline) ->
  let rows := Spec.rows_of agg (Summary.experiment s) in
  Summary.successes s = sumZ (map Agg.successes rows)
  /\ Summary.failures s = sumZ (map Agg.failures rows)
  /\ Summary.success_rate_overall s
     = div (of_Z (Summary.successes s))
           (add (of_Z (Summary.successes s)) (of_Z (Summary.failures s))).
Proof.
  intros Hs. apply build_summary_rows in Hs. destruct Hs as (r & d & Hr & ->).
  exact (summary_frame_rates agg served_mode r Hr).
Qed.

Lemma summary_row_counts_witness :
  let agg := aggregate_per_qps Ex.stage_df "total" true in
  exists s,
    In s (_build_summary_across_qps agg "total" true None)
    /\ Summary.experiment s = "expA"%string
    /\ Summary.successes s = 8%Z /\ Summary.failures s = 1%Z
    /\ Summary.success_rate_overall s
       = div (of_Z (Summary.successes s))
             (add (of_Z (Summary.successes s)) (of_Z (Summary.failures s))).
Proof.
  cbv zeta.
  set (summary := _build_summary_across_qps
                    (aggregate_per_qps Ex.stage_df "total" true) "total" true None).
  destruct (nth_error summary 1) as [s |] eqn:E; [| vm_compute in E; discriminate E].
  assert (Hin : In s summary) by (eapply nth_error_In; exact E).
  exists s. split; [exact Hin |].
  destruct (summary_row_counts _ _ _ _ s Hin) as (_ & _ & H).
  vm_compute in E. injection E as <-.
  split; [reflexivity |]. split; [reflexivity |]. split; [reflexivity |].
  exact H.
Defined.

(** ** The change against the baseline experiment *)

Lemma NoDup_map_eq {A B} (f : A -> B) l x y :
  NoDup (map f l) -> In x l -> In y l -> f x = f y -> x = y.
Proof.
  induction l as [| a l IH]; cbn; [tauto |].
  intros N Hx Hy E. inversion N as [| ? ? Na Nl]; subst.
  destruct Hx as [<- | Hx], Hy as [<- | Hy]; try reflexivity.
  - exfalso. apply Na. rewrite E. apply in_map. exact Hy.
  - exfalso. apply Na. rewrite <- E. apply in_map. exact Hx.
  - apply IH; assumption.
Qed.

Lemma find_by_label (l : list Summary.row) x :
  NoDup (map Summary.experiment l) -> In x l ->
  find (fun y => String.eqb (Summary.experiment y) (Summary.experiment x)) l
  = Some x.
Proof.
  intros N Hx. induction l as [| a l IH]; [destruct Hx |].
  cbn [find]. destruct (String.eqb_spec (Summary.experiment a) (Summary.experiment x))
    as [E | NE].
  - f_equal. apply (NoDup_map_eq Summary.experiment (a :: l)); auto.
    left; reflexivity.
  - destruct Hx as [-> | Hx]; [congruence |].
    inversion N; subst. apply IH; assumption.
Qed.

Lemma summary_frame_NoDup agg served_mode :
  NoDup (map Summary.experiment (summary_frame agg served_mode)).
Proof.
  rewrite summary_frame_index.
  apply (Permutation_NoDup (Permutation_sym (sort_by_perm String.leb _))).
  apply unique_NoDup.
Qed.

(** X13.  With a baseline experiment whose overall TTFT mean is a non-zero number,
    the baseline column of every row with a TTFT mean is
    (TTFT - baseline TTFT) / baseline TTFT * 100. *)
Theorem baseline_delta_formula agg served_mode cap_served b s0 s x0 x :
  let summary := _build_summary_across_qps agg served_mode cap_served (Some b) in
  b <> EmptyString ->
  In s0 summary -> Summary.experiment s0 = b ->
  Summary.ttft_mean_s_overall s0 = Num x0 -> ~ (x0 == 0)%Q ->
  In s summary -> Summary.ttft_mean_s_overall s = Num x ->
  Summary.ttft_delta_vs_baseline_pct_overall s
  = Num ((x - x0) / x0 * 100)%Q.
Proof.
  cbv zeta. intros Hb H0 E0 T0 Hx0 Hs T.
  unfold _build_summary_across_qps in *. destruct agg as [| a agg]; [destruct Hs |].
  set (sf := summary_frame (a :: agg) served_mode) in *.
  apply sort_by_In in H0, Hs. apply in_map_iff in H0, Hs.
  destruct H0 as (r0 & <- & Hr0). destruct Hs as (r & <- & Hr).
  cbn [set_delta Summary.experiment Summary.ttft_mean_s_overall
       Summary.ttft_delta_vs_baseline_pct_overall] in *.
  unfold baseline_delta.
  destruct b as [| c b]; [contradiction |]. cbn [is_empty].
  rewrite <- E0.
  rewrite (find_by_label sf r0 (summary_frame_NoDup (a :: agg) served_mode) Hr0).
  rewrite T0, T. cbn [notna isna negb cell_eqb andb].
  assert (Z0 : Qeq_bool x0 0 = false).
  { apply not_true_is_false. rewrite Qeq_bool_iff. exact Hx0. }
  rewrite Z0. cbn [negb]. cbn [sub neg add div mul]. rewrite Z0. reflexivity.
Qed.

Lemma baseline_delta_formula_witness :
  let summary :=
    _build_summary_across_qps (aggregate_per_qps Ex.stage_df "total" true)
                              "total" true (Some "expB"%string) in
  exists s0 s y,
    In s0 summary /\ Summary.experiment s0 = "expB"%string
    /\ In s summary /\ Summary.experiment s = "expA"%string
    /\ Summary.ttft_delta_vs_baseline_pct_overall s = Num y /\ (y == 125)%Q.
Proof.
  cbv zeta.
  set (summary := _build_summary_across_qps
                    (aggregate_per_qps Ex.stage_df "total" true) "total" true
                    (Some "expB"%string)).
  destruct (nth_error summary 0) as [s0 |] eqn:E0;
    [| vm_compute in E0; discriminate E0].
  destruct (nth_error summary 1) as [s |] eqn:E1;
    [| vm_compute in E1; discriminate E1].
  assert (H0 : In s0 summary) by (eapply nth_error_In; exact E0).
  assert (H1 : In s summary) by (eapply nth_error_In; exact E1).
  assert (F0 : Summary.experiment s0 = "expB"%string
               /\ Summary.ttft_mean_s_overall s0 = Num (5 # 20)).
  { vm_compute in E0. injection E0 as <-. split; reflexivity. }
  assert (F1 : Summary.experiment s = "expA"%string
               /\ Summary.ttft_mean_s_overall s = Num (9 # 16)).
  { vm_compute in E1. injection E1 as <-. split; reflexivity. }
  destruct F0 as [X0 T0]. destruct F1 as [X1 T1].
  assert (N : ~ (5 # 20 == 0)%Q) by (unfold Qeq; cbn; lia).
  pose proof (baseline_delta_formula _ "total"%string true "expB"%string
                s0 s (5 # 20) (9 # 16) ltac:(discriminate) H0 X0 T0 N H1 T1) as D.
  exists s0, s. eexists.
  split; [exact H0 |]. split; [exact X0 |]. split; [exact H1 |].
  split; [exact X1 |]. split; [exact D |]. reflexivity.
Defined.

(* ------------------------------------------------------------------ *)
(** * Discovery of the files *)

Lemma string_leb_flip a b : String.leb a b = false -> String.leb b a = true.
Proof.
  intros H. destruct (String.leb_total a b) as [T | T]; [congruence | exact T].
Qed.

Lemma string_leb_trans a b c :
  String.leb a b = true -> String.leb b c = true -> String.leb a c = true.
Proof.
  unfold String.leb. revert b c.
  induction a as [| x a IH]; intros [| y b] [| z c]; cbn; try congruence.
  unfold Ascii.compare.
  destruct (N.compare_spec (N_of_ascii x) (N_of_ascii y)) as [E1 | L1 | G1];
    destruct (N.compare_spec (N_of_ascii y) (N_of_ascii z)) as [E2 | L2 | G2];
    destruct (N.compare_spec (N_of_ascii x) (N_of_ascii z)) as [E3 | L3 | G3];
    try congruence; try lia.
  apply IH.
Qed.

(** The first row of a sorted list is ordered before every row. *)
Lemma sort_by_first {R} (leb : R -> R -> bool) l m rest :
  (forall a b, leb a b = false -> leb b a = true) ->
  (forall a b c, leb a b = true -> leb b c = true -> leb a c = true) ->
  sort_by leb l = m :: rest ->
  In m l /\ forall q, In q l -> leb m q = true.
Proof.
  intros Htot Htr E.
  assert (Hm : In m (sort_by leb l)) by (rewrite E; left; reflexivity).
  split; [apply sort_by_In in Hm; exact Hm |].
  pose proof (sort_by_sorted leb Htot l) as S. rewrite E in S.
  apply Sorted_StronglySorted in S; [| intros a b c; apply Htr].
  inversion S as [| ? ? _ F]; subst.
  intros q Hq. apply (sort_by_In leb) in Hq. rewrite E in Hq.
  destruct Hq as [<- | Hq].
  - destruct (leb m m) eqn:R'; [reflexivity |].
    rewrite (Htot _ _ R') in R'. discriminate R'.
  - rewrite Forall_forall in F. apply F, Hq.
Qed.

Lemma unique_complete l k : In k l -> In k (unique String.eqb l).
Proof.
  induction l as [| a l IH]; cbn; [tauto |].
  intros [-> | H]; [left; reflexivity |].
  destruct (String.eqb_spec a k) as [-> | N]; [left; reflexivity |].
  right. apply filter_In. split; [apply IH, H |].
  apply negb_true_iff. apply String.eqb_neq. exact N.
Qed.

Lemma sorted_set_spec files :
  NoDup (sorted_set files)
  /\ Sorted (fun a b => String.leb a b = true) (sorted_set files)
  /\ forall p, In p (sorted_set files) <-> In p files.
Proof.
  unfold sorted_set. split; [| split].
  - eapply Permutation_NoDup; [symmetry; apply sort_by_perm | apply unique_NoDup].
  - apply sort_by_sorted. exact string_leb_flip.
  - intros p. rewrite sort_by_In. split; [apply unique_In | apply unique_complete].
Qed.

(** X14.  The stage files come without duplicates and in ascending order of
    their paths, and they are the paths that match one of the two patterns:
    a file that both patterns match is listed once. *)
Theorem find_stage_files_listing dir root :
  let files := find_stage_files dir root in
  NoDup files
  /\ Sorted (fun a b => String.leb a b = true) files
  /\ forall p,
       In p files
       <-> exists pat, In pat (stage_patterns root) /\ In p (rglob dir pat).
Proof.
  cbv zeta. unfold find_stage_files.
  destruct (sorted_set_spec (flat_map (rglob dir) (stage_patterns root)))
    as (N & S & M).
  split; [exact N |]. split; [exact S |].
  intros p. rewrite M. apply in_flat_map.
Qed.

(** ** One row per stage file *)

Lemma parse_stage_file_source lib fs base_dir path r :
  parse_stage_file lib fs base_dir path = Ok r ->
  Analyze.source_path r = path
  /\ Analyze.experiment r = top_level_label lib base_dir path
  /\ Analyze.stage_index r = stage_index_of (basename path).
Proof.
  intros H. unfold parse_stage_file in H. bind_ok H.
  injection H as <-. repeat split; reflexivity.
Qed.

Lemma stage_rows_sources lib fs base_dir files rows :
  stage_rows lib fs base_dir files = Ok rows ->
  map Analyze.source_path rows = files.
Proof.
  unfold stage_rows. intros H. apply mapM_Forall2 in H.
  induction H as [| p r files rows Hp _ IH]; cbn; [reflexivity |].
  apply parse_stage_file_source in Hp. destruct Hp as (-> & _). rewrite IH.
  reflexivity.
Qed.

Lemma frame_of_rows rows df : frame_of rows = Some df -> df = map frame_row rows.
Proof.
  unfold frame_of. destruct rows as [| r rows]; [intros H; injection H as <-; reflexivity |].
  destruct (forallb _ _); [| discriminate].
  intros H. injection H as <-. reflexivity.
Qed.

(** X15.  The stage table built for a directory has exactly one row for each
    stage file that is discovered: the source paths of its rows are the
    discovered files, rearranged, and no path occurs twice.  The experiment
    of a row is the label of its file and its stage index the one read off
    the file name. *)
Theorem discovered_stage_df_rows lib fs dir base_dir df :
  discovered_stage_df lib fs dir base_dir = Ok (Some df) ->
  Permutation (map StageDf.source_path df) (find_stage_files dir base_dir)
  /\ NoDup (map StageDf.source_path df)
  /\ forall r, In r df ->
       StageDf.experiment r
       = top_level_label lib base_dir (StageDf.source_path r)
       /\ StageDf.stage_index r
          = cell_of_opt of_Z (stage_index_of (basename (StageDf.source_path r))).
Proof.
  unfold discovered_stage_df, build_stage_df. intros H. bind_ok H.
  destruct (frame_of a) as [df0 |] eqn:F; [| discriminate H].
  apply Ok_inj in H. injection H as <-.
  apply frame_of_rows in F. subst df0.
  assert (P : Permutation (map StageDf.source_path
                             (sort_by stage_order (map frame_row a)))
                          (find_stage_files dir base_dir)).
  { rewrite (sort_by_perm stage_order). rewrite map_map.
    rewrite (map_ext _ Analyze.source_path) by (intros r; reflexivity).
    rewrite (stage_rows_sources _ _ _ _ _ E). reflexivity. }
  split; [exact P |]. split.
  - eapply Permutation_NoDup; [symmetry; exact P |].
    apply (proj1 (sorted_set_spec _)).
  - intros r Hr. apply sort_by_In in Hr. apply in_map_iff in Hr.
    destruct Hr as (r0 & <- & Hr0). cbn.
    unfold stage_rows in E. apply mapM_Forall2 in E.
    destruct (Forall2_In_r _ _ _ _ E Hr0) as (p & _ & Hp).
    apply parse_stage_file_source in Hp. destruct Hp as (-> & -> & ->).
    split; reflexivity.
Qed.

Lemma discovered_stage_df_rows_witness :
  exists df,
    discovered_stage_df Ex.lib Ex.tree_fs Ex.tree "/runs" = Ok (Some df)
    /\ NoDup (map StageDf.source_path df)
    /\ List.length df = 2.
Proof.
  destruct (discovered_stage_df Ex.lib Ex.tree_fs Ex.tree "/runs")
    as [[df |] | e] eqn:E; try (vm_compute in E; discriminate E).
  exists df. split; [reflexivity |].
  destruct (discovered_stage_df_rows _ _ _ _ _ E) as (P & N & _).
  split; [exact N |].
  apply Permutation_length in P. rewrite length_map in P. rewrite P.
  reflexivity.
Defined.

(** ** The profile that is shown *)

(** X16.  The workload profile that is found is a match of the pattern and
    the first of the matches in the order of their paths; none is found
    exactly when nothing matches. *)
Theorem discover_profile_yaml_first dir base_dir profile_name :
  let matches := glob dir (profile_pattern base_dir profile_name) in
  match discover_profile_yaml dir base_dir profile_name with
  | Some p => In p matches /\ forall q, In q matches -> String.leb p q = true
  | None => matches = []
  end.
Proof.
  cbv zeta. unfold discover_profile_yaml.
  destruct (sort_by String.leb (glob dir (profile_pattern base_dir profile_name)))
    as [| m rest] eqn:E.
  - destruct (glob dir _) as [| x l]; [reflexivity |].
    assert (H : In x (sort_by String.leb (x :: l)))
      by (apply sort_by_In; left; reflexivity).
    rewrite E in H. destruct H.
  - eapply sort_by_first; [exact string_leb_flip | exact string_leb_trans | exact E].
Qed.

(* ------------------------------------------------------------------ *)
(** * The report of a table that holds data *)

Lemma bind_raise_inv {A B} (c : result A) (k : A -> result B) e :
  bind c k = Raise e -> c = Raise e \/ exists a, c = Ok a /\ k a = Raise e.
Proof.
  destruct c as [a | e']; cbn; intros H.
  - right. exists a. auto.
  - left. injection H as ->. reflexivity.
Qed.

Lemma mapM_raise {A B} (f : A -> result B) xs e :
  mapM f xs = Raise e -> exists x, In x xs /\ f x = Raise e.
Proof.
  induction xs as [| x xs IH]; cbn; [discriminate |].
  intros H. apply bind_raise_inv in H. destruct H as [H | (y & _ & H)].
  - exists x. auto.
  - apply bind_raise_inv in H. destruct H as [H | (ys & _ & H)]; [| discriminate H].
    destruct (IH H) as (x' & Hx & Hf). exists x'. auto.
Qed.

(** Reading a file for the report raises only where the file exists and
    cannot be read. *)
Lemma text_or_unreadable_raise fs path e :
  text_or_unreadable fs path = Raise e ->
  exists p,
    path = Some p /\ path_exists fs p = true /\ read_text fs p = None
    /\ e = read_error fs p.
Proof.
  unfold text_or_unreadable, read_text_if_exists. intros H.
  apply bind_raise_inv in H. destruct H as [H | (t & _ & H)]; [| discriminate H].
  destruct path as [p |]; [| discriminate H].
  destruct (negb (is_empty p) && path_exists fs p) eqn:C; [| discriminate H].
  apply andb_true_iff in C. destruct C as [_ C].
  destruct (read_text fs p) eqn:T; [discriminate H |].
  injection H as <-. exists p. auto.
Qed.

Lemma configuration_lines_raise fs profile_yaml_path epp_configs e :
  configuration_lines fs profile_yaml_path epp_configs = Raise e ->
  exists p,
    (profile_yaml_path = Some p \/ In p (map snd epp_configs))
    /\ path_exists fs p = true /\ read_text fs p = None
    /\ e = read_error fs p.
Proof.
  unfold configuration_lines. intros H.
  apply bind_raise_inv in H. destruct H as [H | (prof & _ & H)].
  - unfold profile_lines in H. destruct profile_yaml_path as [p |]; [| discriminate H].
    destruct (is_empty p); [discriminate H |].
    apply bind_raise_inv in H. destruct H as [H | (t & _ & H)]; [| discriminate H].
    apply text_or_unreadable_raise in H. destruct H as (p' & Ep & He & Hr & ->).
    injection Ep as <-. exists p. auto.
  - apply bind_raise_inv in H. destruct H as [H | (epp & _ & H)]; [| discriminate H].
    destruct (sort_by label_leb epp_configs) as [| c cs] eqn:S; [discriminate H |].
    apply bind_raise_inv in H. destruct H as [H | (cfgs & _ & H)]; [| discriminate H].
    apply mapM_raise in H. destruct H as (cfg & Hin & H).
    rewrite <- S in Hin. apply sort_by_In in Hin.
    unfold epp_lines in H.
    apply bind_raise_inv in H. destruct H as [H | (t & _ & H)]; [| discriminate H].
    apply text_or_unreadable_raise in H. destruct H as (p' & Ep & He & Hr & ->).
    injection Ep as <-. exists (snd cfg).
    split; [right; apply in_map; exact Hin | auto].
Qed.

(** The charts make the report fail only through a chart whose path is
    empty. *)
Lemma data_lines_raise lib fs fmt agg out_dir charts img_width_px baseline
  served_mode cap_served e :
  data_lines lib fs fmt agg out_dir charts img_width_px baseline served_mode
             cap_served = Raise e ->
  e = ValueError /\ exists name, In (name, EmptyString) charts.
Proof.
  unfold data_lines, charts_section. intros H.
  apply bind_raise_inv in H. destruct H as [H | (cs & _ & H)]; [| discriminate H].
  destruct charts as [| c0 rest]; [discriminate H |].
  apply bind_raise_inv in H. destruct H as [H | (shown & _ & H)]; [| discriminate H].
  apply mapM_raise in H. destruct H as ([name p] & Hin & H).
  unfold chart_lines, relpath_of in H. cbn [fst snd] in H.
  destruct p as [| c p]; cbn in H; [| discriminate H].
  injection H as <-. split; [reflexivity |]. exists name. exact Hin.
Qed.

(** X17.  Putting the report together fails only in two ways: on a chart
    whose path is empty, when the table holds data, and on a configuration
    file that exists and cannot be read, the workload profile or an EPP
    configuration; a missing file never makes it fail.  When neither
    happens the text of the report is its lines joined by newlines, for
    [benchmark_report.md] in the output directory. *)
Theorem report_fails_only_on_unreadable_file lib fs fmt agg out_dir charts
  profile_yaml_path epp_configs img_width_px baseline served_mode cap_served
  title :
  let report :=
    write_markdown_report_per_qps lib fs fmt agg out_dir charts
      profile_yaml_path epp_configs img_width_px baseline served_mode
      cap_served title in
  (forall e, report = Raise e ->
     (e = ValueError /\ agg <> []
      /\ exists name, In (name, EmptyString) charts)
     \/ exists p,
          (profile_yaml_path = Some p \/ In p (map snd epp_configs))
          /\ path_exists fs p = true /\ read_text fs p = None)
  /\ ((forall p, path_exists fs p = true -> read_text fs p <> None) ->
      (agg = [] \/ forall name, ~ In (name, EmptyString) charts) ->
      exists lines,
        report_lines lib fs fmt agg out_dir charts profile_yaml_path
          epp_configs img_width_px baseline served_mode cap_served title
        = Ok lines
        /\ lines <> []
        /\ report = Ok (path_join out_dir "benchmark_report.md",
                        String.concat nl lines)).
Proof.
  cbv zeta.
  assert (R : forall e,
             write_markdown_report_per_qps lib fs fmt agg out_dir charts
               profile_yaml_path epp_configs img_width_px baseline served_mode
               cap_served title = Raise e ->
             (e = ValueError /\ agg <> []
              /\ exists name, In (name, EmptyString) charts)
             \/ exists p,
                  (profile_yaml_path = Some p \/ In p (map snd epp_configs))
                  /\ path_exists fs p = true /\ read_text fs p = None).
  { intros e H. unfold write_markdown_report_per_qps, report_lines in H.
    apply bind_raise_inv in H. destruct H as [H | (ls & _ & H)]; [| discriminate H].
    apply bind_raise_inv in H. destruct H as [H | (body & _ & H)].
    - left. destruct agg as [| r agg0]; [discriminate H |].
      apply data_lines_raise in H. destruct H as [-> Hc].
      split; [reflexivity |]. split; [discriminate | exact Hc].
    - right.
      apply bind_raise_inv in H. destruct H as [H | (conf & _ & H)]; [| discriminate H].
      destruct (configuration_lines_raise _ _ _ _ H) as (p & Hp & He & Hr & _).
      exists p. auto. }
  split; [exact R |].
  intros Hread Hcharts.
  destruct (write_markdown_report_per_qps lib fs fmt agg out_dir charts
              profile_yaml_path epp_configs img_width_px baseline served_mode
              cap_served title) as [[md text] | e] eqn:W.
  - unfold write_markdown_report_per_qps in W. bind_ok W.
    apply Ok_inj in W. injection W as <- <-.
    exists a. split; [exact E |]. split; [| reflexivity].
    unfold report_lines in E. bind_ok E. apply Ok_inj in E. subst a.
    discriminate.
  - destruct (R e eq_refl) as [(_ & Hne & name & Hin) | (p & _ & He & Hr)].
    + destruct Hcharts as [Ha | Hc]; [contradiction | destruct (Hc name Hin)].
    + destruct (Hread p He Hr).
Qed.

Lemma fs_of_readable files p :
  path_exists (Ex.fs_of files) p = true -> read_text (Ex.fs_of files) p <> None.
Proof.
  cbn. destruct (assoc p files); [discriminate | discriminate].
Qed.

Lemma report_fails_only_on_unreadable_file_witness :
  exists lines,
    report_lines Ex.lib Ex.fs Ex.fmt
      (aggregate_per_qps Ex.stage_df "total" true) "/out"
      [ ("Latency vs QPS", "/out/latency_vs_qps.png") ]
      (Some Ex.profile_path) [ ("expA", Ex.epp_config_path) ] 950 None
      "total" true "vLLM Benchmark Summary" = Ok lines
    /\ lines <> []
    /\ write_markdown_report_per_qps Ex.lib Ex.fs Ex.fmt
         (aggregate_per_qps Ex.stage_df "total" true) "/out"
         [ ("Latency vs QPS", "/out/latency_vs_qps.png") ]
         (Some Ex.profile_path) [ ("expA", Ex.epp_config_path) ] 950 None
         "total" true "vLLM Benchmark Summary"
       = Ok ("/out/benchmark_report.md", String.concat nl lines).
Proof.
  apply (proj2 (report_fails_only_on_unreadable_file Ex.lib Ex.fs Ex.fmt
                  (aggregate_per_qps Ex.stage_df "total" true) "/out"
                  [ ("Latency vs QPS", "/out/latency_vs_qps.png") ]
                  (Some Ex.profile_path) [ ("expA", Ex.epp_config_path) ] 950
                  None "total" true "vLLM Benchmark Summary")
               (fs_of_readable _)).
  right. intros name [H | []]. discriminate H.
Defined.

(** ** What the report of a table with data holds *)

Lemma get0_NO_DATA : String.get 0 NO_DATA = Some "_"%char.
Proof. reflexivity. Qed.

(** No line of the data section starts like the placeholder. *)
Lemma data_lines_first lib fs fmt agg out_dir charts img_width_px baseline
  served_mode cap_served ls l :
  data_lines lib fs fmt agg out_dir charts img_width_px baseline
             served_mode cap_served = Ok ls ->
  In l ls ->
  String.get 0 l <> Some "_"%char.
Proof.
  unfold data_lines. intros D H. bind_ok D. apply Ok_inj in D. subst ls.
  rename a into chart_part. unfold data_body in H.
  repeat (apply in_app_or in H; destruct H as [H | H]).
  - unfold charts_section in E. destruct charts as [| c0 cs].
    + apply Ok_inj in E. subst chart_part. destruct H.
    + bind_ok E. apply Ok_inj in E. subst chart_part.
      destruct H as [<- | H]; [cbn; discriminate |].
      apply in_concat in H. destruct H as (shown & Hs & H).
      apply mapM_Forall2 in E0.
      destruct (Forall2_In_r _ _ _ _ E0 Hs) as (c & _ & Hc).
      unfold chart_lines in Hc. bind_ok Hc. apply Ok_inj in Hc. subst shown.
      destruct (path_exists fs (snd c)); [| destruct H].
      destruct H as [<- | [<- | []]]; cbn; discriminate.
  - repeat (destruct H as [<- | H]; [cbn; discriminate |]). destruct H.
  - apply in_map_iff in H. destruct H as (kd & <- & _). cbn. discriminate.
  - repeat (destruct H as [<- | H]; [cbn; discriminate |]). destruct H.
  - apply in_map_iff in H. destruct H as (s & <- & _).
    unfold summary_line, table_line. cbn. discriminate.
  - repeat (destruct H as [<- | H]; [cbn; discriminate |]). destruct H.
  - apply in_flat_map in H. destruct H as (qg & _ & H).
    unfold per_qps_table in H. apply in_app_or in H. destruct H as [H | H].
    + repeat (destruct H as [<- | H]; [cbn; discriminate |]). destruct H.
    + apply in_map_iff in H. destruct H as (r & <- & _).
      unfold agg_line, table_line. cbn. discriminate.
Qed.

(** Every aggregated row that has a requested rate is in a per-QPS table. *)
Lemma agg_line_in_tables fmt agg r :
  In r agg -> notna (Agg.requested_qps r) = true ->
  In (agg_line fmt r)
     (flat_map (per_qps_table fmt) (groupby qps_only cell_eqb cell_leb agg)).
Proof.
  intros Hin Hq.
  assert (K : qps_only r = Some (Agg.requested_qps r)).
  { unfold qps_only. unfold notna in Hq. apply negb_true_iff in Hq.
    rewrite Hq. reflexivity. }
  pose proof (groups_of_row qps_only cell_eqb cell_leb agg r
                cell_eqb_sym cell_eqb_trans) as G.
  rewrite K in G.
  assert (Hr : forall r0 k, qps_only r0 = Some k -> cell_eqb k k = true).
  { intros r0 k. unfold qps_only. destruct (isna (Agg.requested_qps r0)) eqn:N;
      [discriminate |]. intros E. injection E as <-. apply cell_eqb_refl, N. }
  specialize (G Hr Hin).
  destruct (filter (fun k => in_group qps_only cell_eqb k r)
                   (sort_by cell_leb (unique cell_eqb (present_keys qps_only agg))))
    as [| k ks] eqn:F; [discriminate G |].
  assert (Hk : In k (k :: ks)) by (left; reflexivity).
  rewrite <- F in Hk. apply filter_In in Hk. destruct Hk as [Hk Hg].
  apply in_flat_map. exists (k, filter (in_group qps_only cell_eqb k) agg).
  split.
  - unfold groupby. apply in_map_iff. exists k. auto.
  - unfold per_qps_table. apply in_or_app. right. cbn [snd].
    apply in_map. apply sort_by_In. apply filter_In. auto.
Qed.

(** X18.  The report of a table that holds data never shows the placeholder
    [_No data found._].  It holds the heading of the summary with one line
    for every row of the summary, and the heading of the per-QPS results
    with the line of every aggregated row that has a requested rate. *)
Theorem report_with_data lib fs fmt agg out_dir charts profile_yaml_path
  epp_configs img_width_px baseline served_mode cap_served title lines :
  agg <> [] ->
  report_lines lib fs fmt agg out_dir charts profile_yaml_path epp_configs
               img_width_px baseline served_mode cap_served title = Ok lines ->
  ~ In NO_DATA lines
  /\ In SUMMARY_HEAD lines
  /\ In PER_QPS_HEAD lines
  /\ (forall s,
        In s (_build_summary_across_qps agg served_mode cap_served baseline) ->
        In (summary_line fmt s) lines)
  /\ (forall r,
        In r agg -> notna (Agg.requested_qps r) = true ->
        In (agg_line fmt r) lines).
Proof.
  intros Hne H. unfold report_lines in H.
  destruct agg as [| r0 agg0]; [contradiction |].
  set (agg := r0 :: agg0) in *.
  bind_ok H. apply Ok_inj in H. subst lines.
  rename a into body. rename a0 into conf.
  pose proof E as B. unfold data_lines in B. bind_ok B. apply Ok_inj in B.
  rename a into chart_part.
  assert (D : forall l,
             In l (data_body fmt chart_part agg baseline served_mode
                             cap_served) ->
             In l (List.app [ "# " ++ title ++ nl ] (List.app body conf))).
  { intros l Hl. rewrite B in Hl. apply in_or_app. right.
    apply in_or_app. left. exact Hl. }
  split; [| split; [| split; [| split]]].
  - intros Hin. apply in_app_or in Hin. destruct Hin as [[Hh | []] | Hb].
    + pose proof get0_NO_DATA as G. rewrite <- Hh in G. cbn in G. discriminate G.
    + apply in_app_or in Hb. destruct Hb as [Hb | Hb].
      * exact (data_lines_first _ _ _ _ _ _ _ _ _ _ _ _ E Hb get0_NO_DATA).
      * destruct (configuration_lines_shape fs _ _ _ E0 _ Hb)
          as [F | [[t T] | [label L]]].
        -- repeat (destruct F as [F | F]; [differ F |]). destruct F.
        -- exact (rstrip_not_a_line t "_No data found._" (eq_sym T)).
        -- differ L.
  - apply D. unfold data_body.
    do 3 (apply in_or_app; right). apply in_or_app. left. cbn. auto.
  - apply D. unfold data_body.
    do 5 (apply in_or_app; right). apply in_or_app. left. cbn. auto.
  - intros s Hs. apply D. unfold data_body.
    do 4 (apply in_or_app; right). apply in_or_app. left.
    apply in_map. exact Hs.
  - intros r Hr Hq. apply D. unfold data_body.
    do 6 (apply in_or_app; right). apply agg_line_in_tables; assumption.
Qed.

Lemma report_with_data_witness :
  exists lines,
    report_lines Ex.lib Ex.fs Ex.fmt
      (aggregate_per_qps Ex.stage_df "total" true) "/out" []
      (Some Ex.profile_path) [ ("expA", Ex.epp_config_path) ] 950 None
      "total" true "vLLM Benchmark Summary" = Ok lines
    /\ ~ In NO_DATA lines
    /\ In SUMMARY_HEAD lines
    /\ In PER_QPS_HEAD lines.
Proof.
  destruct (report_lines Ex.lib Ex.fs Ex.fmt
              (aggregate_per_qps Ex.stage_df "total" true) "/out" []
              (Some Ex.profile_path) [ ("expA", Ex.epp_config_path) ] 950 None
              "total" true "vLLM Benchmark Summary") as [lines | e] eqn:E;
    [| vm_compute in E; discriminate E].
  exists lines. split; [reflexivity |].
  assert (Hne : aggregate_per_qps Ex.stage_df "total" true <> [])
    by (intros H; vm_compute in H; discriminate H).
  destruct (report_with_data _ _ _ _ _ _ _ _ _ _ _ _ _ _ Hne E)
    as (H1 & H2 & H3 & _).
  auto.
Defined.

(* ------------------------------------------------------------------ *)
(** * The EPP log: the text of the pods array and the samples of a file *)

(** ** Brackets *)

Lemma substring_0_0 s : String.substring 0 0 s = EmptyString.
Proof. destruct s; reflexivity. Qed.

Lemma substring_split s k :
  k <= String.length s ->
  s = String.substring 0 k s ++ String.substring k (String.length s - k) s.
Proof.
  revert k. induction s as [| a s IH]; intros [| k] Hk; cbn in *;
    try reflexivity; try lia.
  - f_equal. symmetry. apply substring_0_length.
  - f_equal. apply IH. lia.
Qed.

Lemma substring_of_suffix line b k :
  String.substring 0 k (String.substring b (String.length line - b) line)
  = String.substring b k line.
Proof.
  revert line. induction b as [| b IH]; intros line.
  - rewrite Nat.sub_0_r, substring_0_length. reflexivity.
  - destruct line as [| a line]; cbn.
    + destruct k; reflexivity.
    + apply IH.
Qed.

Lemma substring_prefix_prefix s j k :
  j <= k ->
  String.substring 0 j (String.substring 0 k s) = String.substring 0 j s.
Proof.
  revert j k. induction s as [| a s IH]; intros [| j] [| k] H; cbn;
    try reflexivity; try lia.
  f_equal. apply IH. lia.
Qed.

Lemma substring_0_len s k :
  k <= String.length s -> String.length (String.substring 0 k s) = k.
Proof.
  revert k. induction s as [| a s IH]; intros [| k] H; cbn in *;
    try reflexivity; try lia.
  f_equal. apply IH. lia.
Qed.

(** The character found at index [b] heads what follows index [b]. *)
Lemma substring_head line b c :
  String.substring b 1 line = String c EmptyString ->
  b < String.length line
  /\ String.substring b (String.length line - b) line
     = String c (String.substring (S b) (String.length line - S b) line).
Proof.
  revert line. induction b as [| b IH]; intros [| a line]; cbn;
    try discriminate.
  - rewrite substring_0_0. intros H. injection H as ->.
    rewrite Nat.sub_0_r, substring_0_length. split; [lia | reflexivity].
  - intros H. destruct (IH line H) as [L E]. split; [lia | exact E].
Qed.

(** Where the loop stops: at the first closing bracket that brings the
    count back to zero. *)
Lemma find_close_pos s i c e :
  (1 <= c)%Z ->
  find_close s i c = Some e ->
  exists k,
    e = i + k /\ 1 <= k <= String.length s
    /\ (c + Spec.depth (String.substring 0 k s) = 0)%Z
    /\ forall j, j < k -> (1 <= c + Spec.depth (String.substring 0 j s))%Z.
Proof.
  revert i c. induction s as [| a s IH]; intros i c Hc H; [discriminate H |].
  cbn [find_close] in H.
  assert (Step : forall c',
             (1 <= c')%Z ->
             (c' = c + (if Ascii.eqb a "[" then 1
                        else if Ascii.eqb a "]" then -1 else 0))%Z ->
             find_close s (S i) c' = Some e ->
             exists k,
               e = i + k /\ 1 <= k <= String.length (String a s)
               /\ (c + Spec.depth (String.substring 0 k (String a s)) = 0)%Z
               /\ forall j, j < k ->
                    (1 <= c + Spec.depth (String.substring 0 j (String a s)))%Z).
  { intros c' Hc' Ec' H'. destruct (IH (S i) c' Hc' H') as (k & -> & Hk & Hd & Hj).
    exists (S k). split; [lia |]. split; [cbn; lia |]. split.
    - cbn [String.substring Spec.depth]. lia.
    - intros [| j] Hlt; [cbn; lia |].
      cbn [String.substring Spec.depth]. specialize (Hj j ltac:(lia)). lia. }
  destruct (Ascii.eqb a "[") eqn:Ao.
  - apply (Step (c + 1)%Z); [lia | lia | exact H].
  - destruct (Ascii.eqb a "]") eqn:Ac.
    + destruct (Z.eqb_spec (c - 1) 0) as [Z0 | Z0].
      * injection H as <-. exists 1. split; [lia |]. split; [cbn; lia |]. split.
        -- cbn [String.substring Spec.depth]. rewrite substring_0_0, Ao, Ac.
           cbn. lia.
        -- intros j Hj. replace j with 0 by lia. cbn. lia.
      * apply (Step (c - 1)%Z); [lia | lia | exact H].
    + apply (Step c); [lia | lia | exact H].
Qed.

(** X19.  The text handed to the JSON decoder is a piece of the line that
    starts with an opening bracket and is the shortest piece from there on
    with as many closing as opening brackets: its bracket depth is zero and
    that of each of its proper prefixes is positive.  Brackets are counted
    wherever they stand, inside string values too. *)
Theorem pods_json_str_balanced line t :
  pods_json_str line = Some t ->
  (exists pre post, line = pre ++ t ++ post)
  /\ startswith "[" t = true
  /\ Spec.depth t = 0%Z
  /\ forall n, 0 < n < String.length t ->
       (0 < Spec.depth (String.substring 0 n t))%Z.
Proof.
  unfold pods_json_str. intros H.
  destruct (String.index 0 PODS_KEY line) as [pods_start |]; [| discriminate H].
  destruct (String.index pods_start "[" line) as [b |] eqn:Ib; [| discriminate H].
  destruct (find_close (slice b (String.length line) line) b 0)
    as [e |] eqn:F; [| discriminate H].
  injection H as <-.
  apply String.index_correct1 in Ib. cbn [String.length] in Ib.
  apply substring_head in Ib. destruct Ib as [Hb Es].
  unfold slice in *. rewrite Es in F. cbn [find_close] in F.
  change (Ascii.eqb "[" "[") with true in F. cbv iota in F.
  set (s' := String.substring (S b) (String.length line - S b) line) in *.
  destruct (find_close_pos s' (S b) (0 + 1)%Z e ltac:(lia) F)
    as (k & -> & Hk & Hd & Hj).
  replace (S b + k - b) with (S k) by lia.
  rewrite <- substring_of_suffix. rewrite Es. fold s'.
  cbn [String.substring].
  split; [| split; [| split]].
  - exists (String.substring 0 b line),
           (String.substring k (String.length s' - k) s').
    rewrite (substring_split line b) at 1 by lia. f_equal.
    rewrite Es. fold s'. cbn [String.append]. f_equal.
    apply substring_split. lia.
  - apply String.prefix_correct. cbn [String.length String.substring].
    rewrite substring_0_0. reflexivity.
  - cbn [Spec.depth]. change (Ascii.eqb "[" "[") with true. cbv iota. lia.
  - intros n Hn. cbn [String.length] in Hn.
    rewrite substring_0_len in Hn by lia.
    destruct n as [| j]; [lia |].
    cbn [String.substring Spec.depth]. change (Ascii.eqb "[" "[") with true.
    cbv iota. rewrite substring_prefix_prefix by lia.
    specialize (Hj j ltac:(lia)). lia.
Qed.

Lemma pods_json_str_balanced_witness :
  pods_json_str Ex.epp_line = Some Ex.pods_text
  /\ Spec.depth Ex.pods_text = 0%Z
  /\ (0 < Spec.depth (String.substring 0 5 Ex.pods_text))%Z.
Proof.
  assert (E : pods_json_str Ex.epp_line = Some Ex.pods_text) by reflexivity.
  destruct (pods_json_str_balanced Ex.epp_line Ex.pods_text E)
    as (_ & _ & D & P).
  split; [exact E |]. split; [exact D |].
  apply P. vm_compute. lia.
Defined.

(** ** The samples of a log file and the address filter *)

Lemma add_samples_all {datetime} exp path (ms : list (pod_metric datetime)) acc :
  add_samples exp path None ms acc
  = Ok (acc ++ map (fun m => {| sample := m; AnalyzeExt.experiment := exp;
                                epp_log_path := path |}) ms)%list.
Proof.
  revert acc. induction ms as [| m ms IH]; intros acc; cbn.
  - rewrite app_nil_r. reflexivity.
  - rewrite IH. rewrite <- app_assoc. reflexivity.
Qed.

Lemma add_samples_targets {datetime} exp path targets
  (ms : list (pod_metric datetime)) acc :
  add_samples exp path (Some targets) ms acc
  = if forallb (fun m => Spec.hashable (pod_address m)) ms
    then Ok (acc ++ map (fun m => {| sample := m; AnalyzeExt.experiment := exp;
                                     epp_log_path := path |})
                        (filter (fun m => Spec.targeted targets (pod_address m)) ms))%list
    else Raise TypeError.
Proof.
  revert acc. induction ms as [| m ms IH]; intros acc; cbn [add_samples].
  - cbn. rewrite app_nil_r. reflexivity.
  - cbn [forallb filter kept]. unfold in_targets.
    destruct (pod_address m) as [| b | q | s | items | members | p |]; cbn;
      try (rewrite IH; reflexivity); try reflexivity.
    rewrite IH. destruct (existsb (String.eqb s) targets); cbn; [| reflexivity].
    destruct (forallb _ ms); [| reflexivity].
    rewrite <- app_assoc. reflexivity.
Qed.

Lemma scan_lines_all lib {datetime} (parse_time : string -> option datetime)
  exp path lines acc :
  scan_lines lib parse_time exp path None lines acc
  = Ok (acc ++ map (fun m => {| sample := m; AnalyzeExt.experiment := exp;
                                epp_log_path := path |})
                   (flat_map (fun line =>
                                match parse_epp_log_line lib parse_time (strip line) with
                                | Some ms => ms
                                | None => []
                                end) lines))%list.
Proof.
  revert acc. induction lines as [| line lines IH]; intros acc; cbn [scan_lines flat_map].
  - cbn. rewrite app_nil_r. reflexivity.
  - destruct (parse_epp_log_line lib parse_time (strip line)) as [[| m ms] |].
    + rewrite IH. reflexivity.
    + rewrite add_samples_all. cbn [bind]. rewrite IH.
      rewrite map_app, app_assoc. reflexivity.
    + rewrite IH. reflexivity.
Qed.

Lemma scan_lines_targets lib {datetime} (parse_time : string -> option datetime)
  exp path targets lines acc :
  let samples :=
    flat_map (fun line =>
                match parse_epp_log_line lib parse_time (strip line) with
                | Some ms => ms
                | None => []
                end) lines in
  scan_lines lib parse_time exp path (Some targets) lines acc
  = if forallb (fun m => Spec.hashable (pod_address m)) samples
    then Ok (acc ++ map (fun m => {| sample := m; AnalyzeExt.experiment := exp;
                                     epp_log_path := path |})
                        (filter (fun m => Spec.targeted targets (pod_address m))
                                samples))%list
    else Raise TypeError.
Proof.
  cbv zeta. revert acc.
  induction lines as [| line lines IH]; intros acc; cbn [scan_lines flat_map].
  - cbn. rewrite app_nil_r. reflexivity.
  - destruct (parse_epp_log_line lib parse_time (strip line)) as [[| m ms] |].
    + rewrite IH. reflexivity.
    + rewrite add_samples_targets. rewrite forallb_app, filter_app, map_app.
      destruct (forallb _ (m :: ms)); cbn [bind andb]; [| reflexivity].
      rewrite IH. destruct (forallb _ (flat_map _ lines)); [| reflexivity].
      rewrite app_assoc. reflexivity.
    + rewrite IH. reflexivity.
Qed.

Lemma filter_map_rows {A B} (f : A -> B) (p : B -> bool) l :
  filter p (map f l) = map f (filter (fun a => p (f a)) l).
Proof.
  induction l as [| a l IH]; cbn; [reflexivity |].
  destruct (p (f a)); cbn; rewrite IH; reflexivity.
Qed.

Lemma forallb_map_rows {A B} (f : A -> B) (p : B -> bool) l :
  forallb p (map f l) = forallb (fun a => p (f a)) l.
Proof. induction l as [| a l IH]; cbn; [reflexivity |]. rewrite IH. reflexivity. Qed.

(** X20.  With target addresses, the rows kept from a log file are the rows
    kept without targets whose pod address is one of the target strings, in
    the same order, as long as every pod address of the file can be hashed.
    One sample whose address is a list or an object makes the lookup raise,
    and the file then gives no row at all. *)
Theorem epp_address_filter lib fs datetime
  (parse_time : string -> option datetime) base_dir epp_log_path targets :
  let every := epp_file_metrics lib fs parse_time base_dir epp_log_path None in
  let picked :=
    epp_file_metrics lib fs parse_time base_dir epp_log_path (Some targets) in
  (forallb (fun r => Spec.hashable (pod_address (sample r))) every = true ->
   picked
   = filter (fun r => Spec.targeted targets (pod_address (sample r))) every)
  /\ (forallb (fun r => Spec.hashable (pod_address (sample r))) every = false ->
      picked = []).
Proof.
  cbv zeta. unfold epp_file_metrics.
  destruct (negb (path_exists fs epp_log_path)); [split; [reflexivity | discriminate] |].
  destruct (read_text fs epp_log_path) as [text |]; [| split; [reflexivity | discriminate]].
  rewrite scan_lines_all, scan_lines_targets. cbn [List.app].
  rewrite forallb_map_rows, filter_map_rows. cbn [sample].
  destruct (forallb _ (flat_map _ (readlines text))); split; intros H;
    try discriminate H; reflexivity.
Qed.

Lemma epp_address_filter_witness :
  let every :=
    epp_file_metrics Ex.epp_lib Ex.epp_fs Ex.parse_stamp "/runs"
                     Ex.epp_log_path None in
  List.length every = 1
  /\ epp_file_metrics Ex.epp_lib Ex.epp_fs Ex.parse_stamp "/runs"
                      Ex.epp_log_path (Some [ "10.0.0.1" ]) = every
  /\ epp_file_metrics Ex.epp_lib Ex.epp_fs Ex.parse_stamp "/runs"
                      Ex.epp_log_path (Some [ "10.0.0.9" ]) = [].
Proof.
  cbv zeta.
  pose proof (proj1 (epp_address_filter Ex.epp_lib Ex.epp_fs string
                       Ex.parse_stamp "/runs" Ex.epp_log_path [ "10.0.0.1" ])
                    ltac:(vm_compute; reflexivity)) as H1.
  pose proof (proj1 (epp_address_filter Ex.epp_lib Ex.epp_fs string
                       Ex.parse_stamp "/runs" Ex.epp_log_path [ "10.0.0.9" ])
                    ltac:(vm_compute; reflexivity)) as H2.
  split; [vm_compute; reflexivity |].
  split; [rewrite H1 | rewrite H2]; vm_compute; reflexivity.
Defined.

(* ------------------------------------------------------------------ *)
(** * Verification: what a line of the EPP log yields *)


(* ------------------------------------------------------------------ *)
(** * The EPP log line against its description *)

(** ** The time stamp *)

Lemma stamp_match s :
  Spec.stamp s = match_prefix TIMESTAMP s && Nat.eqb (String.length s) 20.
Proof.
  do 20 (destruct s as [| ? s]; [cbn; rewrite ?andb_false_r; reflexivity |]).
  destruct s as [| ? s].
  - cbn. rewrite !andb_true_r. rewrite !andb_assoc. reflexivity.
  - cbn. rewrite andb_false_r. reflexivity.
Qed.

Lemma match_prefix_length p s :
  match_prefix p s = true -> List.length p <= String.length s.
Proof.
  revert s. induction p as [| x p IH]; intros s; cbn; [lia |].
  destruct s as [| c s]; [discriminate |].
  intros H. apply andb_true_iff in H. destruct H as [_ H].
  apply IH in H. cbn. lia.
Qed.

Lemma substring_0_short n s : String.length (String.substring 0 n s) <= n.
Proof.
  revert s. induction n as [| n IH]; intros s.
  - rewrite substring_0_0. cbn. lia.
  - destruct s as [| c s]; cbn; [lia |]. specialize (IH s). lia.
Qed.

Lemma match_prefix_whole p line :
  match_prefix p (String.substring 0 (List.length p) line) = true ->
  match_prefix p line = true.
Proof.
  revert line. induction p as [| x p IH]; intros line; [reflexivity |].
  destruct line as [| c line]; cbn [List.length String.substring match_prefix];
    [discriminate |].
  intros H. apply andb_true_iff in H. destruct H as [H1 H2].
  rewrite H1. cbn [andb]. apply IH. exact H2.
Qed.

(** The line starts with a time stamp exactly when its first twenty
    characters have the shape of one, and the stamp is these characters. *)
Lemma timestamp_match_stamp line :
  timestamp_match line
  = if Spec.stamp (Spec.leading line) then Some (Spec.leading line) else None.
Proof.
  unfold Spec.leading. rewrite stamp_match. unfold timestamp_match.
  destruct (match_prefix TIMESTAMP line) eqn:M.
  - pose proof (match_prefix_substring _ _ M) as M'.
    pose proof (match_prefix_length _ _ M') as L1.
    pose proof (substring_0_short 20 line) as L2.
    change (List.length TIMESTAMP) with 20 in *.
    rewrite M'.
    replace (String.length (String.substring 0 20 line)) with 20 by lia.
    reflexivity.
  - destruct (match_prefix TIMESTAMP (String.substring 0 20 line)) eqn:M';
      [| reflexivity].
    apply (match_prefix_whole TIMESTAMP line) in M'. congruence.
Qed.

(** ** The first occurrence of a text *)

Lemma index_from n pat s m : String.index n pat s = Some m -> n <= m.
Proof.
  revert n m. induction s as [| c s IH]; intros [| n] m; cbn; try lia.
  - discriminate.
  - destruct (String.index n pat s) as [k |] eqn:E; [| discriminate].
    intros H. injection H as <-. apply IH in E. lia.
Qed.

Lemma index_first n pat line :
  pat <> EmptyString ->
  match String.index n pat line with
  | Some i => Spec.first_at pat n line i
  | None => forall i, n <= i -> ~ Spec.occurs_at pat i line
  end.
Proof.
  intros Hp. destruct (String.index n pat line) as [i |] eqn:E.
  - split; [exact (index_from _ _ _ _ E) |].
    split; [exact (String.index_correct1 _ _ _ _ E) |].
    intros p Hpi. exact (String.index_correct2 _ _ _ _ E p (proj1 Hpi) (proj2 Hpi)).
  - intros i Hi. exact (String.index_correct3 n i pat line E Hp Hi).
Qed.

Lemma first_at_unique pat n line i j :
  Spec.first_at pat n line i -> Spec.first_at pat n line j -> i = j.
Proof.
  intros (Hi & Oi & Mi) (Hj & Oj & Mj).
  destruct (Nat.lt_trichotomy i j) as [L | [E | L]]; [| exact E |].
  - destruct (Mj i (conj Hi L) Oi).
  - destruct (Mi j (conj Hj L) Oj).
Qed.

Lemma first_at_index pat n line i :
  pat <> EmptyString ->
  Spec.first_at pat n line i -> String.index n pat line = Some i.
Proof.
  intros Hp F. pose proof (index_first n pat line Hp) as I.
  destruct (String.index n pat line) as [m |].
  - f_equal. exact (first_at_unique _ _ _ _ _ I F).
  - destruct F as (Hi & Oi & _). destruct (I i Hi Oi).
Qed.

(** ** The closing bracket, the other way round *)

Lemma find_close_complete s i c k :
  (1 <= c)%Z ->
  1 <= k <= String.length s ->
  (c + Spec.depth (String.substring 0 k s) = 0)%Z ->
  (forall j, j < k -> (1 <= c + Spec.depth (String.substring 0 j s))%Z) ->
  find_close s i c = Some (i + k).
Proof.
  revert i c k. induction s as [| a s IH]; intros i c k Hc Hk Hd Hj;
    [cbn in Hk; lia |].
  destruct k as [| k]; [lia |].
  cbn [String.substring Spec.depth] in Hd.
  assert (Step : forall c',
             (c' = c + (if Ascii.eqb a "[" then 1
                        else if Ascii.eqb a "]" then -1 else 0))%Z ->
             1 <= k -> find_close s (S i) c' = Some (i + S k)).
  { intros c' Ec' Hk1.
    replace (i + S k) with (S i + k) by lia.
    apply IH.
    - specialize (Hj 1 ltac:(lia)). cbn [String.substring Spec.depth] in Hj.
      rewrite substring_0_0 in Hj. cbn [Spec.depth] in Hj. lia.
    - cbn in Hk. lia.
    - lia.
    - intros j Hlt. specialize (Hj (S j) ltac:(lia)).
      cbn [String.substring Spec.depth] in Hj. lia. }
  cbn [find_close].
  destruct k as [| k'].
  - (* the bracket closes here *)
    rewrite substring_0_0 in Hd. cbn [Spec.depth] in Hd.
    destruct (Ascii.eqb a "[") eqn:Ao; [lia |].
    destruct (Ascii.eqb a "]") eqn:Ac; [| lia].
    replace (c - 1 =? 0)%Z with true by (symmetry; apply Z.eqb_eq; lia).
    f_equal. lia.
  - destruct (Ascii.eqb a "[") eqn:Ao; [apply Step; lia |].
    destruct (Ascii.eqb a "]") eqn:Ac; [| apply Step; lia].
    specialize (Hj 1 ltac:(lia)) as H1.
    cbn [String.substring Spec.depth] in H1. rewrite substring_0_0, Ao, Ac in H1.
    cbn [Spec.depth] in H1.
    replace (c - 1 =? 0)%Z with false by (symmetry; apply Z.eqb_neq; lia).
    apply Step; lia.
Qed.

(** ** The text of the pods array *)

Lemma pods_key_is : Spec.pods_key = PODS_KEY.
Proof. reflexivity. Qed.

(** What the code cuts out of the line is the text the description names. *)
Lemma pods_json_str_sound line text :
  pods_json_str line = Some text -> Spec.pods_text line text.
Proof.
  unfold pods_json_str. intros H.
  pose proof (index_first 0 PODS_KEY line ltac:(discriminate)) as I.
  destruct (String.index 0 PODS_KEY line) as [i |]; [| discriminate H].
  pose proof (index_first i "[" line ltac:(discriminate)) as B.
  destruct (String.index i "[" line) as [b |]; [| discriminate H].
  destruct (find_close (slice b (String.length line) line) b 0)
    as [e |] eqn:F; [| discriminate H].
  injection H as <-.
  pose proof (proj1 (proj2 B)) as Ob. unfold Spec.occurs_at in Ob.
  cbn [String.length] in Ob.
  apply substring_head in Ob. destruct Ob as [Hb Es].
  unfold slice in *. rewrite Es in F. cbn [find_close] in F.
  change (Ascii.eqb "[" "[") with true in F. cbv iota in F.
  set (s' := String.substring (S b) (String.length line - S b) line) in *.
  destruct (find_close_pos s' (S b) (0 + 1)%Z e ltac:(lia) F)
    as (k & -> & Hk & Hd & Hj).
  exists i, b, (S k).
  split; [exact I |]. split; [exact B |]. split.
  - unfold Spec.closes_at, Spec.rest_from. rewrite Es. fold s'.
    split; [cbn; lia |]. split.
    + cbn [String.substring Spec.depth]. change (Ascii.eqb "[" "[") with true.
      cbv iota. lia.
    + intros [| j] Hlt; [lia |].
      cbn [String.substring Spec.depth]. change (Ascii.eqb "[" "[") with true.
      cbv iota. specialize (Hj j ltac:(lia)). lia.
  - f_equal. lia.
Qed.

Lemma pods_text_complete line text :
  Spec.pods_text line text -> pods_json_str line = Some text.
Proof.
  intros (i & b & k & Fi & Fb & (Hk & Hd & Hj) & ->).
  unfold pods_json_str.
  rewrite (first_at_index PODS_KEY 0 line i ltac:(discriminate) Fi).
  rewrite (first_at_index "[" i line b ltac:(discriminate) Fb).
  pose proof (proj1 (proj2 Fb)) as Ob. unfold Spec.occurs_at in Ob.
  cbn [String.length] in Ob. apply substring_head in Ob.
  destruct Ob as [Hb Es]. unfold Spec.rest_from in *. unfold slice.
  rewrite Es in *. cbn [find_close].
  change (Ascii.eqb "[" "[") with true. cbv iota.
  set (s' := String.substring (S b) (String.length line - S b) line) in *.
  destruct k as [| k]; [lia |].
  assert (Hk1 : 1 <= k).
  { destruct k; [| lia]. cbn [String.substring Spec.depth] in Hd.
    rewrite substring_0_0 in Hd. cbn in Hd. lia. }
  rewrite (find_close_complete s' (S b) (0 + 1)%Z k).
  - f_equal. f_equal. lia.
  - lia.
  - cbn in Hk. lia.
  - cbn [String.substring Spec.depth] in Hd.
    change (Ascii.eqb "[" "[") with true in Hd. cbv iota in Hd. lia.
  - intros j Hlt. destruct j as [| j].
    + rewrite substring_0_0. cbn. lia.
    + specialize (Hj (S (S j)) ltac:(lia)).
      cbn [String.substring Spec.depth] in Hj.
      change (Ascii.eqb "[" "[") with true in Hj. cbv iota in Hj.
      lia.
Qed.

Lemma pods_text_none line :
  (forall text, ~ Spec.pods_text line text) -> pods_json_str line = None.
Proof.
  intros H. destruct (pods_json_str line) as [text |] eqn:E; [| reflexivity].
  destruct (H text (pods_json_str_sound _ _ E)).
Qed.

Lemma collect_objects {datetime} (parse_time : string -> option datetime)
  ts t pods :
  Spec.pod_objects pods = [] -> collect parse_time ts t pods = [].
Proof.
  intros H. pose proof (collect_carries parse_time ts t pods) as F.
  rewrite H in F. inversion F. reflexivity.
Qed.

(** C6 (as amended).  A line is parsed from its first twenty characters,
    which must have the shape [YYYY-MM-DDTHH:MM:SSZ] and read as a date,
    and from the text that starts at the first opening bracket after the
    first occurrence of the key ["pods":] and ends where that bracket is
    matched, brackets being counted wherever they stand.  When this text
    decodes to a list that holds at least one object, parsing returns one
    sample per object of the list, in order, each carrying the time stamp
    of the line and the name, address, waiting queue size and KV cache
    usage of the pod.  In every other case it returns [None]: the leading
    characters have not that shape or are no date, there is no such text,
    the text does not decode, it decodes to something else than a list, or
    the list holds no object. *)
Theorem C6_parse_epp_log_line lib datetime
  (parse_time : string -> option datetime) line :
  let parsed := parse_epp_log_line lib parse_time line in
  (Spec.stamp (Spec.leading line) = false -> parsed = None)
  /\ (parse_time (Spec.leading line) = None -> parsed = None)
  /\ ((forall text, ~ Spec.pods_text line text) -> parsed = None)
  /\ (forall text,
         Spec.pods_text line text -> json_loads lib text = None ->
         parsed = None)
  /\ (forall text v,
         Spec.pods_text line text -> json_loads lib text = Some v ->
         (forall pods, v <> JArr pods) ->
         parsed = None)
  /\ (forall text pods,
         Spec.pods_text line text -> json_loads lib text = Some (JArr pods) ->
         Spec.pod_objects pods = [] ->
         parsed = None)
  /\ (forall t text pods,
         Spec.stamp (Spec.leading line) = true ->
         parse_time (Spec.leading line) = Some t ->
         Spec.pods_text line text ->
         json_loads lib text = Some (JArr pods) ->
         Spec.pod_objects pods <> [] ->
         exists samples,
           parsed = Some samples
           /\ Forall2 (Spec.carries t) (Spec.pod_objects pods) samples)
  /\ (forall samples,
         parsed = Some samples ->
         exists t text pods,
           Spec.stamp (Spec.leading line) = true
           /\ parse_time (Spec.leading line) = Some t
           /\ Spec.pods_text line text
           /\ json_loads lib text = Some (JArr pods)
           /\ Spec.pod_objects pods <> []
           /\ Forall2 (Spec.carries t) (Spec.pod_objects pods) samples).
Proof.
  cbv zeta. unfold parse_epp_log_line. rewrite timestamp_match_stamp.
  destruct (Spec.stamp (Spec.leading line)) eqn:Hs.
  2: { repeat split; try reflexivity; discriminate. }
  destruct (parse_time (Spec.leading line)) as [t |] eqn:Hp.
  2: { repeat split; try reflexivity; discriminate. }
  split; [discriminate |]. split; [discriminate |].
  split; [| split; [| split; [| split; [| split]]]].
  - intros H. rewrite (pods_text_none _ H). reflexivity.
  - intros text Ht Hj. rewrite (pods_text_complete _ _ Ht), Hj. reflexivity.
  - intros text v Ht Hj Hv. rewrite (pods_text_complete _ _ Ht), Hj.
    destruct v as [| | | | pods | | |]; try reflexivity.
    destruct (Hv pods eq_refl).
  - intros text pods Ht Hj Ho. rewrite (pods_text_complete _ _ Ht), Hj.
    rewrite (collect_objects parse_time _ t pods Ho). reflexivity.
  - intros t' text pods _ Ht' Ht Hj Hne. injection Ht' as <-.
    rewrite (pods_text_complete _ _ Ht), Hj.
    pose proof (collect_carries parse_time (Spec.leading line) t pods) as F.
    pose proof (collect_nonempty parse_time (Spec.leading line) t pods Hne) as C.
    destruct (collect parse_time (Spec.leading line) t pods) as [| m ms];
      [contradiction |].
    eexists. split; [reflexivity | exact F].
  - intros samples H.
    destruct (pods_json_str line) as [text |] eqn:Ht; [| discriminate].
    destruct (json_loads lib text) as [[| | | | pods | | |] |] eqn:Hj;
      try discriminate.
    pose proof (collect_carries parse_time (Spec.leading line) t pods) as F.
    destruct (collect parse_time (Spec.leading line) t pods) as [| m ms] eqn:C;
      [discriminate |].
    injection H as <-. exists t, text, pods.
    split; [reflexivity |]. split; [reflexivity |].
    split; [exact (pods_json_str_sound _ _ Ht) |].
    split; [exact Hj |]. split; [| exact F].
    intros E. rewrite E in F. inversion F.
Qed.

Lemma C6_parse_epp_log_line_witness :
  Spec.stamp (Spec.leading Ex.epp_line) = true
  /\ Spec.pods_text Ex.epp_line Ex.pods_text
  /\ exists m,
       parse_epp_log_line Ex.epp_lib Ex.parse_stamp Ex.epp_line = Some [m]
       /\ timestamp m = "2024-05-01T10:00:00Z"
       /\ pod_name m = JStr "pod-a"
       /\ pod_address m = JStr "10.0.0.1"
       /\ waiting_queue_size m = JNum 3
       /\ kv_cache_usage_percent m = JNum (1 # 4)
       /\ Spec.stamp (Spec.leading Ex.fraction_line) = false
       /\ parse_epp_log_line Ex.fraction_lib Ex.parse_stamp Ex.fraction_line
          = None.
Proof.
  assert (T : Spec.pods_text Ex.epp_line Ex.pods_text)
    by (apply pods_json_str_sound; reflexivity).
  assert (N : parse_epp_log_line Ex.fraction_lib Ex.parse_stamp Ex.fraction_line
              = None).
  { apply (proj1 (C6_parse_epp_log_line Ex.fraction_lib string Ex.parse_stamp
                    Ex.fraction_line)).
    reflexivity. }
  split; [reflexivity |]. split; [exact T |].
  destruct (C6_parse_epp_log_line Ex.epp_lib string Ex.parse_stamp Ex.epp_line)
    as (_ & _ & _ & _ & _ & _ & H & _).
  destruct (H "2024-05-01T10:00:00Z" Ex.pods_text
              [ JObj [ ("NamespacedName", JObj [ ("Name", JStr "pod-a") ]);
                       ("Address", JStr "10.0.0.1");
                       ("WaitingQueueSize", JNum 3);
                       ("KVCacheUsagePercent", JNum (1 # 4)) ];
                JNum 7 ])
    as (samples & Hs & F);
    [reflexivity | reflexivity | exact T | reflexivity | discriminate |].
  cbn in F. inversion F as [| members m ? ms C F']; subst. inversion F'; subst.
  exists m. destruct C as (C1 & C2 & C3 & C4 & C5).
  repeat split; assumption.
Defined.

(** C6, as it was stated, fails on two lines.  The first has a leading
    time stamp and a document whose member [pods] is null, not an array,
    and parsing still returns a sample, made from the array of another
    member that follows.  The second has the pods array of one pod object
    and a leading ISO-8601 time stamp with a fraction of a second, and
    parsing returns [None]. *)
Lemma C6_counterexample :
  (Ex.null_pods_line = "2024-05-01T10:00:00Z INFO " ++ Ex.null_pods_body
   /\ json_loads Ex.null_pods_lib Ex.null_pods_body = Some Ex.null_pods_doc
   /\ Spec.pods_array Ex.null_pods_doc = None
   /\ exists m,
        parse_epp_log_line Ex.null_pods_lib Ex.parse_stamp Ex.null_pods_line
        = Some [m]
        /\ pod_address m = JStr "10.0.0.9")
  /\ (Ex.fraction_line = "2024-05-01T10:00:00.123Z INFO " ++ Ex.epp_body
      /\ json_loads Ex.fraction_lib Ex.epp_body = Some Ex.epp_doc
      /\ (exists pods members,
            Spec.pods_array Ex.epp_doc = Some pods
            /\ Spec.pod_objects pods = [members])
      /\ forall datetime (parse_time : string -> option datetime),
           parse_epp_log_line Ex.fraction_lib parse_time Ex.fraction_line
           = None).
Proof.
  split.
  - split; [reflexivity |]. split; [reflexivity |]. split; [reflexivity |].
    eexists. split; reflexivity.
  - split; [reflexivity |]. split; [reflexivity |]. split.
    + do 2 eexists. split; reflexivity.
    + intros datetime parse_time. reflexivity.
Qed.

(** A closing bracket inside a string ends the text that is decoded: the
    array of this line holds one pod object and decodes on its own, and the
    line yields nothing. *)
Example epp_line_bracket_in_string :
  json_loads Ex.bracket_lib Ex.bracket_text = Some Ex.bracket_doc
  /\ pods_json_str Ex.bracket_line
     = Some ("[{" ++ Ex.q "Address" ++ ": " ++ dq ++ "a]")
  /\ parse_epp_log_line Ex.bracket_lib Ex.parse_stamp Ex.bracket_line = None.
Proof. repeat split; reflexivity. Qed.
